(** * PauseBuy: purchase detection, session coordination and reflection client

  A shallow embedding of the parts of the PauseBuy browser extension that
  decide when a purchase is intercepted and what is recorded about it:

  - the content script (purchase detector with button shields),
  - the background service worker (policy checks, outcome bookkeeping),
  - the client proxy module (remote call with local fallback),
  - the risk classifier of the development server,
  - the rest of the worker (save for later, alarms, message dispatch) and
    the overlay script that reports the user's decision,
  - the proxy server's sliding-window rate limiter over its sorted sets,
    the retry loop around the model and the parsing of its answer,
  - the goal impact calculator of the extension and that of the
    development server.

  JavaScript strings are sequences of UTF-16 code units, JavaScript numbers
  are integers ([Z]) where the code only counts, and rationals ([Q]) where
  it handles prices.  The DOM, the clock, [crypto.randomUUID], [fetch] and
  [Math.random] belong to the browser and are inputs of the model. *)

From stdpp Require Import gmap strings list fin_maps.
From Stdlib Require Import ZArith QArith Qround Lia Lqa Permutation DecimalString.

#[local] Set Warnings "-clear-no-such-hyp".

Local Open Scope Z_scope.

(** ** JavaScript strings *)

Module JS.

(** A string is the list of its UTF-16 code units. *)
Definition jsstring := list N.

(** The code units of an ASCII literal of the source. *)
Definition str (s : string) : jsstring :=
  map Ascii.N_of_ascii (String.list_ascii_of_string s).

Definition isUpperAscii (c : N) : bool := ((65 <=? c) && (c <=? 90))%N.
Definition isLowerAscii (c : N) : bool := ((97 <=? c) && (c <=? 122))%N.
Definition isDigit (c : N) : bool := ((48 <=? c) && (c <=? 57))%N.

(** [toLowerCase] and the canonicalisation of the [i] flag, on the ASCII
    letters.  [window.location.href] is an ASCII serialisation, and with the
    [i] flag (without [u]) a code unit outside ASCII never canonicalises to
    an ASCII letter, so the ASCII tables are all the patterns below need. *)
Definition lowerChar (c : N) : N := if isUpperAscii c then (c + 32)%N else c.
Definition upperChar (c : N) : N := if isLowerAscii c then (c - 32)%N else c.
Definition toLowerCase (s : jsstring) : jsstring := map lowerChar s.

(** The line terminators: what [.] does not match. *)
Definition isLineTerminator (c : N) : bool :=
  ((c =? 10) || (c =? 13) || (c =? 8232) || (c =? 8233))%N.

(** [\s], which is also what [trim] strips: white space and line
    terminators. *)
Definition isSpace (c : N) : bool :=
  ((c =? 9) || (c =? 10) || (c =? 11) || (c =? 12) || (c =? 13) || (c =? 32)
   || (c =? 160) || (c =? 5760) || ((8192 <=? c) && (c <=? 8202))
   || (c =? 8232) || (c =? 8233) || (c =? 8239) || (c =? 8287)
   || (c =? 12288) || (c =? 65279))%N.

Fixpoint dropWhile {A} (p : A -> bool) (l : list A) : list A :=
  match l with
  | [] => []
  | x :: l' => if p x then dropWhile p l' else l
  end.

Fixpoint takeWhile {A} (p : A -> bool) (l : list A) : list A :=
  match l with
  | [] => []
  | x :: l' => if p x then x :: takeWhile p l' else []
  end.

Definition trimStart (s : jsstring) : jsstring := dropWhile isSpace s.
Definition trimEnd (s : jsstring) : jsstring := rev (dropWhile isSpace (rev s)).
Definition trim (s : jsstring) : jsstring := trimEnd (trimStart s).

(** [s.slice(0, n)] *)
Definition slice0 (n : nat) (s : jsstring) : jsstring := firstn n s.

Fixpoint startsWith (p s : jsstring) : bool :=
  match p, s with
  | [], _ => true
  | x :: p', y :: s' => (x =? y)%N && startsWith p' s'
  | _ :: _, [] => false
  end.

(** [s.includes(p)] *)
Fixpoint includes (s p : jsstring) : bool :=
  startsWith p s ||
  match s with
  | [] => false
  | _ :: s' => includes s' p
  end.

(** [s.replace] with a one-character string pattern and an empty
    replacement: the first occurrence only is removed. *)
Fixpoint removeFirst (c : N) (s : jsstring) : jsstring :=
  match s with
  | [] => []
  | x :: s' => if (x =? c)%N then s' else x :: removeFirst c s'
  end.

(** [a || b] on strings: the empty string is falsy. *)
Definition orElse (a b : jsstring) : jsstring :=
  match a with [] => b | _ => a end.

(** [a || b] where [a] may be [null] or [undefined]. *)
Definition optOrElse (a : option jsstring) (b : jsstring) : jsstring :=
  match a with Some (x :: r) => x :: r | _ => b end.

End JS.

(** ** The regular expressions of the source

  The patterns of the detector are built from literals, [\s], sequence,
  [*] and [?], all under the [i] flag.  [test] searches the string
  for a match; existence of a match is decided with derivatives. *)

Module Regex.
Import JS.

Inductive re : Type :=
| Empty                      (* matches nothing *)
| Eps                        (* matches the empty string *)
| Lit (c : N)                (* a literal, compared under the [i] flag *)
| Ws                         (* \s *)
| Seq (a b : re)
| Alt (a b : re)
| Star (a : re).

Definition Opt (a : re) : re := Alt a Eps.

Fixpoint lit (s : jsstring) : re :=
  match s with
  | [] => Eps
  | c :: s' => Seq (Lit c) (lit s')
  end.

Fixpoint seqs (l : list re) : re :=
  match l with
  | [] => Eps
  | r :: l' => Seq r (seqs l')
  end.

Fixpoint nullable (r : re) : bool :=
  match r with
  | Empty => false
  | Eps => true
  | Lit _ => false
  | Ws => false
  | Seq a b => nullable a && nullable b
  | Alt a b => nullable a || nullable b
  | Star _ => true
  end.

Fixpoint deriv (c : N) (r : re) : re :=
  match r with
  | Empty => Empty
  | Eps => Empty
  | Lit d => if (upperChar c =? upperChar d)%N then Eps else Empty
  | Ws => if isSpace c then Eps else Empty
  | Seq a b =>
      if nullable a then Alt (Seq (deriv c a) b) (deriv c b)
      else Seq (deriv c a) b
  | Alt a b => Alt (deriv c a) (deriv c b)
  | Star a => Seq (deriv c a) (Star a)
  end.

(** Some prefix of [s] matches [r]. *)
Fixpoint matchesPrefix (r : re) (s : jsstring) : bool :=
  nullable r ||
  match s with
  | [] => false
  | c :: s' => matchesPrefix (deriv c r) s'
  end.

(** [r.test(s)]: some substring of [s] matches [r]. *)
Fixpoint test (r : re) (s : jsstring) : bool :=
  matchesPrefix r s ||
  match s with
  | [] => false
  | _ :: s' => test r s'
  end.

(** What it means for a string to match a pattern. *)
Inductive matches : re -> jsstring -> Prop :=
| MEps : matches Eps []
| MLit c d : upperChar d = upperChar c -> matches (Lit c) [d]
| MWs d : isSpace d = true -> matches Ws [d]
| MSeq a b s1 s2 : matches a s1 -> matches b s2 -> matches (Seq a b) (s1 ++ s2)
| MAltL a b s : matches a s -> matches (Alt a b) s
| MAltR a b s : matches b s -> matches (Alt a b) s
| MStar0 a : matches (Star a) []
| MStarS a s1 s2 : matches a s1 -> matches (Star a) s2 -> matches (Star a) (s1 ++ s2).

End Regex.

(** ** The page as the content script sees it *)

Module Dom.
Import JS.

(** [getBoundingClientRect()], in pixels. *)
Record Rect := mkRect { top : Z; left : Z; width : Z; height : Z }.

(** A DOM element: its node identity and what the scripts read from it.
    [value] is [None] where the element has no such property, and
    [textContent] is [None] where it is [null]. *)
Record Element := mkElement {
  el_id : nat;
  textContent : option jsstring;
  value : option jsstring;
  attrs : gmap string jsstring;
  src : option jsstring
}.

Definition getAttribute (el : Element) (name : string) : option jsstring :=
  attrs el !! name.

(** The document at one instant.  [querySelectorAll] answers the selector
    strings of the source in document order; [boundingRect] is the layout of
    the node with the given identity. *)
Record Page := mkPage {
  href : jsstring;
  hostname : jsstring;
  title : jsstring;
  scrollX : Z;
  scrollY : Z;
  querySelectorAll : string -> list Element;
  boundingRect : nat -> Rect
}.

(** [document.querySelector]: the first match in document order. *)
Definition querySelector (p : Page) (sel : string) : option Element :=
  head (querySelectorAll p sel).

End Dom.

(** ** The content script: purchase detector *)

Module Detector.
Import JS Regex Dom.

Definition SUPPRESSION_MS : Z := 30000.
Definition AUTO_DETECT_DEBOUNCE_MS : Z := 2000.

Definition CHECKOUT_URL_PATTERNS : list re :=
  [ lit (str "/checkout");
    lit (str "/cart");
    lit (str "/payment");
    lit (str "/buy");
    lit (str "/order");
    lit (str "/gp/buy");
    lit (str "/gp/cart") ].

Definition ws : re := Star Ws.

Definition PURCHASE_BUTTON_PATTERNS : list re :=
  [ seqs [lit (str "buy"); ws; lit (str "now")];
    seqs [lit (str "add"); ws; lit (str "to"); ws; lit (str "cart")];
    seqs [lit (str "place"); ws; Opt (seqs [lit (str "your"); ws]);
          lit (str "order")];
    lit (str "checkout");
    seqs [lit (str "pay"); ws; lit (str "now")];
    seqs [lit (str "complete"); ws; lit (str "purchase")];
    seqs [lit (str "submit"); ws; lit (str "order")];
    seqs [lit (str "proceed"); ws; lit (str "to"); ws; lit (str "checkout")];
    seqs [lit (str "confirm"); ws; lit (str "order")] ].

(** *** Scoring *)

Definition urlMatches (p : Page) : bool :=
  existsb (fun pattern => test pattern (toLowerCase (href p)))
          CHECKOUT_URL_PATTERNS.

Definition getUrlScore (p : Page) : Z :=
  if urlMatches p then 30 else 0.

(** [textContent?.trim() || value || getAttribute("aria-label")], and the
    empty string when all three are falsy. *)
Definition buttonText (el : Element) : jsstring :=
  optOrElse (trim <$> textContent el)
    (optOrElse (value el)
       (optOrElse (getAttribute el "aria-label") [])).

Definition isPurchaseButton (el : Element) : bool :=
  existsb (fun p => test p (buttonText el)) PURCHASE_BUTTON_PATTERNS.

Definition SCORE_BUTTONS : string :=
  "button, input[type='submit'], a[role='button']".

Definition buttonMatches (p : Page) : bool :=
  existsb isPurchaseButton (querySelectorAll p SCORE_BUTTONS).

Definition getButtonScore (p : Page) : Z :=
  if buttonMatches p then 40 else 0.

(** The three selector lists of [getDomScore]; the attribute values are
    quoted with single quotes here, which selects the same elements. *)
Definition PRICE_ELEMENTS : string :=
  "[class*='price'], [class*='total'], [data-price]".
Definition CARD_INPUTS : string :=
  "input[name*='card'], input[name*='credit'], input[autocomplete*='cc-']".
Definition ORDER_SUMMARY : string :=
  "[class*='order-summary'], [class*='cart-summary'], [id*='order-summary']".

Definition hasPriceElement (p : Page) : bool :=
  bool_decide (0 < length (querySelectorAll p PRICE_ELEMENTS))%nat.
Definition hasCardInput (p : Page) : bool :=
  bool_decide (0 < length (querySelectorAll p CARD_INPUTS))%nat.
Definition hasOrderSummary (p : Page) : bool :=
  bool_decide (is_Some (querySelector p ORDER_SUMMARY)).

Definition getDomScore (p : Page) : Z :=
  let score := 0 in
  let score := if hasPriceElement p then score + 10 else score in
  let score := if hasCardInput p then score + 15 else score in
  let score := if hasOrderSummary p then score + 5 else score in
  Z.min score 30.

Definition totalScore (p : Page) : Z :=
  getUrlScore p + getButtonScore p + getDomScore p.

(** *** Product extraction *)

Record ProductInfo := mkProduct {
  name : jsstring;
  price : Q;
  category : jsstring;
  url : jsstring;
  image : option jsstring
}.

Definition nameSelectors : list string :=
  [ "#productTitle";
    ".sc-product-title";
    ".sc-product-link";
    ".x-item-title__mainTitle";
    "h1[itemprop='name']";
    "[data-testid='product-title']";
    "h1[data-test='product-title']";
    ".sku-title h1";
    ".heading-5.v-fw-regular";
    "h1[data-buy-box-listing-title]";
    ".product__title h1";
    ".product-single__title";
    "[itemprop='name']";
    "[data-product-name]";
    ".product-title";
    ".product-name";
    "h1.title";
    "h1" ]%string.

(** [document.querySelector(selector)?.textContent?.trim()] *)
Definition selectorText (p : Page) (selector : string) : option jsstring :=
  trim <$> (querySelector p selector ≫= textContent).

(** The guard of the name loop:
    [text && text.length > 1 && text.length < 300]. *)
Definition nameAccepted (text : jsstring) : bool :=
  bool_decide (1 < length text)%nat && bool_decide (length text < 300)%nat.

(** The name loop; the empty string when no selector is accepted. *)
Fixpoint findName (p : Page) (selectors : list string) : jsstring :=
  match selectors with
  | [] => []
  | selector :: rest =>
      match selectorText p selector with
      | Some text => if nameAccepted text then text else findName p rest
      | None => findName p rest
      end
  end.

(** The separators of the title pattern: [-], [|], en dash, em dash, [:]. *)
Definition isTitleSeparator (c : N) : bool :=
  ((c =? 45) || (c =? 124) || (c =? 8211) || (c =? 8212) || (c =? 58))%N.

(** The title pattern matches the whole of [s]: white space, a separator,
    then anything up to the end without a line terminator. *)
Definition titleTailMatches (s : jsstring) : bool :=
  match dropWhile isSpace s with
  | [] => false
  | c :: r => isTitleSeparator c && forallb (fun d => negb (isLineTerminator d)) r
  end.

(** [title.replace(pattern, empty)]: the leftmost match, which runs to the
    end of the string, is cut off. *)
Fixpoint cleanTitle (s : jsstring) : jsstring :=
  if titleTailMatches s then []
  else match s with
       | [] => []
       | c :: s' => c :: cleanTitle s'
       end.

Definition UNKNOWN_PRODUCT : jsstring := str "Unknown Product".

Definition extractName (p : Page) : jsstring :=
  let name := findName p nameSelectors in
  match name with
  | [] => orElse (trim (cleanTitle (title p))) UNKNOWN_PRODUCT
  | _ => name
  end.

Definition priceSelectors : list string :=
  [ ".a-price .a-offscreen";
    "#priceblock_ourprice";
    "#priceblock_dealprice";
    ".a-price-whole";
    ".x-price-primary .ux-textspans";
    "[itemprop='price']";
    "[data-testid='price-wrap'] [itemprop='price']";
    "span[itemprop='price']";
    "[data-test='product-price']";
    ".priceView-customer-price span";
    ".priceView-hero-price span";
    ".wt-text-title-03";
    "[data-buy-box-region='price'] p";
    ".product__price";
    ".price__current .money";
    ".product-price";
    "[data-price-amount]";
    "[data-price]";
    ".price";
    ".current-price";
    ".sale-price" ]%string.

(** The text a price is read from: the text content, else one of three
    attributes, else the empty string. *)
Definition priceText (el : option Element) : jsstring :=
  optOrElse (el ≫= textContent)
    (optOrElse (el ≫= fun e => getAttribute e "data-price-amount")
       (optOrElse (el ≫= fun e => getAttribute e "data-price")
          (optOrElse (el ≫= fun e => getAttribute e "content") []))).

Definition isDigitOrComma (c : N) : bool := isDigit c || (c =? 44)%N.

(** The first match of the price pattern: a longest run of digits and
    commas, an optional dot, a longest run of digits. *)
Definition priceMatch (text : jsstring) : option jsstring :=
  match dropWhile (fun c => negb (isDigitOrComma c)) text with
  | [] => None
  | s =>
      let rest := dropWhile isDigitOrComma s in
      Some (takeWhile isDigitOrComma s ++
            match rest with
            | c :: r => if (c =? 46)%N then c :: takeWhile isDigit r else []
            | [] => []
            end)
  end.

Definition digitsToZ (ds : jsstring) : Z :=
  fold_left (fun acc c => acc * 10 + Z.of_N (c - 48)) ds 0.

(** [parseFloat] on a string of digits, commas and dots, which is all the
    price pattern lets through: the longest decimal prefix, [None] for
    [NaN].  The value is the exact decimal. *)
Definition parseFloat (s : jsstring) : option Q :=
  let ip := takeWhile isDigit s in
  let fp := match dropWhile isDigit s with
            | c :: r => if (c =? 46)%N then takeWhile isDigit r else []
            | [] => []
            end in
  match ip ++ fp with
  | [] => None
  | ds => Some (Qred (digitsToZ ds # Z.to_pos (10 ^ Z.of_nat (length fp))))
  end.

Definition Qpositive (q : Q) : bool := negb (Qle_bool q 0).

(** What one selector contributes to the price loop: the parsed number
    when there is a match and it parses. *)
Definition parsePrice (text : jsstring) : option Q :=
  priceMatch text ≫= fun m => parseFloat (removeFirst 44 m).

Fixpoint findPrice (p : Page) (selectors : list string) : Q :=
  match selectors with
  | [] => 0%Q
  | selector :: rest =>
      match parsePrice (priceText (querySelector p selector)) with
      | Some parsed => if Qpositive parsed then parsed else findPrice p rest
      | None => findPrice p rest
      end
  end.

Definition imageSelectors : list string :=
  [ "#landingImage";
    "#icImg";
    "[data-testid='hero-image'] img";
    "[data-test='product-image'] img";
    ".primary-image img";
    "[data-buy-box-region='image'] img";
    ".product__media img";
    ".product-featured-media img";
    ".product-image img";
    "[itemprop='image']" ]%string.

Fixpoint findImage (p : Page) (selectors : list string) : option jsstring :=
  match selectors with
  | [] => None
  | selector :: rest =>
      match querySelector p selector ≫= src with
      | Some (c :: r) => Some (c :: r)
      | _ => findImage p rest
      end
  end.

Definition extractProductInfo (p : Page) : ProductInfo :=
  {| name := slice0 200 (extractName p);
     price := findPrice p priceSelectors;
     category := str "general";
     url := href p;
     image := findImage p imageSelectors |}.

(** *** Shields and the state of the script *)

(** A shield: the identity of its div and the style the script gives it. *)
Record Shield := mkShield {
  sh_node : nat;
  sh_hidden : bool;          (* style.display is none *)
  sh_top : Z;
  sh_left : Z;
  sh_width : Z;
  sh_height : Z
}.

(** What the script sends to the background. *)
Inductive Message : Type :=
| PURCHASE_DETECTED (product : ProductInfo) (site : jsstring) (confidence : Z).

(** The module-level variables of the script, followed by the part of the
    browser it reads and writes. *)
Record Tab := mkTab {
  handledUrl : option jsstring;  (* let handledUrl *)
  overlayActive : bool;  (* let overlayActive *)
  pendingButton : option nat;  (* let pendingButton: the identity of the button *)
  shieldedButtons : gmap nat Shield;  (* const shieldedButtons: button identity to shield *)
  lastAutoDetection : Z;  (* let lastAutoDetection *)
  lastUrl : jsstring;  (* let lastUrl *)
  page : Page;  (* the document now *)
  now : Z;  (* Date.now() *)
  proceedUntil : option Z;  (* chrome.storage.session, when it holds a number *)
  attached : gset nat;  (* the shield divs under document.body *)
  nextNode : nat;  (* the next fresh node identity *)
  sent : list Message;  (* chrome.runtime.sendMessage calls, oldest first *)
  clicked : list nat  (* button.click() calls, oldest first *)
}.

Definition set_handledUrl (v : option jsstring) (t : Tab) : Tab :=
  mkTab v (overlayActive t) (pendingButton t) (shieldedButtons t) (lastAutoDetection t)
        (lastUrl t) (page t) (now t) (proceedUntil t) (attached t) (nextNode t)
        (sent t) (clicked t).
Definition set_overlayActive (v : bool) (t : Tab) : Tab :=
  mkTab (handledUrl t) v (pendingButton t) (shieldedButtons t) (lastAutoDetection t)
        (lastUrl t) (page t) (now t) (proceedUntil t) (attached t) (nextNode t)
        (sent t) (clicked t).
Definition set_pendingButton (v : option nat) (t : Tab) : Tab :=
  mkTab (handledUrl t) (overlayActive t) v (shieldedButtons t) (lastAutoDetection t)
        (lastUrl t) (page t) (now t) (proceedUntil t) (attached t) (nextNode t)
        (sent t) (clicked t).
Definition set_shieldedButtons (v : gmap nat Shield) (t : Tab) : Tab :=
  mkTab (handledUrl t) (overlayActive t) (pendingButton t) v (lastAutoDetection t)
        (lastUrl t) (page t) (now t) (proceedUntil t) (attached t) (nextNode t)
        (sent t) (clicked t).
Definition set_lastAutoDetection (v : Z) (t : Tab) : Tab :=
  mkTab (handledUrl t) (overlayActive t) (pendingButton t) (shieldedButtons t) v
        (lastUrl t) (page t) (now t) (proceedUntil t) (attached t) (nextNode t)
        (sent t) (clicked t).
Definition set_lastUrl (v : jsstring) (t : Tab) : Tab :=
  mkTab (handledUrl t) (overlayActive t) (pendingButton t) (shieldedButtons t)
        (lastAutoDetection t) v (page t) (now t) (proceedUntil t) (attached t)
        (nextNode t) (sent t) (clicked t).
Definition set_page (v : Page) (t : Tab) : Tab :=
  mkTab (handledUrl t) (overlayActive t) (pendingButton t) (shieldedButtons t)
        (lastAutoDetection t) (lastUrl t) v (now t) (proceedUntil t) (attached t)
        (nextNode t) (sent t) (clicked t).
Definition set_now (v : Z) (t : Tab) : Tab :=
  mkTab (handledUrl t) (overlayActive t) (pendingButton t) (shieldedButtons t)
        (lastAutoDetection t) (lastUrl t) (page t) v (proceedUntil t) (attached t)
        (nextNode t) (sent t) (clicked t).
Definition set_proceedUntil (v : option Z) (t : Tab) : Tab :=
  mkTab (handledUrl t) (overlayActive t) (pendingButton t) (shieldedButtons t)
        (lastAutoDetection t) (lastUrl t) (page t) (now t) v (attached t) (nextNode t)
        (sent t) (clicked t).
Definition set_attached (v : gset nat) (t : Tab) : Tab :=
  mkTab (handledUrl t) (overlayActive t) (pendingButton t) (shieldedButtons t)
        (lastAutoDetection t) (lastUrl t) (page t) (now t) (proceedUntil t) v
        (nextNode t) (sent t) (clicked t).
Definition set_nextNode (v : nat) (t : Tab) : Tab :=
  mkTab (handledUrl t) (overlayActive t) (pendingButton t) (shieldedButtons t)
        (lastAutoDetection t) (lastUrl t) (page t) (now t) (proceedUntil t)
        (attached t) v (sent t) (clicked t).
Definition set_sent (v : list Message) (t : Tab) : Tab :=
  mkTab (handledUrl t) (overlayActive t) (pendingButton t) (shieldedButtons t)
        (lastAutoDetection t) (lastUrl t) (page t) (now t) (proceedUntil t)
        (attached t) (nextNode t) v (clicked t).
Definition set_clicked (v : list nat) (t : Tab) : Tab :=
  mkTab (handledUrl t) (overlayActive t) (pendingButton t) (shieldedButtons t)
        (lastAutoDetection t) (lastUrl t) (page t) (now t) (proceedUntil t)
        (attached t) (nextNode t) (sent t) v.

Definition send (m : Message) (t : Tab) : Tab := set_sent (sent t ++ [m]) t.
Definition click (button : nat) (t : Tab) : Tab :=
  set_clicked (clicked t ++ [button]) t.

(** [handledUrl === window.location.href] *)
Definition urlHandled (t : Tab) : bool :=
  bool_decide (handledUrl t = Some (href (page t))).

Definition FIND_BUTTONS : string :=
  "button, input[type='submit'], a[role='button'], [role='button']".

Definition findPurchaseButtons (p : Page) : list Element :=
  filter (fun el => isPurchaseButton el = true) (querySelectorAll p FIND_BUTTONS).

Definition zeroArea (r : Rect) : bool := (width r =? 0) || (height r =? 0).

(** [createShield]: a fresh div placed over the button and appended to
    the body.  Its click handler is [shieldClick] below. *)
Definition createShield (button : Element) (t : Tab) : Shield * Tab :=
  let rect := boundingRect (page t) (el_id button) in
  let shield :=
    {| sh_node := nextNode t;
       sh_hidden := false;
       sh_top := top rect + scrollY (page t);
       sh_left := left rect + scrollX (page t);
       sh_width := width rect;
       sh_height := height rect |} in
  (shield, set_nextNode (S (nextNode t)) (set_attached ({[nextNode t]} ∪ attached t) t)).

Definition updateShieldPosition (button : nat) (t : Tab) : Tab :=
  match shieldedButtons t !! button with
  | None => t
  | Some shield =>
      let rect := boundingRect (page t) button in
      if zeroArea rect then
        set_shieldedButtons
          (<[button := mkShield (sh_node shield) true (sh_top shield) (sh_left shield)
                                (sh_width shield) (sh_height shield)]> (shieldedButtons t)) t
      else
        set_shieldedButtons
          (<[button := mkShield (sh_node shield) false
                                (top rect + scrollY (page t)) (left rect + scrollX (page t))
                                (width rect) (height rect)]> (shieldedButtons t)) t
  end.

(** The body of the loop of [shieldPurchaseButtons]. *)
Definition shieldButton (t : Tab) (button : Element) : Tab :=
  if bool_decide (is_Some (shieldedButtons t !! el_id button)) then
    updateShieldPosition (el_id button) t
  else if zeroArea (boundingRect (page t) (el_id button)) then t
  else
    let '(shield, t') := createShield button t in
    set_shieldedButtons (<[el_id button := shield]> (shieldedButtons t')) t'.

Definition shieldPurchaseButtons (t : Tab) : Tab :=
  if urlHandled t then t
  else fold_left shieldButton (findPurchaseButtons (page t)) t.

Definition shieldNodes (m : gmap nat Shield) : gset nat :=
  list_to_set (map (fun kv => sh_node (snd kv)) (map_to_list m)).

Definition removeAllShields (t : Tab) : Tab :=
  set_shieldedButtons ∅ (set_attached (attached t ∖ shieldNodes (shieldedButtons t)) t).

(** *** Suppression *)

Definition isSuppressed (t : Tab) : bool :=
  match proceedUntil t with
  | Some until => now t <? until
  | None => false
  end.

Definition setSuppression (t : Tab) : Tab :=
  set_proceedUntil (Some (now t + SUPPRESSION_MS)) t.

(** *** Click interception *)

(** [handleShieldClick] up to the call of [sendMessage]. *)
Definition handleShieldClick (button : Element) (t : Tab) : Tab :=
  let t := set_pendingButton (Some (el_id button)) t in
  send (PURCHASE_DETECTED (extractProductInfo (page t)) (hostname (page t)) 100) t.

(** The [then] callback of [handleShieldClick]. *)
Definition shieldReply (button : Element) (blocked : bool) (t : Tab) : Tab :=
  if blocked then set_handledUrl (Some (href (page t))) t
  else set_pendingButton None (click (el_id button) (removeAllShields t)).

(** The [catch] callback of [handleShieldClick]. *)
Definition shieldFailure (button : Element) (t : Tab) : Tab :=
  set_pendingButton None (click (el_id button) (removeAllShields t)).

(** The click listener that [createShield] puts on the shield of [button]. *)
Definition shieldClick (button : Element) (t : Tab) : Tab :=
  if overlayActive t || urlHandled t then t
  else if isSuppressed t then click (el_id button) (removeAllShields t)
  else handleShieldClick button t.

(** *** Automatic detection *)

Definition autoDetectPurchaseIntent (t : Tab) : Tab :=
  if urlHandled t then t
  else if isSuppressed t then t
  else if now t - lastAutoDetection t <? AUTO_DETECT_DEBOUNCE_MS then t
  else
    let total := totalScore (page t) in
    if 60 <=? total then
      let t := set_lastAutoDetection (now t) t in
      send (PURCHASE_DETECTED (extractProductInfo (page t)) (hostname (page t)) total) t
    else t.

(** The [then] callback of [autoDetectPurchaseIntent]. *)
Definition autoReply (blocked : bool) (t : Tab) : Tab :=
  if blocked then set_handledUrl (Some (href (page t))) t else t.

(** *** Initialisation, observers and the message listener *)

(** The script at [document_idle]: no shield, nothing handled. *)
Definition fresh (p : Page) (time : Z) (session : option Z) : Tab :=
  {| handledUrl := None; overlayActive := false; pendingButton := None;
     shieldedButtons := ∅; lastAutoDetection := 0; lastUrl := href p;
     page := p; now := time; proceedUntil := session;
     attached := ∅; nextNode := 0; sent := []; clicked := [] |}.

Definition load (p : Page) (time : Z) (session : option Z) : Tab :=
  shieldPurchaseButtons (autoDetectPurchaseIntent (fresh p time session)).

(** The mutation observer, on a significant change. *)
Definition onMutation (t : Tab) : Tab :=
  shieldPurchaseButtons (autoDetectPurchaseIntent t).

(** The one-second poller for URL changes. *)
Definition onPoll (t : Tab) : Tab :=
  if bool_decide (href (page t) = lastUrl t) then t
  else
    let t := set_lastUrl (href (page t)) t in
    let t := set_handledUrl None t in
    let t := removeAllShields t in
    shieldPurchaseButtons (autoDetectPurchaseIntent t).

Definition onResize (t : Tab) : Tab :=
  fold_left (fun t button => updateShieldPosition button t)
            (map fst (map_to_list (shieldedButtons t))) t.

Inductive TabMessage : Type := SHOW_OVERLAY | PROCEED_WITH_PURCHASE | RESET_DETECTION.

Definition onMessage (m : TabMessage) (t : Tab) : Tab :=
  match m with
  | SHOW_OVERLAY => set_overlayActive true t
  | PROCEED_WITH_PURCHASE =>
      let t := set_overlayActive false t in
      let t := setSuppression t in
      let t := removeAllShields t in
      let t := set_handledUrl (Some (href (page t))) t in
      match pendingButton t with
      | Some button => set_pendingButton None (click button t)
      | None => t
      end
  | RESET_DETECTION =>
      let t := set_overlayActive false t in
      let t := removeAllShields t in
      let t := set_handledUrl (Some (href (page t))) t in
      set_pendingButton None t
  end.

(** *** The script as a transition system

    What can happen to a tab: the callbacks above, and the browser showing
    another document or letting time pass.  A shield is clicked only while
    it exists and is displayed. *)
Inductive Event : Type :=
| Mutation
| Poll
| Resize
| ShieldClick (button : Element)
| ShieldReply (button : Element) (blocked : bool)
| ShieldFailure (button : Element)
| AutoReply (blocked : bool)
| Incoming (m : TabMessage)
| Shows (p : Page)
| Elapses (ms : N).

Definition clickable (button : Element) (t : Tab) : bool :=
  match shieldedButtons t !! el_id button with
  | Some shield => negb (sh_hidden shield)
  | None => false
  end.

Definition step (t : Tab) (e : Event) : Tab :=
  match e with
  | Mutation => onMutation t
  | Poll => onPoll t
  | Resize => onResize t
  | ShieldClick button => if clickable button t then shieldClick button t else t
  | ShieldReply button blocked => shieldReply button blocked t
  | ShieldFailure button => shieldFailure button t
  | AutoReply blocked => autoReply blocked t
  | Incoming m => onMessage m t
  | Shows p => set_page p t
  | Elapses ms => set_now (now t + Z.of_N ms) t
  end.

Definition run (t : Tab) (events : list Event) : Tab := fold_left step events t.

End Detector.

(** ** What the extension keeps in [chrome.storage.local] *)

Module Storage.
Import JS.

Inductive RiskLevel : Type := low | medium | high.
Inductive Outcome : Type := pending | bought | saved | cooled_off.
Inductive Source : Type := claude | fallback | unknown.

(** [quietHours] holds the two hours that [handlePurchaseDetected] compares
    with [getHours()]. *)
Record Settings := mkSettings {
  frictionLevel : Z;
  enabledSites : list jsstring;
  quietHours : option (Z * Z);
  notifications : bool
}.

Record Stats := mkStats { savedToday : Q; savedTotal : Q; streak : Z }.

Record FinancialGoal := mkGoal {
  goal_id : jsstring;
  goal_name : jsstring;
  targetAmount : Q;
  currentAmount : Q;
  deadline : Z;
  isPrimary : bool
}.

(** An entry of [purchaseHistory].  The fields that the orphan entry of
    [handlePurchaseOutcome] leaves out are optional; [timestamp] is the
    instant that the stored ISO string denotes. *)
Record HistoryEntry := mkEntry {
  id : option jsstring;
  eventId : option jsstring;
  product : option Detector.ProductInfo;
  site : option jsstring;
  confidence : option Z;
  timestamp : Z;
  riskLevel : option RiskLevel;
  questionsAsked : list jsstring;
  reflectionTime : Z;
  outcome : Outcome;
  source : option Source
}.

Record RateLimitState := mkRateLimitState {
  exceeded : bool;
  rl_remaining : option Z;
  rl_resetAt : Z
}.

Record Store := mkStore {
  enabled : bool;
  clientId : option jsstring;
  settings : option Settings;
  goals : list FinancialGoal;
  purchaseHistory : list HistoryEntry;
  stats : Stats;
  rateLimitInfo : option RateLimitState
}.

Definition set_purchaseHistory (h : list HistoryEntry) (s : Store) : Store :=
  mkStore (enabled s) (clientId s) (settings s) (goals s) h (stats s) (rateLimitInfo s)
        .
Definition set_stats (v : Stats) (s : Store) : Store :=
  mkStore (enabled s) (clientId s) (settings s) (goals s) (purchaseHistory s) v
        (rateLimitInfo s) .
Definition set_rateLimitInfo (v : RateLimitState) (s : Store) : Store :=
  mkStore (enabled s) (clientId s) (settings s) (goals s) (purchaseHistory s) (stats s)
        (Some v) .

End Storage.

(** ** The client proxy module *)

Module Api.
Import JS Storage.

Definition FALLBACK_QUESTIONS : list jsstring :=
  [ str "Do you need this right now, or can it wait a few days?";
    str "How will you feel about this purchase in a week?";
    str "Is this aligned with your current financial goals?";
    str "Would you still want this if there was no sale?";
    str "Do you already own something that serves this purpose?" ].

Inductive TimeOfDay : Type := morning | afternoon | evening | night | late_night.

Record ReflectionContext := mkContext {
  timeOfDay : TimeOfDay;
  goalName : option jsstring;
  recentPurchaseCount : Z;
  frictionLevel : Z
}.

(** [Partial<ReflectionContext>] *)
Record PartialContext := mkPartial {
  p_timeOfDay : option TimeOfDay;
  p_goalName : option jsstring;
  p_recentPurchaseCount : option Z;
  p_frictionLevel : option Z
}.

Definition noPartial : PartialContext := mkPartial None None None None.

Record GoalImpact := mkImpact {
  gi_goalName : jsstring;
  delayDays : Z;
  message : jsstring
}.

Record Meta := mkMeta {
  meta_clientId : jsstring;
  meta_timestamp : Z;
  meta_source : Source;
  error : option jsstring
}.

Record ReflectionResponse := mkResponse {
  questions : list jsstring;
  goalImpact : option GoalImpact;
  riskLevel : RiskLevel;
  meta : option Meta
}.

Record RateLimitInfo := mkRateLimit { limit : Z; remaining : Z; resetAt : Z }.

(** What [fetch] and the reading of the body can do.  A rejection carries
    the message of the error when it is an [Error].  A broken body fails
    both [text()] and [json()]; a body that is not JSON fails [json()]. *)
Inductive Body : Type :=
| Broken (message : option jsstring)
| NotJson (message : option jsstring)
| Json (resetAt : option Z) (data : ReflectionResponse).

Inductive FetchOutcome : Type :=
| Rejects (message : option jsstring)
| Responds (status : Z) (h_limit h_remaining h_reset : option Z) (body : Body).

(** The inputs that the browser supplies to one run of the background
    code.  [random] answers the comparisons of the shuffle; [impactOf] is
    [calculateGoalImpact] of the goal impact calculator, which reads the
    clock, cut down to the three fields that [createFallbackResponse]
    keeps. *)
Record Env := mkEnv {
  dateNow : Z;
  hours : Z;
  randomUUID : jsstring;
  fetch : FetchOutcome;
  random : list bool;
  impactOf : list FinancialGoal -> Q -> option GoalImpact
}.

Definition getTimeOfDay (hour : Z) : TimeOfDay :=
  if (5 <=? hour) && (hour <? 12) then morning
  else if (12 <=? hour) && (hour <? 17) then afternoon
  else if (17 <=? hour) && (hour <? 21) then evening
  else if (21 <=? hour) && (hour <? 23) then night
  else late_night.

(** [sort] with a comparator that ignores its arguments.  The language
    leaves the algorithm to the engine; here it is insertion sort, each
    comparison answered by the next random sign ([true]: positive). *)
Fixpoint insertRandom {A} (x : A) (l : list A) (rnd : list bool)
  : list A * list bool :=
  match l, rnd with
  | y :: l', true :: rnd' =>
      let '(r, rnd'') := insertRandom x l' rnd' in (y :: r, rnd'')
  | _ :: _, false :: rnd' => (x :: l, rnd')
  | _, _ => (x :: l, rnd)
  end.

Fixpoint sortRandom {A} (l : list A) (rnd : list bool) : list A * list bool :=
  match l with
  | [] => ([], rnd)
  | x :: l' => let '(s, rnd') := sortRandom l' rnd in insertRandom x s rnd'
  end.

Definition getRandomFallbackQuestions (rnd : list bool) (count : nat) : list jsstring :=
  let shuffled := fst (sortRandom FALLBACK_QUESTIONS rnd) in
  firstn count shuffled.

Definition Qgt_bool (a b : Q) : bool := negb (Qle_bool a b).

(** The score that [determineLocalRiskLevel] accumulates. *)
Definition localRiskScore
    (product : Detector.ProductInfo) (context : ReflectionContext) : Z :=
  let score := 0 in
  let score := match timeOfDay context with
               | late_night => score + 2
               | night => score + 1
               | _ => score
               end in
  let score := if 3 <? recentPurchaseCount context then score + 2
               else if 1 <? recentPurchaseCount context then score + 1
               else score in
  let score := if Qgt_bool (Detector.price product) 200 then score + 2
               else if Qgt_bool (Detector.price product) 50 then score + 1
               else score in
  score.

Definition determineLocalRiskLevel
    (product : Detector.ProductInfo) (context : ReflectionContext) : RiskLevel :=
  let score := localRiskScore product context in
  if 4 <=? score then high
  else if 2 <=? score then medium
  else low.

Definition createFallbackResponse (env : Env)
    (product : Detector.ProductInfo) (context : ReflectionContext)
    (goals : list FinancialGoal) (error : option jsstring) : ReflectionResponse :=
  let questionCount := if 4 <=? frictionLevel context then 3%nat else 2%nat in
  {| questions := getRandomFallbackQuestions (random env) questionCount;
     goalImpact := impactOf env goals (Detector.price product);
     riskLevel := determineLocalRiskLevel product context;
     meta := Some {| meta_clientId := str "local";
                     meta_timestamp := dateNow env;
                     meta_source := fallback;
                     error := error |} |}.

Definition WEEK_MS : Z := 7 * 24 * 60 * 60 * 1000.
Definition DAY_MS : Z := 86400000.

Definition numberToString (n : Z) : jsstring :=
  str (NilZero.string_of_int (Z.to_int n)).

(** The context that [callProxyAPI] builds.  No entry that the extension
    writes has a top-level [category], so the category test of the filter
    lets every recent entry through. *)
Definition buildContext (env : Env) (st : Store) (partialContext : PartialContext)
  : ReflectionContext :=
  let weekAgo := dateNow env - WEEK_MS in
  let recentPurchases :=
    filter (fun p => weekAgo < timestamp p) (purchaseHistory st) in
  let primaryGoal := find isPrimary (goals st) in
  let friction :=
    match settings st with
    | Some s => if Storage.frictionLevel s =? 0 then 3 else Storage.frictionLevel s
    | None => 3
    end in
  {| timeOfDay := default (getTimeOfDay (hours env)) (p_timeOfDay partialContext);
     goalName := match p_goalName partialContext with
                 | Some g => Some g
                 | None => goal_name <$> primaryGoal
                 end;
     recentPurchaseCount :=
       default (Z.of_nat (length recentPurchases)) (p_recentPurchaseCount partialContext);
     frictionLevel := default friction (p_frictionLevel partialContext) |}.

(** [error instanceof Error ? error.message : "network_error"] *)
Definition errorMessage (message : option jsstring) : jsstring :=
  default (str "network_error") message.

Definition isOk (status : Z) : bool := (200 <=? status) && (status <=? 299).

(** [callProxyAPI]: the new store, the response and the rate limit
    information when there is one. *)
Definition callProxyAPI (env : Env) (st : Store)
    (product : Detector.ProductInfo) (partialContext : PartialContext)
  : Store * (ReflectionResponse * option RateLimitInfo) :=
  let context := buildContext env st partialContext in
  let caught message :=
    (st, (createFallbackResponse env product context (goals st)
            (Some (errorMessage message)), None)) in
  match fetch env with
  | Rejects message => caught message
  | Responds status h_limit h_remaining h_reset body =>
      let rateLimit :=
        {| limit := default 100 h_limit;
           remaining := default 100 h_remaining;
           resetAt := default (dateNow env + DAY_MS) h_reset |} in
      if status =? 429 then
        match body with
        | Broken message | NotJson message => caught message
        | Json errorResetAt _ =>
            let reset := match errorResetAt with
                         | Some 0 | None => resetAt rateLimit
                         | Some r => r
                         end in
            (set_rateLimitInfo (mkRateLimitState true None reset) st,
             (createFallbackResponse env product context (goals st)
                (Some (str "rate_limit_exceeded")),
              Some rateLimit))
        end
      else if negb (isOk status) then
        match body with
        | Broken message => caught message
        | NotJson _ | Json _ _ =>
            (st,
             (createFallbackResponse env product context (goals st)
                (Some (str "api_error_" ++ numberToString status)),
              Some rateLimit))
        end
      else
        match body with
        | Broken message | NotJson message => caught message
        | Json _ data =>
            (set_rateLimitInfo
               (mkRateLimitState false (Some (remaining rateLimit)) (resetAt rateLimit)) st,
             (data, Some rateLimit))
        end
  end.

End Api.

(** ** The development server: its risk classifier *)

Module Server.
Import JS Storage.

(** The validated request.  [localHour] is the hour that the server reads
    from [context.localDateTime]. *)
Record ReflectionRequest := mkRequest {
  product_name : jsstring;
  product_price : Q;
  product_category : jsstring;
  localHour : Z;
  goalName : option jsstring;
  recentPurchaseCount : Z;
  frictionLevel : Z
}.

(** [getTimeOfDay] of the server library, on the hour of the date. *)
Definition getTimeOfDay (hour : Z) : Api.TimeOfDay :=
  if (5 <=? hour) && (hour <? 12) then Api.morning
  else if (12 <=? hour) && (hour <? 17) then Api.afternoon
  else if (17 <=? hour) && (hour <? 21) then Api.evening
  else if (21 <=? hour) && (hour <? 23) then Api.night
  else Api.late_night.

(** The score that [determineRiskLevel] accumulates. *)
Definition riskScore (request : ReflectionRequest) : Z :=
  let timeOfDay := getTimeOfDay (localHour request) in
  let riskScore := 0 in
  let riskScore := match timeOfDay with
                   | Api.late_night => riskScore + 2
                   | Api.night => riskScore + 1
                   | _ => riskScore
                   end in
  let riskScore := if 3 <? recentPurchaseCount request then riskScore + 2
                   else if 1 <? recentPurchaseCount request then riskScore + 1
                   else riskScore in
  let riskScore := if 4 <=? frictionLevel request then riskScore + 1 else riskScore in
  let riskScore := if Api.Qgt_bool (product_price request) 200 then riskScore + 2
                   else if Api.Qgt_bool (product_price request) 50 then riskScore + 1
                   else riskScore in
  riskScore.

Definition determineRiskLevel (request : ReflectionRequest) : RiskLevel :=
  let riskScore := riskScore request in
  if 4 <=? riskScore then high
  else if 2 <=? riskScore then medium
  else low.

End Server.

(** ** The background service worker *)

Module Background.
Import JS Storage.

Record PurchaseDetectedMessage := mkDetected {
  product : Detector.ProductInfo;
  site : jsstring;
  confidence : Z
}.

Record PurchaseOutcomeMessage := mkOutcome {
  eventId : jsstring;
  outcome : Outcome;
  reflectionTime : Z
}.

Inductive Reason : Type :=
| extension_disabled | quiet_hours | site_not_enabled | low_confidence.

(** The two shapes of the answer to [PURCHASE_DETECTED]. *)
Inductive Decision : Type :=
| NotBlocked (reason : Reason)
| Blocked (eventId : jsstring) (questions : list jsstring)
          (goalImpact : option Api.GoalImpact) (riskLevel : RiskLevel)
          (rateLimit : option Api.RateLimitInfo).

Definition blocked (d : Decision) : bool :=
  match d with Blocked _ _ _ _ _ => true | NotBlocked _ => false end.

(** The quiet hours test, with its wraparound branch. *)
Definition inQuietHours (currentHour : Z) (window : Z * Z) : bool :=
  let '(start, end_) := window in
  ((start <=? end_) && (start <=? currentHour) && (currentHour <? end_))
  || ((end_ <? start) && ((start <=? currentHour) || (currentHour <? end_))).

Definition quiet (env : Api.Env) (st : Store) : bool :=
  match settings st ≫= quietHours with
  | Some window => inQuietHours (Api.hours env) window
  | None => false
  end.

(** The site test fails when the list is not empty and no entry is a
    substring of the site. *)
Definition siteRefused (st : Store) (site : jsstring) : bool :=
  match settings st with
  | Some s =>
      bool_decide (0 < length (enabledSites s))%nat
      && negb (existsb (fun entry => includes site entry) (enabledSites s))
  | None => false
  end.

Definition pendingEntry (env : Api.Env) (message : PurchaseDetectedMessage)
    (response : Api.ReflectionResponse) : HistoryEntry :=
  {| id := Some (Api.randomUUID env);
     Storage.eventId := Some (Api.randomUUID env);
     Storage.product := Some (product message);
     Storage.site := Some (site message);
     Storage.confidence := Some (confidence message);
     timestamp := Api.dateNow env;
     Storage.riskLevel := Some (Api.riskLevel response);
     questionsAsked := Api.questions response;
     Storage.reflectionTime := 0;
     Storage.outcome := pending;
     source := Some (match Api.meta response with
                     | Some m => Api.meta_source m
                     | None => unknown
                     end) |}.

Definition handlePurchaseDetected (env : Api.Env) (st : Store)
    (message : PurchaseDetectedMessage) : Store * Decision :=
  if negb (enabled st) then (st, NotBlocked extension_disabled)
  else if quiet env st then (st, NotBlocked quiet_hours)
  else if siteRefused st (site message) then (st, NotBlocked site_not_enabled)
  else if confidence message <? 50 then (st, NotBlocked low_confidence)
  else
    let eventId := Api.randomUUID env in
    let '(st, (response, rateLimit)) :=
      Api.callProxyAPI env st (product message) Api.noPartial in
    let purchaseHistory := purchaseHistory st ++ [pendingEntry env message response] in
    (set_purchaseHistory purchaseHistory st,
     Blocked eventId (Api.questions response) (Api.goalImpact response)
             (Api.riskLevel response) rateLimit).

(** [e.eventId === message.eventId || e.id === message.eventId] *)
Definition sameEvent (eventId : jsstring) (e : HistoryEntry) : bool :=
  bool_decide (Storage.eventId e = Some eventId) || bool_decide (id e = Some eventId).

(** [findIndex]; [None] stands for -1. *)
Fixpoint findIndex {A} (f : A -> bool) (l : list A) : option nat :=
  match l with
  | [] => None
  | x :: l' => if f x then Some 0%nat else S <$> findIndex f l'
  end.

Definition resolve (message : PurchaseOutcomeMessage) (event : HistoryEntry) : HistoryEntry :=
  mkEntry (id event) (Storage.eventId event) (Storage.product event) (Storage.site event)
          (Storage.confidence event) (timestamp event) (Storage.riskLevel event)
          (questionsAsked event) (reflectionTime message) (outcome message) (source event).

Definition orphanEntry (env : Api.Env) (message : PurchaseOutcomeMessage) : HistoryEntry :=
  {| id := Some (eventId message);
     Storage.eventId := Some (eventId message);
     Storage.product := None;
     Storage.site := None;
     Storage.confidence := None;
     timestamp := Api.dateNow env;
     Storage.riskLevel := None;
     questionsAsked := [];
     Storage.reflectionTime := reflectionTime message;
     Storage.outcome := outcome message;
     source := None |}.

(** [event.product?.price || 0] *)
Definition priceOf (event : HistoryEntry) : Q :=
  match Storage.product event with
  | Some p => Detector.price p
  | None => 0%Q
  end.

Definition creditsSavings (o : Outcome) : bool :=
  match o with saved | cooled_off => true | _ => false end.

(** [handlePurchaseOutcome]: the new store and the [savedAmount] of the
    answer. *)
Definition handlePurchaseOutcome (env : Api.Env) (st : Store)
    (message : PurchaseOutcomeMessage) : Store * Q :=
  let purchaseHistory := purchaseHistory st in
  let eventIndex := findIndex (sameEvent (eventId message)) purchaseHistory in
  let '(purchaseHistory, savedAmount) :=
    match eventIndex ≫= fun i => (fun event => (i, event)) <$> purchaseHistory !! i with
    | Some (i, event) => (<[i := resolve message event]> purchaseHistory, priceOf event)
    | None => (purchaseHistory ++ [orphanEntry env message], 0%Q)
    end in
  let stats :=
    if creditsSavings (outcome message) then
      mkStats (savedToday (stats st) + savedAmount) (savedTotal (stats st) + savedAmount)
              (streak (stats st))
    else stats st in
  (set_purchaseHistory purchaseHistory (set_stats stats st), savedAmount).

End Background.

(** ** The service worker: saving for later, the reminder alarm, the
    message listener *)

Module Worker.
Import JS Storage.

(** [s.replace(pattern, empty)] with a string pattern: the first
    occurrence only is removed. *)
Fixpoint removeOccurrence (pattern s : jsstring) : jsstring :=
  if startsWith pattern s then drop (length pattern) s
  else match s with
       | [] => []
       | x :: s' => x :: removeOccurrence pattern s'
       end.

(** The product of a [SAVE_FOR_LATER] message. *)
Record SavedProduct := mkSaved {
  sp_name : jsstring;
  sp_price : Q;
  sp_url : jsstring;
  sp_image : option jsstring
}.

Inductive Status : Type :=
| status_pending | status_purchased | status_expired | status_deleted.

Record CoolingOffItem := mkItem {
  item_id : jsstring;
  item_product : SavedProduct;
  savedAt : Z;
  expiresAt : Z;
  status : Status
}.

Record Notification := mkNotification {
  n_title : jsstring;
  n_message : jsstring;
  n_buttons : list jsstring
}.

(** What the worker reads and writes besides the store: the key
    [coolingOffList] of [chrome.storage.local], the alarms by name with the
    instant they fire, and the notifications created, oldest first. *)
Record Browser := mkBrowser {
  coolingOffList : list CoolingOffItem;
  alarms : gmap jsstring Z;
  notifications : list Notification
}.

(** The three readings of the clock in [handleSaveForLater], in the order
    of the source: [new Date()], [Date.now()] of [expiresAt], and
    [Date.now()] of the alarm, after the write to the storage. *)
Record Readings := mkReadings { atSave : Z; atExpiry : Z; atAlarm : Z }.

Definition COOLING_OFF_MS : Z := 48 * 60 * 60 * 1000.
Definition ALARM_PREFIX : jsstring := str "cooling-off-".

Definition alarmName (id : jsstring) : jsstring := ALARM_PREFIX ++ id.

(** [handleSaveForLater]: the browser afterwards and the [item] of the
    answer.  An alarm created under a name in use replaces the old one. *)
Definition handleSaveForLater (env : Api.Env) (clock : Readings) (b : Browser)
    (product : SavedProduct) : Browser * CoolingOffItem :=
  let newItem :=
    {| item_id := Api.randomUUID env;
       item_product := product;
       savedAt := atSave clock;
       expiresAt := atExpiry clock + COOLING_OFF_MS;
       status := status_pending |} in
  let coolingOffList := coolingOffList b ++ [newItem] in
  (mkBrowser coolingOffList
             (<[alarmName (item_id newItem) := atAlarm clock + COOLING_OFF_MS]> (alarms b))
             (notifications b),
   newItem).

Definition reminder (item : CoolingOffItem) : Notification :=
  {| n_title := str "Still want this?";
     n_message := str "Your 48-hour cooling off period for " ++ [34%N]
                  ++ sp_name (item_product item) ++ [34%N] ++ str " has ended.";
     n_buttons := [str "View Item"; str "Remove"] |}.

(** The listener of [chrome.alarms.onAlarm], on the name of the alarm. *)
Definition onAlarm (st : Store) (b : Browser) (name : jsstring) : Browser :=
  if startsWith ALARM_PREFIX name then
    let itemId := removeOccurrence ALARM_PREFIX name in
    let item := find (fun i => bool_decide (item_id i = itemId)) (coolingOffList b) in
    match item, Storage.notifications <$> settings st with
    | Some item, Some true =>
        mkBrowser (coolingOffList b) (alarms b) (notifications b ++ [reminder item])
    | _, _ => b
    end
  else b.

(** The messages that [handleMessage] tells apart, and its answers. *)
Inductive Request : Type :=
| PurchaseDetected (m : Background.PurchaseDetectedMessage)
| SaveForLater (product : SavedProduct)
| PurchaseOutcome (m : Background.PurchaseOutcomeMessage)
| GetStats
| Unknown.

Inductive Response : Type :=
| Decided (d : Background.Decision)
| Saved (item : CoolingOffItem)
| Resolved (savedAmount : Q)
| StatsAre (s : Stats)
| UnknownMessageType.

Definition World : Type := Store * Browser.

Definition handleMessage (env : Api.Env) (clock : Readings) (w : World)
    (message : Request) : World * Response :=
  let '(st, b) := w in
  match message with
  | PurchaseDetected m =>
      let '(st, d) := Background.handlePurchaseDetected env st m in ((st, b), Decided d)
  | SaveForLater product =>
      let '(b, item) := handleSaveForLater env clock b product in ((st, b), Saved item)
  | PurchaseOutcome m =>
      let '(st, amount) := Background.handlePurchaseOutcome env st m in
      ((st, b), Resolved amount)
  | GetStats => (w, StatsAre (stats st))
  | Unknown => (w, UnknownMessageType)
  end.

(** The [SHOW_OVERLAY] message. [product] is [message.product], which
    only some requests have. *)
Record Overlay := mkOverlay {
  ov_eventId : jsstring;
  ov_product : option Detector.ProductInfo;
  ov_questions : list jsstring;
  ov_goalImpact : option Api.GoalImpact;
  ov_riskLevel : RiskLevel
}.

Definition productOf (message : Request) : option Detector.ProductInfo :=
  match message with
  | PurchaseDetected m => Some (Background.product m)
  | _ => None
  end.

(** The listener of [chrome.runtime.onMessage].  [tab] is [sender.tab?.id];
    the overlay message goes out before the answer does.  The result: the
    world afterwards, the overlay messages with the tab they go to, and the
    answer passed to [sendResponse]. *)
Definition listener (env : Api.Env) (clock : Readings) (w : World)
    (message : Request) (tab : option Z) : World * list (Z * Overlay) * Response :=
  let '(w, response) := handleMessage env clock w message in
  let overlays :=
    match response, tab with
    | Decided (Background.Blocked eventId questions goalImpact riskLevel _), Some id =>
        if id =? 0 then []
        else [(id, mkOverlay eventId (productOf message) questions goalImpact riskLevel)]
    | _, _ => []
    end in
  (w, overlays, response).

End Worker.

(** ** The client proxy module: the rate limit status *)

Module RateStatus.
Import JS Storage.

(** [isRateLimited]: the store afterwards and the answer. *)
Definition isRateLimited (env : Api.Env) (st : Store) : Store * bool :=
  match rateLimitInfo st with
  | None => (st, false)
  | Some info =>
      if negb (exceeded info) then (st, false)
      else if rl_resetAt info <? Api.dateNow env then
        (set_rateLimitInfo
           (mkRateLimitState false (rl_remaining info) (rl_resetAt info)) st,
         false)
      else (st, true)
  end.

(** [getRateLimitStatus]; a missing or zero [remaining] reads 0, a zero
    [resetAt] reads as now. *)
Definition getRateLimitStatus (env : Api.Env) (st : Store) : option Api.RateLimitInfo :=
  match rateLimitInfo st with
  | None => None
  | Some info =>
      Some {| Api.limit := 100;
              Api.remaining := default 0 (rl_remaining info);
              Api.resetAt := if rl_resetAt info =? 0 then Api.dateNow env
                             else rl_resetAt info |}
  end.

End RateStatus.


(** ** The rate limiter of the server *)

Module RateLimiter.
Import JS.

Definition DAILY_LIMIT : Z := 100.
Definition WINDOW_MS : Z := 24 * 60 * 60 * 1000.

Record RateLimitResult := mkResult {
  allowed : bool;
  remaining : Z;
  resetAt : Z;
  limit : Z
}.

Definition getRateLimitKey (clientId : jsstring) : jsstring :=
  str "ratelimit:" ++ clientId.

(** *** The key-value store

    A sorted set holds each member once, with its score; the key may carry
    the instant at which it expires.  The clock of the store is the clock of
    the server.  A sorted set without members does not exist. *)
Record SortedSet := mkSortedSet {
  members : list (jsstring * Z);
  expiry : option Z
}.

Abbreviation Kv := (gmap jsstring SortedSet).

(** The sorted set under [key] as a command sees it at [now]. *)
Definition live (now : Z) (kv : Kv) (key : jsstring) : option SortedSet :=
  match kv !! key with
  | Some s =>
      match expiry s with
      | Some instant => if instant <=? now then None else Some s
      | None => Some s
      end
  | None => None
  end.

Definition put (key : jsstring) (s : SortedSet) (kv : Kv) : Kv :=
  match members s with
  | [] => delete key kv
  | _ :: _ => <[key := s]> kv
  end.

Definition zremrangebyscore (now : Z) (key : jsstring) (min max : Z) (kv : Kv)
  : unit * Kv :=
  match live now kv key with
  | Some s =>
      (tt, put key (mkSortedSet (filter (λ p, ¬ (min <= p.2 <= max)) (members s))
                                (expiry s)) kv)
  | None => (tt, delete key kv)
  end.

Definition zcard (now : Z) (key : jsstring) (kv : Kv) : Z * Kv :=
  (match live now kv key with
   | Some s => Z.of_nat (length (members s))
   | None => 0
   end, kv).

Definition minScore (l : list (jsstring * Z)) : option Z :=
  match l with
  | [] => None
  | p :: l' => Some (fold_left Z.min (map snd l') p.2)
  end.

(** [zrange(key, 0, 0, { withScores: true })], of which the caller reads
    the score: the least score of the set, if there is a member. *)
Definition zrangeFirst (now : Z) (key : jsstring) (kv : Kv) : option Z * Kv :=
  (live now kv key ≫= λ s, minScore (members s), kv).

Definition zadd (now : Z) (key : jsstring) (score : Z) (member : jsstring) (kv : Kv)
  : unit * Kv :=
  (tt,
   match live now kv key with
   | Some s =>
       <[key := mkSortedSet (filter (λ p, p.1 ≠ member) (members s) ++ [(member, score)])
                            (expiry s)]> kv
   | None => <[key := mkSortedSet [(member, score)] None]> kv
   end).

Definition expire (now : Z) (key : jsstring) (seconds : Z) (kv : Kv) : unit * Kv :=
  (tt,
   match live now kv key with
   | Some s => <[key := mkSortedSet (members s) (Some (now + seconds * 1000))]> kv
   | None => kv
   end).

(** *** Commands that may throw

    The connection: the store, and when the store is about to become
    unavailable the number of commands that still succeed. *)
Record Conn := mkConn { store : Kv; outage : option nat }.

(** A computation over the connection; [None] is a thrown error. *)
Definition Cmd (A : Type) : Type := Conn → option A * Conn.

Definition ret {A} (a : A) : Cmd A := λ c, (Some a, c).

Definition bind {A B} (m : Cmd A) (f : A → Cmd B) : Cmd B :=
  λ c, match m c with
       | (Some a, c') => f a c'
       | (None, c') => (None, c')
       end.

Notation "'let*' x ':=' m 'in' k" := (bind m (λ x, k))
  (at level 10, x name, m at level 100, k at level 200).

Definition command {A} (f : Kv → A * Kv) : Cmd A :=
  λ c, match outage c with
       | Some O => (None, c)
       | Some (S n) => (Some (f (store c)).1, mkConn (f (store c)).2 (Some n))
       | None => (Some (f (store c)).1, mkConn (f (store c)).2 None)
       end.

(** [try { body } catch { return fallback }] *)
Definition attempt {A} (body : Cmd A) (fallback : A) (c : Conn) : A * Conn :=
  match body c with
  | (Some a, c') => (a, c')
  | (None, c') => (fallback, c')
  end.

(** *** The limiter *)

Definition failOpen (now : Z) : RateLimitResult :=
  mkResult true DAILY_LIMIT (now + WINDOW_MS) DAILY_LIMIT.

(** [oldest.length >= 2 ? Math.ceil(oldest[1] + WINDOW_MS) : now + WINDOW_MS] *)
Definition resetOf (now : Z) (oldest : option Z) : Z :=
  match oldest with
  | Some score => score + WINDOW_MS
  | None => now + WINDOW_MS
  end.

Definition requestId (now : Z) (suffix : jsstring) : jsstring :=
  Api.numberToString now ++ str "-" ++ suffix.

(** [checkRateLimit] at the instant [now]; [suffix] is what
    [Math.random().toString(36).slice(2, 8)] gives. *)
Definition checkRateLimit (now : Z) (suffix : jsstring) (clientId : jsstring)
    (c : Conn) : RateLimitResult * Conn :=
  let key := getRateLimitKey clientId in
  let windowStart := now - WINDOW_MS in
  attempt
    (let* _ := command (zremrangebyscore now key 0 windowStart) in
     let* count := command (zcard now key) in
     if DAILY_LIMIT <=? count then
       let* oldest := command (zrangeFirst now key) in
       ret (mkResult false 0 (resetOf now oldest) DAILY_LIMIT)
     else
       let* _ := command (zadd now key now (requestId now suffix)) in
       let* _ := command (expire now key (WINDOW_MS / 1000 + 60)) in
       let newCount := count + 1 in
       let* oldestAfterAdd := command (zrangeFirst now key) in
       ret (mkResult true (DAILY_LIMIT - newCount) (resetOf now oldestAfterAdd)
                     DAILY_LIMIT))
    (failOpen now) c.

Definition getRateLimitStatus (now : Z) (clientId : jsstring) (c : Conn)
  : RateLimitResult * Conn :=
  let key := getRateLimitKey clientId in
  let windowStart := now - WINDOW_MS in
  attempt
    (let* _ := command (zremrangebyscore now key 0 windowStart) in
     let* count := command (zcard now key) in
     let* oldest := command (zrangeFirst now key) in
     ret (mkResult (count <? DAILY_LIMIT) (Z.max 0 (DAILY_LIMIT - count))
                   (resetOf now oldest) DAILY_LIMIT))
    (failOpen now) c.

(** [getClientId]: the extension identifier when it is there and not empty,
    else the address when it is there and not empty. *)
Definition getClientId (extensionId ip : option jsstring) : jsstring :=
  match extensionId with
  | Some (x :: e) => str "ext:" ++ x :: e
  | _ =>
      match ip with
      | Some (x :: i) => str "ip:" ++ x :: i
      | _ => str "anonymous"
      end
  end.

End RateLimiter.


(** ** The language model client of the server: retries *)

Module Llm.
Import JS.

Record LLMResponse := mkLLMResponse { questions : list jsstring }.

(** What one call of [generateReflectionQuestions] does: it resolves, or
    it throws an [Error] with a message. *)
Inductive Outcome : Type :=
| Resolves (response : LLMResponse)
| Throws (message : jsstring).

(** The errors after which [generateWithRetry] does not try again. *)
Definition noRetry (message : jsstring) : bool :=
  includes message (str "Invalid API key") || includes message (str "rate limit").

(** The loop of [generateWithRetry] from [attempt] on, with the iterations
    that are left; [generate] gives the outcome of each call by its
    number.  The result comes with the number of calls made. *)
Fixpoint retryLoop (generate : nat → Outcome) (attempt iterations : nat)
    (lastError : option jsstring) : Outcome * nat :=
  match iterations with
  | O => (Throws (default (str "All retry attempts failed") lastError), attempt)
  | S iterations' =>
      match generate attempt with
      | Resolves response => (Resolves response, S attempt)
      | Throws message =>
          if noRetry message then (Throws message, S attempt)
          else retryLoop generate (S attempt) iterations' (Some message)
      end
  end.

(** [generateWithRetry(request, maxRetries)]: attempts 0 to [maxRetries]. *)
Definition generateWithRetry (generate : nat → Outcome) (maxRetries : Z)
  : Outcome * nat :=
  retryLoop generate 0 (Z.to_nat (maxRetries + 1)) None.

(** *** Reading the answer of the model *)

(** [s.split] at a one-character separator. *)
Fixpoint split (sep : N) (s : jsstring) : list jsstring :=
  match s with
  | [] => [[]]
  | c :: s' =>
      if (c =? sep)%N then [] :: split sep s'
      else match split sep s' with
           | line :: lines => (c :: line) :: lines
           | [] => [[c]]
           end
  end.

(** [s.endsWith] with a one-character string. *)
Definition endsWith (c : N) (s : jsstring) : bool :=
  match last s with
  | Some x => (x =? c)%N
  | None => false
  end.

(** The match of [/\{[\s\S]*\}/]: from the first opening brace to the
    last closing brace after it. *)
Definition jsonMatch (content : jsstring) : option jsstring :=
  match dropWhile (λ c, negb (c =? 123)%N) content with
  | [] => None
  | brace :: rest =>
      match dropWhile (λ c, negb (c =? 125)%N) (rev rest) with
      | [] => None
      | closing => Some (brace :: rev closing)
      end
  end.

(** [l.replace(/^[\d\.\-\*]\s*/, empty)]: a leading digit, dot, hyphen
    or star goes, with the white space after it. *)
Definition isBullet (c : N) : bool :=
  isDigit c || (c =? 46)%N || (c =? 45)%N || (c =? 42)%N.

Definition stripBullet (line : jsstring) : jsstring :=
  match line with
  | c :: rest => if isBullet c then dropWhile isSpace rest else line
  | [] => []
  end.

(** The [try] block of [parseResponse].  [questionsIn] stands for
    [JSON.parse]: on a text that parses to an object whose [questions] is an
    array it gives the elements of the array, a string or something else
    ([None]); on any other text it gives nothing.  An element that is not a
    string among the first three makes [trim] throw, which the [catch]
    swallows like a failure to parse. *)
Definition fromJson (questionsIn : jsstring → option (list (option jsstring)))
    (content : jsstring) : option (list jsstring) :=
  match jsonMatch content ≫= questionsIn with
  | Some (q :: qs) => mapM (fmap trim) (take 3 (q :: qs))
  | _ => None
  end.

Definition fromText (content : jsstring) : list jsstring :=
  take 3 (filter (λ line, endsWith 63 (trim line) = true) (split 10 content)).

Definition parseResponse (questionsIn : jsstring → option (list (option jsstring)))
    (content : jsstring) : Outcome :=
  match fromJson questionsIn content with
  | Some questions => Resolves (mkLLMResponse questions)
  | None =>
      match fromText content with
      | [] => Throws (str "Could not parse LLM response")
      | lines => Resolves (mkLLMResponse (map (λ l, trim (stripBullet l)) lines))
      end
  end.

End Llm.


(** ** The goal impact calculator *)

Module GoalImpactCalc.
Import JS.

(** ["high" | "medium" | "low"], for priorities and severities. *)
Inductive Level : Type := high | medium | low.

(** A financial goal; [deadline] is the instant that [new Date(deadline)]
    denotes. *)
Record Goal := mkGoal {
  id : jsstring;
  name : jsstring;
  targetAmount : Q;
  currentAmount : Q;
  deadline : Z;
  priority : Level
}.

(** The five messages; their wording goes through [toFixed] and
    [toLocaleDateString], which belong to the locale. *)
Inductive Message : Type :=
| CouldHaveContributed (purchasePrice : Q) (goalName : jsstring)
| PushesDeadline (goalName : jsstring) (deadline : Z)
| DelaysAbout (goalName : jsstring) (delayDays : Z)
| Delays (goalName : jsstring) (delayDays : Z)
| MinimalImpact (goalName : jsstring).

(** [currentProgress] and [newProgress] are [None] when the division by
    the target gives no finite number. *)
Record GoalImpactResult := mkResult {
  goalId : jsstring;
  goalName : jsstring;
  delayDays : Z;
  newProgress : option Z;
  currentProgress : option Z;
  message : Message;
  severity : Level
}.

Definition msPerDay : Z := 24 * 60 * 60 * 1000.

(** [Math.ceil] of a quotient of integers. *)
Definition ceilDiv (a b : Z) : Z := - ((- a) / b).

Definition getDaysRemaining (now : Z) (deadline : Z) : Z :=
  ceilDiv (deadline - now) msPerDay.

Definition Qle0 (q : Q) : bool := Qle_bool q 0.

Definition estimateDailySavingsRate (now : Z) (goal : Goal) : Q :=
  let remaining := (targetAmount goal - currentAmount goal)%Q in
  let daysLeft := getDaysRemaining now (deadline goal) in
  if (daysLeft <=? 0) || Qle0 remaining then 50%Q
  else (remaining / inject_Z daysLeft)%Q.

(** [Math.round]: the nearest integer, halves upwards. *)
Definition round (q : Q) : Z := Qfloor (q + (1 # 2))%Q.

Definition progress (amount target : Q) : option Z :=
  if Qeq_bool target 0 then None else Some (round (amount / target * 100)%Q).

Definition calculateSingleGoalImpact (now : Z) (goal : Goal) (purchasePrice : Q)
  : GoalImpactResult :=
  let currentProgress := progress (currentAmount goal) (targetAmount goal) in
  let dailyRate := estimateDailySavingsRate now goal in
  let daysRemaining := getDaysRemaining now (deadline goal) in
  let delayDays :=
    if Api.Qgt_bool dailyRate 0 then Qceiling (purchasePrice / dailyRate)%Q else 0 in
  let newCurrentAmount := currentAmount goal in
  let newProgress := progress newCurrentAmount (targetAmount goal) in
  let severity :=
    if daysRemaining <=? 0 then low
    else if Api.Qgt_bool (inject_Z delayDays) (inject_Z daysRemaining * (1 # 2))%Q then high
    else if Api.Qgt_bool (inject_Z delayDays) (inject_Z daysRemaining * (1 # 5))%Q then medium
    else low in
  let message :=
    if daysRemaining <=? 0 then CouldHaveContributed purchasePrice (name goal)
    else if daysRemaining <=? delayDays then PushesDeadline (name goal) (deadline goal)
    else if 7 <? delayDays then DelaysAbout (name goal) delayDays
    else if 1 <? delayDays then Delays (name goal) delayDays
    else MinimalImpact (name goal) in
  {| goalId := id goal;
     goalName := name goal;
     delayDays := delayDays;
     currentProgress := currentProgress;
     newProgress := newProgress;
     message := message;
     severity := severity |}.

(** [PRIORITY_WEIGHTS], which is also [severityOrder]. *)
Definition weight (l : Level) : Z :=
  match l with high => 3 | medium => 2 | low => 1 end.

(** [g.currentAmount < g.targetAmount] *)
Definition active (g : Goal) : bool := negb (Qle_bool (targetAmount g) (currentAmount g)).

(** The comparator of the sort.  Both impacts come from active goals, so
    the two searches find their goal; the last line stands for the
    [TypeError] of a search that does not. *)
Definition compareImpacts (now : Z) (activeGoals : list Goal) (a b : GoalImpactResult) : Z :=
  let severityDiff := weight (severity b) - weight (severity a) in
  if negb (severityDiff =? 0) then severityDiff
  else
    match find (λ g, bool_decide (id g = goalId a)) activeGoals,
          find (λ g, bool_decide (id g = goalId b)) activeGoals with
    | Some goalA, Some goalB =>
        let priorityDiff := weight (priority goalB) - weight (priority goalA) in
        if negb (priorityDiff =? 0) then priorityDiff
        else getDaysRemaining now (deadline goalA) - getDaysRemaining now (deadline goalB)
    | _, _ => 0
    end.

(** [sort] with a comparator: the sort is stable, here by insertion. *)
Fixpoint insertBy {A} (cmp : A → A → Z) (x : A) (sorted : list A) : list A :=
  match sorted with
  | [] => [x]
  | y :: sorted' => if cmp x y <=? 0 then x :: sorted else y :: insertBy cmp x sorted'
  end.

Definition sortBy {A} (cmp : A → A → Z) (l : list A) : list A :=
  foldr (insertBy cmp) [] l.

Definition calculateGoalImpact (now : Z) (goals : list Goal) (purchasePrice : Q)
  : option GoalImpactResult :=
  let activeGoals := filter (λ g, active g = true) goals in
  let impacts := map (λ goal, calculateSingleGoalImpact now goal purchasePrice) activeGoals in
  head (sortBy (compareImpacts now activeGoals) impacts).


End GoalImpactCalc.


(** ** The development server: its goal impact *)

Module DevServer.
Import JS.

(** [calculateGoalImpact] of the server: one day of delay for every 50 of
    the price, begun or complete. *)
Definition calculateGoalImpact (request : Server.ReflectionRequest)
  : option Api.GoalImpact :=
  match Server.goalName request with
  | Some (x :: g) =>
      let goalName := x :: g in
      let delayDays := Qceiling (Server.product_price request / 50)%Q in
      Some {| Api.gi_goalName := goalName;
              Api.delayDays := delayDays;
              Api.message :=
                str "This purchase delays your " ++ [34%N] ++ goalName ++ [34%N]
                ++ str " goal by " ++ Api.numberToString delayDays ++ str " day"
                ++ (if 1 <? delayDays then str "s" else []) ++ str "." |}
  | _ => None
  end.

End DevServer.


(** ** The overlay content script: what its buttons send *)

Module OverlayScript.
Import JS Storage.

Record OverlayData := mkData {
  eventId : jsstring;
  product : Detector.ProductInfo;
  questions : list jsstring;
  goalImpact : option Api.GoalImpact;
  riskLevel : RiskLevel
}.

(** The state of the component. *)
Record State := mkState {
  visible : bool;
  data : option OverlayData;
  currentQuestion : nat;
  answeredQuestions : gset nat;
  reflectionStartTime : Z
}.

Definition initial : State := mkState false None 0 ∅ 0.

(** The messages that the component listens to.  [SHOW_OVERLAY] comes with
    the product and the questions, as the script asserts. *)
Inductive Incoming : Type :=
| SHOW_OVERLAY (eventId : option jsstring) (product : Detector.ProductInfo)
               (questions : list jsstring) (goalImpact : option Api.GoalImpact)
               (riskLevel : option RiskLevel)
| HIDE_OVERLAY
| OtherMessage.

Definition handleMessage (now : Z) (message : Incoming) (s : State) : State :=
  match message with
  | SHOW_OVERLAY (Some (x :: e)) product questions goalImpact riskLevel =>
      {| visible := true;
         data := Some {| eventId := x :: e; product := product; questions := questions;
                         goalImpact := goalImpact;
                         riskLevel := default medium riskLevel |};
         currentQuestion := 0;
         answeredQuestions := ∅;
         reflectionStartTime := now |}
  | SHOW_OVERLAY _ _ _ _ _ => s
  | HIDE_OVERLAY =>
      mkState false None (currentQuestion s) (answeredQuestions s) (reflectionStartTime s)
  | OtherMessage => s
  end.

(** What the component sends with [chrome.runtime.sendMessage]. *)
Inductive Outgoing : Type :=
| SAVE_FOR_LATER (product : Detector.ProductInfo)
| PURCHASE_OUTCOME (eventId : jsstring) (outcome : Outcome) (reflectionTime : Z)
| RESET_DETECTION
| PROCEED_WITH_PURCHASE.

Definition hide (s : State) : State :=
  mkState false None (currentQuestion s) (answeredQuestions s) (reflectionStartTime s).

(** [Math.floor((Date.now() - reflectionStartTime) / 1000)] *)
Definition reflectionTime (now : Z) (s : State) : Z := (now - reflectionStartTime s) / 1000.

Definition handleAnswerQuestion (s : State) : State :=
  let answered := {[currentQuestion s]} ∪ answeredQuestions s in
  let count := match data s with Some d => length (questions d) | None => 0%nat end in
  mkState (visible s) (data s)
          (if decide (currentQuestion s < count - 1)%nat
           then S (currentQuestion s) else currentQuestion s)
          answered (reflectionStartTime s).

(** Each handler: the messages it sends, in order, and the state after. *)
Definition handleSaveForLater (now : Z) (s : State) : list Outgoing * State :=
  match data s with
  | None => ([], s)
  | Some d =>
      ([SAVE_FOR_LATER (product d);
        PURCHASE_OUTCOME (eventId d) saved (reflectionTime now s);
        RESET_DETECTION],
       hide s)
  end.

Definition handleProceed (now : Z) (s : State) : list Outgoing * State :=
  match data s with
  | None => ([], s)
  | Some d =>
      ([PURCHASE_OUTCOME (eventId d) bought (reflectionTime now s);
        PROCEED_WITH_PURCHASE],
       hide s)
  end.

Definition handleDismiss (s : State) : list Outgoing * State :=
  ([RESET_DETECTION], hide s).

End OverlayScript.


(** ** Concrete pages and stores *)

Module Examples.
Import JS Dom Detector.

Definition element (node : nat) (text : string) : Element :=
  {| el_id := node; textContent := Some (str text); value := None;
     attrs := ∅; src := None |}.

(** An empty text input. *)
Definition input (node : nat) : Element :=
  {| el_id := node; textContent := Some []; value := Some [];
     attrs := ∅; src := None |}.

Definition visible : Rect := mkRect 100 20 120 40.
Definition collapsed : Rect := mkRect 0 0 0 40.

(** A checkout page: checkout URL, a "Place your order" button, a total,
    a card number input and an order summary. *)
Definition checkoutPage : Page :=
  {| href := str "https://www.amazon.com/gp/buy/checkout";
     hostname := str "www.amazon.com";
     title := str "Checkout - Amazon.com";
     scrollX := 0; scrollY := 300;
     querySelectorAll := fun selector =>
       if String.eqb selector SCORE_BUTTONS then [element 1 " Place your order "]
       else if String.eqb selector FIND_BUTTONS then [element 1 " Place your order "]
       else if String.eqb selector PRICE_ELEMENTS then [element 2 "Order total: $1,299.99"]
       else if String.eqb selector CARD_INPUTS then [input 3]
       else if String.eqb selector ORDER_SUMMARY then [element 4 "Summary"]
       else if String.eqb selector ".sc-product-title" then [element 5 "  Espresso machine  "]
       else if String.eqb selector ".a-price-whole" then [element 2 "Order total: $1,299.99"]
       else [];
     boundingRect := fun _ => visible |}.

(** A page without any of the signals. *)
Definition plainPage : Page :=
  {| href := str "https://www.amazon.com/help";
     hostname := str "www.amazon.com";
     title := str "Help";
     scrollX := 0; scrollY := 0;
     querySelectorAll := fun _ => [];
     boundingRect := fun _ => visible |}.

(** A cart page without a purchase button: URL 30 and DOM 30. *)
Definition cartPage : Page :=
  {| href := str "https://www.amazon.com/cart/view";
     hostname := str "www.amazon.com";
     title := str "Cart";
     scrollX := 0; scrollY := 0;
     querySelectorAll := fun selector =>
       if String.eqb selector PRICE_ELEMENTS then [element 2 "$20"]
       else if String.eqb selector CARD_INPUTS then [input 3]
       else if String.eqb selector ORDER_SUMMARY then [element 4 "Summary"]
       else [];
     boundingRect := fun _ => visible |}.

(** A cart page with URL 30, a price and a card input: 55 in all. *)
Definition thinCartPage : Page :=
  {| href := str "https://www.amazon.com/cart/view";
     hostname := str "www.amazon.com";
     title := str "Cart";
     scrollX := 0; scrollY := 0;
     querySelectorAll := fun selector =>
       if String.eqb selector PRICE_ELEMENTS then [element 2 "$20"]
       else if String.eqb selector CARD_INPUTS then [input 3]
       else [];
     boundingRect := fun _ => visible |}.

(** A product page with a visible "Buy now" button and an "Add to cart"
    button that has no width yet. *)
Definition shopPage : Page :=
  {| href := str "https://www.amazon.com/dp/B00";
     hostname := str "www.amazon.com";
     title := str "Espresso machine : Amazon.com";
     scrollX := 0; scrollY := 300;
     querySelectorAll := fun selector =>
       if String.eqb selector SCORE_BUTTONS then [element 1 "Buy now"; element 7 "Add to cart"]
       else if String.eqb selector FIND_BUTTONS then [element 1 "Buy now"; element 7 "Add to cart"]
       else [];
     boundingRect := fun node => if Nat.eqb node 7 then collapsed else visible |}.

(** The "Buy now" button of the product page and the "Place your order"
    button of the checkout page. *)
Definition buyNow : Element := element 1 "Buy now".



(** A store as installed, with quiet hours from 22 to 6 and one purchase
    on record. *)
Definition espresso : ProductInfo :=
  {| name := str "Espresso machine"; price := 250; category := str "general";
     url := str "https://www.amazon.com/dp/B00"; image := None |}.

Definition earlierEntry : Storage.HistoryEntry :=
  {| Storage.id := Some (str "e-1"); Storage.eventId := Some (str "e-1");
     Storage.product := Some espresso; Storage.site := Some (str "www.amazon.com");
     Storage.confidence := Some 100; Storage.timestamp := 1000;
     Storage.riskLevel := Some Storage.medium; Storage.questionsAsked := [];
     Storage.reflectionTime := 0; Storage.outcome := Storage.pending;
     Storage.source := Some Storage.fallback |}.

Definition installed : Storage.Store :=
  {| Storage.enabled := true;
     Storage.clientId := Some (str "c-1");
     Storage.settings :=
       Some {| Storage.frictionLevel := 3;
               Storage.enabledSites :=
                 [str "amazon.com"; str "ebay.com"; str "walmart.com"; str "target.com"];
               Storage.quietHours := Some (22, 6);
               Storage.notifications := true |};
     Storage.goals := [];
     Storage.purchaseHistory := [earlierEntry];
     Storage.stats := Storage.mkStats 0 0 0;
     Storage.rateLimitInfo := None |}.

(** Noon, and the proxy answers 503. *)
Definition noonOutage : Api.Env :=
  {| Api.dateNow := 5000; Api.hours := 12; Api.randomUUID := str "e-2";
     Api.fetch := Api.Responds 503 None None None (Api.NotJson None);
     Api.random := [true; false; true; true; false; false; true];
     Api.impactOf := fun _ _ => None |}.

Definition detected : Background.PurchaseDetectedMessage :=
  {| Background.product := espresso; Background.site := str "www.amazon.com";
     Background.confidence := 100 |}.

(** The same outage a little later, with the next identifier. *)
Definition laterOutage : Api.Env :=
  {| Api.dateNow := 7500; Api.hours := 12; Api.randomUUID := str "e-3";
     Api.fetch := Api.Responds 503 None None None (Api.NotJson None);
     Api.random := [false; true; true; false; true; false; false];
     Api.impactOf := fun _ _ => None |}.

(** The user saves the espresso machine for later, after 12 seconds. *)
Definition savedIt : Background.PurchaseOutcomeMessage :=
  {| Background.eventId := str "e-1"; Background.outcome := Storage.saved;
     Background.reflectionTime := 12 |}.

(** A 60 dollar purchase in the morning, none before it, by a user with
    friction level 4: as the extension sees it and as the server sees it. *)
Definition headphones : ProductInfo :=
  {| name := str "Headphones"; price := 60; category := str "general";
     url := str "https://www.amazon.com/dp/B01"; image := None |}.

Definition headphonesContext : Api.ReflectionContext :=
  {| Api.timeOfDay := Api.getTimeOfDay 10; Api.goalName := None;
     Api.recentPurchaseCount := 0; Api.frictionLevel := 4 |}.

Definition headphonesRequest : Server.ReflectionRequest :=
  {| Server.product_name := str "Headphones"; Server.product_price := 60;
     Server.product_category := str "general"; Server.localHour := 10;
     Server.goalName := None; Server.recentPurchaseCount := 0;
     Server.frictionLevel := 4 |}.


End Examples.

(** ** Concrete requests to the worker and the server *)

Module Scenarios.
Import JS Storage.

Definition emptyBrowser : Worker.Browser := Worker.mkBrowser [] ∅ [].

(** Three readings of the clock a few milliseconds apart. *)
Definition threeReadings : Worker.Readings := Worker.mkReadings 5000 5000 5003.

Definition savedEspresso : Worker.SavedProduct :=
  {| Worker.sp_name := str "Espresso machine"; Worker.sp_price := 250;
     Worker.sp_url := str "https://www.amazon.com/dp/B00"; Worker.sp_image := None |}.



(** The model times out once and then answers. *)
Definition timeoutOnce (call : nat) : Llm.Outcome :=
  match call with
  | O => Llm.Throws (str "OpenAI API timeout")
  | S _ => Llm.Resolves (Llm.mkLLMResponse [str "Do you need this right now?"])
  end.



(** A product page whose main image has no source yet, and whose second
    image slot holds two pictures. *)
Definition picture (node : nat) (source : jsstring) : Dom.Element :=
  {| Dom.el_id := node; Dom.textContent := Some []; Dom.value := None;
     Dom.attrs := ∅; Dom.src := Some source |}.

Definition galleryPage : Dom.Page :=
  {| Dom.href := str "https://www.amazon.com/dp/B00";
     Dom.hostname := str "www.amazon.com";
     Dom.title := str "Espresso machine";
     Dom.scrollX := 0; Dom.scrollY := 0;
     Dom.querySelectorAll := fun selector =>
       if String.eqb selector "#landingImage" then [picture 1 []]
       else if String.eqb selector "#icImg"
         then [picture 2 (str "https://img.example/front.jpg");
               picture 3 (str "https://img.example/side.jpg")]
       else if String.eqb selector ".product-image img"
         then [picture 4 (str "https://img.example/thumb.jpg")]
       else [];
     Dom.boundingRect := fun _ => Examples.visible |}.

End Scenarios.


(** * The notions of the statements *)

Import JS Regex Dom.

Section DetectorNotions.
Import Detector.

(** The message of an automatic detection. *)
Definition autoMessage (t : Tab) : Message :=
  PURCHASE_DETECTED (extractProductInfo (page t)) (hostname (page t))
                    (totalScore (page t)).

(** The shield that [updateShieldPosition] writes over [shield] for the
    button [k]. *)
Definition placedShield (p : Page) (k : nat) (shield : Shield) : Shield :=
  let rect := boundingRect p k in
  if zeroArea rect then
    mkShield (sh_node shield) true (sh_top shield) (sh_left shield)
             (sh_width shield) (sh_height shield)
  else
    mkShield (sh_node shield) false (top rect + scrollY p) (left rect + scrollX p)
             (width rect) (height rect).


(** The visible ones among the purchase buttons of the page. *)
Definition visibleButtons (p : Page) : list Element :=
  filter (λ b, zeroArea (boundingRect p (el_id b)) = false) (findPurchaseButtons p).


(** The message of a shield click. *)
Definition clickMessage (t : Tab) : Message :=
  PURCHASE_DETECTED (extractProductInfo (page t)) (hostname (page t)) 100.


(** The time that passes during a sequence of events. *)
Definition elapsed (events : list Event) : Z :=
  fold_right (λ e acc, match e with Elapses ms => Z.of_N ms + acc | _ => acc end)
             0 events.


(** The coordinator receives a detection of the tab. *)
Definition receive (env : Api.Env) (m : Message) (st : Storage.Store) : Storage.Store :=
  match m with
  | PURCHASE_DETECTED product site confidence =>
      fst (Background.handlePurchaseDetected env st
             (Background.mkDetected product site confidence))
  end.




(** The shield divs of the document are those of the registry: every div
    under the body belongs to one shielded button, no two buttons share a
    div, and there are as many divs as shielded buttons. *)
Definition shieldsInOrder (t : Tab) : Prop :=
  (∀ n, n ∈ attached t ↔
        ∃ k shield, shieldedButtons t !! k = Some shield ∧ sh_node shield = n)
  ∧ (∀ k1 k2 s1 s2,
       shieldedButtons t !! k1 = Some s1 → shieldedButtons t !! k2 = Some s2 →
       sh_node s1 = sh_node s2 → k1 = k2)
  ∧ (∀ n, n ∈ attached t → (n < nextNode t)%nat)
  ∧ size (attached t) = size (shieldedButtons t).

(** Events that leave the document and the session as they are: the
    observers, clicks on shields and the passing of time. *)
Definition onSamePage (e : Event) : Prop :=
  match e with
  | Mutation | Poll | Resize | ShieldClick _ | Elapses _ => True
  | _ => False
  end.

(** An event other than a click on a shield. *)
Definition noShieldClick (e : Event) : Prop :=
  match e with ShieldClick _ => False | _ => True end.

(** What every detection message of the script satisfies. *)
Definition wellFormed (m : Message) : Prop :=
  match m with
  | PURCHASE_DETECTED product site confidence =>
      60 <= confidence <= 100
      ∧ (1 <= length (name product) <= 200)%nat
      ∧ (0 <= price product)%Q
      ∧ category product = str "general"
  end.

(** The detection as the coordinator receives it. *)
Definition toDetected (m : Message) : Background.PurchaseDetectedMessage :=
  match m with
  | PURCHASE_DETECTED product site confidence =>
      Background.mkDetected product site confidence
  end.

(** Two states of a tab that differ at most in the shields: the registry,
    the divs and the identity counter. *)
Definition apartFromShields (t t' : Tab) : Prop :=
  handledUrl t' = handledUrl t ∧ overlayActive t' = overlayActive t
  ∧ pendingButton t' = pendingButton t
  ∧ lastAutoDetection t' = lastAutoDetection t ∧ lastUrl t' = lastUrl t
  ∧ page t' = page t ∧ now t' = now t ∧ proceedUntil t' = proceedUntil t
  ∧ sent t' = sent t ∧ clicked t' = clicked t.


End DetectorNotions.

Section ClientNotions.
Import Storage Api.

(** The remote call failed: the fetch was rejected, or the status is 429
    or any other status outside 200 to 299. *)
Definition failed (f : FetchOutcome) : Prop :=
  match f with
  | Rejects _ => True
  | Responds status _ _ _ _ => status = 429 ∨ ¬ (200 <= status <= 299)
  end.

Definition isFallback (response : ReflectionResponse) : Prop :=
  ∃ m reason, meta response = Some m ∧ meta_source m = fallback ∧ error m = Some reason.

End ClientNotions.

Section RiskNotions.
Import Storage.

(** The classification in the words of the specification: late night +2,
    night +1; more than 3 recent purchases +2, more than 1 +1; friction at
    least 4 +1; price above 200 +2, above 50 +1. *)
Definition specRiskScore
    (price : Q) (timeOfDay : Api.TimeOfDay) (count friction : Z) : Z :=
  (match timeOfDay with Api.late_night => 2 | Api.night => 1 | _ => 0 end)
  + (if 3 <? count then 2 else if 1 <? count then 1 else 0)
  + (if 4 <=? friction then 1 else 0)
  + (if Api.Qgt_bool price 200 then 2 else if Api.Qgt_bool price 50 then 1 else 0).

Definition specRiskLevel (score : Z) : RiskLevel :=
  if 4 <=? score then high else if 2 <=? score then medium else low.

(** The request that the extension sends for a product and a context at a
    given hour. *)
Definition requestOf (product : Detector.ProductInfo) (hour : Z)
    (context : Api.ReflectionContext) : Server.ReflectionRequest :=
  {| Server.product_name := Detector.name product;
     Server.product_price := Detector.price product;
     Server.product_category := Detector.category product;
     Server.localHour := hour;
     Server.goalName := Api.goalName context;
     Server.recentPurchaseCount := Api.recentPurchaseCount context;
     Server.frictionLevel := Api.frictionLevel context |}.

End RiskNotions.

Section CoordinatorNotions.
Import Storage Background.

(** The stats after an outcome with the given saved amount. *)
Definition credited (o : Outcome) (s : Stats) (amount : Q) : Stats :=
  if creditsSavings o then
    mkStats (savedToday s + amount) (savedTotal s + amount) (streak s)
  else s.

End CoordinatorNotions.

Section WorkerNotions.
Import Storage Worker.

(** [settings?.notifications] is truthy. *)
Definition wantsNotifications (st : Store) : bool :=
  match settings st with
  | Some s => Storage.notifications s
  | None => false
  end.

(** The browser after one more notification. *)
Definition notified (n : Notification) (b : Browser) : Browser :=
  mkBrowser (coolingOffList b) (alarms b) (notifications b ++ [n]).

(** [response?.blocked] *)
Definition saysBlocked (response : Response) : bool :=
  match response with
  | Decided d => Background.blocked d
  | _ => false
  end.

(** A click on the shield of [button] in the tab [tab], with the worker
    answering before anything else happens in the tab: the message that the
    click sends goes to the listener, the overlay messages come to the tab,
    then the answer does. *)
Definition clickAnswered (env : Api.Env) (clock : Readings) (w : World) (tab : Z)
    (button : Dom.Element) (t : Detector.Tab) : World * Detector.Tab :=
  let t1 := Detector.shieldClick button t in
  match drop (length (Detector.sent t)) (Detector.sent t1) with
  | [m] =>
      let '(w', overlays, response) :=
        listener env clock w (PurchaseDetected (toDetected m)) (Some tab) in
      let t2 := fold_left (λ t _, Detector.onMessage Detector.SHOW_OVERLAY t) overlays t1 in
      (w', Detector.shieldReply button (saysBlocked response) t2)
  | _ => (w, t1)
  end.

(** One of the first three checks of the coordinator refuses the site or
    the moment. *)
Definition refuses (env : Api.Env) (st : Store) (site : jsstring) : bool :=
  negb (enabled st) || Background.quiet env st || Background.siteRefused st site.

End WorkerNotions.


Section StatusNotions.
Import Storage Api.


End StatusNotions.


Section LimiterNotions.
Import RateLimiter.

(** The calls of one client one after the other, each with its instant and
    its random suffix. *)
Fixpoint serve (clientId : jsstring) (calls : list (Z * jsstring)) (c : Conn)
  : list RateLimitResult * Conn :=
  match calls with
  | [] => ([], c)
  | call :: calls' =>
      let r := checkRateLimit call.1 call.2 clientId c in
      let rs := serve clientId calls' r.2 in
      (r.1 :: rs.1, rs.2)
  end.

(** The requests that were let through, oldest first: the member and the
    score under which each was recorded. *)
Definition admitted (calls : list (Z * jsstring)) (results : list RateLimitResult)
  : list (jsstring * Z) :=
  omap (λ cr : (Z * jsstring) * RateLimitResult,
          if allowed cr.2 then Some (requestId cr.1.1 cr.1.2, cr.1.1) else None)
       (zip calls results).

(** The request lies within the 24 hours before [now]. *)
Definition inWindow (now : Z) (p : jsstring * Z) : Prop := now - 86400000 < p.2.

#[global] Instance inWindow_dec (now : Z) (p : jsstring * Z) : Decision (inWindow now p) :=
  Z_lt_dec _ _.

(** The instants do not decrease, starting from [start]. *)
Fixpoint ascending (start : Z) (times : list Z) : Prop :=
  match times with
  | [] => True
  | t :: times' => start <= t ∧ ascending t times'
  end.

Definition lastTime (calls : list (Z * jsstring)) : Z :=
  default 0 (last (map fst calls)).

(** The store holds under [key] the requests of [log] that lie in the
    window at [t], and the key outlives them. *)
Definition limiterInv (key : jsstring) (kv : Kv) (log : list (jsstring * Z)) (t : Z)
  : Prop :=
  Forall (λ p, 0 <= p.2 <= t) log
  ∧ (length (filter (inWindow t) log) <= 100)%nat
  ∧ match kv !! key with
    | None => filter (inWindow t) log = []
    | Some s =>
        members s = filter (inWindow t) log
        ∧ members s ≠ []
        ∧ ∃ x, expiry s = Some x ∧ Forall (λ p, p.2 + 86460000 <= x) (members s)
    end.

(** What the store holds under the key at [now], after the expired
    entries are removed. *)
Definition viewAt (now : Z) (key : jsstring) (kv : Kv) (recent : list (jsstring * Z))
  : Prop :=
  match kv !! key with
  | None => recent = []
  | Some s =>
      members s = recent ∧ recent ≠ []
      ∧ ∃ x, expiry s = Some x ∧ now < x ∧ Forall (λ p, p.2 + 86460000 <= x) recent
  end.

(** Who [getClientId] tells apart. *)
Inductive Identity : Type :=
| ByExtension (extensionId : jsstring)
| ByAddress (ip : jsstring)
| Anonymous.

Definition identify (extensionId ip : option jsstring) : Identity :=
  match extensionId, ip with
  | Some (x :: e), _ => ByExtension (x :: e)
  | _, Some (x :: i) => ByAddress (x :: i)
  | _, _ => Anonymous
  end.

End LimiterNotions.


Section CalcNotions.
Import GoalImpactCalc.



End CalcNotions.


Section LevelNotions.
Import Storage.

(** The order of the risk levels. *)
Definition rank (l : RiskLevel) : Z :=
  match l with low => 0 | medium => 1 | high => 2 end.

(** The four terms of the scores. *)
Definition timeTerm (t : Api.TimeOfDay) : Z :=
  match t with Api.late_night => 2 | Api.night => 1 | _ => 0 end.

Definition countTerm (count : Z) : Z :=
  if 3 <? count then 2 else if 1 <? count then 1 else 0.

Definition frictionTerm (friction : Z) : Z := if 4 <=? friction then 1 else 0.

Definition priceTerm (price : Q) : Z :=
  if Api.Qgt_bool price 200 then 2 else if Api.Qgt_bool price 50 then 1 else 0.

End LevelNotions.


Section FlowNotions.
Import Storage Worker OverlayScript.

(** The product of the overlay as the cooling-off list keeps it. *)
Definition toSaved (p : Detector.ProductInfo) : SavedProduct :=
  mkSaved (Detector.name p) (Detector.price p) (Detector.url p) (Detector.image p).

(** A message of the overlay as the worker reads it: the two messages
    meant for the detector have a type that [handleMessage] does not
    know. *)
Definition toRequest (m : Outgoing) : Request :=
  match m with
  | SAVE_FOR_LATER product => SaveForLater (toSaved product)
  | PURCHASE_OUTCOME eventId outcome reflectionTime =>
      PurchaseOutcome (Background.mkOutcome eventId outcome reflectionTime)
  | RESET_DETECTION | PROCEED_WITH_PURCHASE => Unknown
  end.

(** The overlay message of the worker as the component receives it. *)
Definition shown (o : Overlay) : option Incoming :=
  (λ product, SHOW_OVERLAY (Some (ov_eventId o)) product (ov_questions o)
                           (ov_goalImpact o) (Some (ov_riskLevel o)))
    <$> ov_product o.

(** The worker handles the messages of the overlay one after the other. *)
Definition deliver (env : Api.Env) (clock : Readings) (tab : Z) (w : World)
    (messages : list Outgoing) : World :=
  fold_left (λ w m, (listener env clock w (toRequest m) (Some tab)).1.1) messages w.

End FlowNotions.


Section ClickNotions.
Import Detector.



End ClickNotions.


Section ServiceNotions.
Import Storage Worker.



End ServiceNotions.


Section ImageNotions.
Import Detector.

(** The first element that the selector matches has no source, or there
    is no such element. *)
Definition sourceless (p : Page) (selector : string) : Prop :=
  match querySelector p selector ≫= src with
  | Some (_ :: _) => False
  | _ => True
  end.

End ImageNotions.


(** * Properties *)

(** ** The pattern matcher *)

Section RegexSemantics.

Lemma nullable_spec (r : re) : nullable r = true ↔ matches r [].
Proof.
  split.
  - induction r; simpl; intros H; try done.
    + constructor.
    + apply andb_true_iff in H as [H1 H2]. apply (MSeq _ _ [] []); auto.
    + apply orb_true_iff in H as [H|H]; [apply MAltL | apply MAltR]; auto.
    + constructor.
  - intros H. remember [] as s eqn:E. induction H; simpl; try done.
    + apply app_eq_nil in E as [-> ->]. by rewrite IHmatches1, IHmatches2.
    + by rewrite IHmatches.
    + rewrite IHmatches by done. apply orb_true_r.
Qed.

Lemma deriv_sound (c : N) (r : re) (s : jsstring) :
  matches (deriv c r) s → matches r (c :: s).
Proof.
  revert s. induction r; simpl; intros s H.
  - inversion H.
  - inversion H.
  - destruct (upperChar c =? upperChar c0)%N eqn:E; inversion H; subst.
    constructor. by apply N.eqb_eq.
  - destruct (isSpace c) eqn:E; inversion H; subst. by constructor.
  - destruct (nullable r1) eqn:E.
    + inversion H; subst.
      * inversion H3; subst. apply (MSeq _ _ (c :: s1) s2); auto.
      * apply (MSeq _ _ [] (c :: s)); [by apply nullable_spec | auto].
    + inversion H; subst. apply (MSeq _ _ (c :: s1) s2); auto.
  - inversion H; subst; [apply MAltL | apply MAltR]; auto.
  - inversion H; subst. apply (MStarS _ (c :: s1) s2); auto.
Qed.

Lemma deriv_complete (c : N) (r : re) (s : jsstring) :
  matches r (c :: s) → matches (deriv c r) s.
Proof.
  intros H. remember (c :: s) as s' eqn:E. revert c s E.
  induction H; intros c' s' E; simpl; try done.
  - injection E as -> <-. apply N.eqb_eq in H. rewrite H. constructor.
  - injection E as -> <-. rewrite H. constructor.
  - destruct s1 as [|x s1]; simpl in E.
    + subst s2. apply nullable_spec in H. rewrite H. apply MAltR. by apply IHmatches2.
    + injection E as -> <-.
      assert (matches (Seq (deriv c' a) b) (s1 ++ s2)) by (constructor; auto).
      destruct (nullable a); [by apply MAltL | done].
  - apply MAltL. auto.
  - apply MAltR. auto.
  - destruct s1 as [|x s1]; simpl in E.
    + subst s2. by apply IHmatches2.
    + injection E as -> <-. constructor; auto.
Qed.

(** [matchesPrefix] finds a prefix that matches. *)
Lemma matchesPrefix_spec (r : re) (s : jsstring) :
  matchesPrefix r s = true ↔ ∃ m rest, s = m ++ rest ∧ matches r m.
Proof.
  revert r. induction s as [|c s IH]; intros r; simpl.
  - rewrite orb_false_r, nullable_spec. split.
    + intros H. by exists [], [].
    + intros (m & rest & E & H). symmetry in E. by apply app_eq_nil in E as [-> _].
  - rewrite orb_true_iff, nullable_spec, IH. split.
    + intros [H | (m & rest & -> & H)].
      * by exists [], (c :: s).
      * exists (c :: m), rest. split; [done | by apply deriv_sound].
    + intros (m & rest & E & H). destruct m as [|x m]; simpl in E.
      * by left.
      * injection E as <- ->. right. exists m, rest. split; [done | by apply deriv_complete].
Qed.

(** [test] finds a substring that matches. *)
Lemma test_spec (r : re) (s : jsstring) :
  test r s = true ↔ ∃ before m after, s = before ++ m ++ after ∧ matches r m.
Proof.
  induction s as [|c s IH]; cbn [test].
  - rewrite orb_false_r, matchesPrefix_spec. split.
    + intros (m & rest & E & H). by exists [], m, rest.
    + intros (b & m & a & E & H). destruct b; [|done]. by exists m, a.
  - rewrite orb_true_iff, matchesPrefix_spec, IH. split.
    + intros [(m & rest & E & H) | (b & m & a & -> & H)].
      * by exists [], m, rest.
      * by exists (c :: b), m, a.
    + intros (b & m & a & E & H). destruct b as [|x b]; simpl in E.
      * left. by exists m, a.
      * injection E as <- ->. right. by exists b, m, a.
Qed.

Example button_patterns :
  existsb (λ p, test p (str "BUY  NOW")) Detector.PURCHASE_BUTTON_PATTERNS = true
  ∧ existsb (λ p, test p (str "Place your order")) Detector.PURCHASE_BUTTON_PATTERNS = true
  ∧ existsb (λ p, test p (str "Proceed to Checkout (3 items)"))
            Detector.PURCHASE_BUTTON_PATTERNS = true
  ∧ existsb (λ p, test p (str "Buy again later")) Detector.PURCHASE_BUTTON_PATTERNS = false
  ∧ existsb (λ p, test p (str "Sign in")) Detector.PURCHASE_BUTTON_PATTERNS = false.
Proof. vm_compute. repeat split. Qed.

End RegexSemantics.

(** ** Scoring *)

Section Scoring.
Import Detector.

Lemma getUrlScore_cases p : getUrlScore p = 0 ∨ getUrlScore p = 30.
Proof. unfold getUrlScore. destruct (urlMatches p); auto. Qed.

Lemma getButtonScore_cases p : getButtonScore p = 0 ∨ getButtonScore p = 40.
Proof. unfold getButtonScore. destruct (buttonMatches p); auto. Qed.

Lemma getDomScore_sum p :
  getDomScore p =
  Z.min (10 * Z.b2z (hasPriceElement p) + 15 * Z.b2z (hasCardInput p)
         + 5 * Z.b2z (hasOrderSummary p)) 30.
Proof.
  unfold getDomScore.
  destruct (hasPriceElement p), (hasCardInput p), (hasOrderSummary p); reflexivity.
Qed.

Lemma getDomScore_bounds p : 0 <= getDomScore p <= 30.
Proof.
  rewrite getDomScore_sum.
  destruct (hasPriceElement p), (hasCardInput p), (hasOrderSummary p); simpl; lia.
Qed.

Lemma urlMatches_spec p :
  urlMatches p = true ↔
  ∃ pattern, In pattern CHECKOUT_URL_PATTERNS
             ∧ test pattern (toLowerCase (href p)) = true.
Proof. unfold urlMatches. apply existsb_exists. Qed.

Lemma buttonMatches_spec p :
  buttonMatches p = true ↔
  ∃ el pattern, In el (querySelectorAll p SCORE_BUTTONS)
                ∧ In pattern PURCHASE_BUTTON_PATTERNS
                ∧ test pattern (buttonText el) = true.
Proof.
  unfold buttonMatches, isPurchaseButton. rewrite existsb_exists. split.
  - intros (el & Hel & H). apply existsb_exists in H as (pat & Hp & Ht). eauto.
  - intros (el & pat & Hel & Hp & Ht). exists el. split; [done|].
    apply existsb_exists. eauto.
Qed.

(** C1. The confidence score is the sum of three sub-scores: 30 exactly
    when a checkout URL pattern matches the URL (else 0), 40 exactly when
    the label of some candidate button matches a purchase pattern (else 0),
    and min(10 for a price element + 15 for a card input + 5 for an order
    summary, 30).  Hence it lies in [0, 100]; with every signal present it
    is 100 and with none it is 0. *)
Theorem C1_confidence_score (p : Page) :
  totalScore p = getUrlScore p + getButtonScore p + getDomScore p
  ∧ ((∃ pattern, In pattern CHECKOUT_URL_PATTERNS
                 ∧ test pattern (toLowerCase (href p)) = true)
     → getUrlScore p = 30)
  ∧ ((¬ ∃ pattern, In pattern CHECKOUT_URL_PATTERNS
                   ∧ test pattern (toLowerCase (href p)) = true)
     → getUrlScore p = 0)
  ∧ ((∃ el pattern, In el (querySelectorAll p SCORE_BUTTONS)
                    ∧ In pattern PURCHASE_BUTTON_PATTERNS
                    ∧ test pattern (buttonText el) = true)
     → getButtonScore p = 40)
  ∧ ((¬ ∃ el pattern, In el (querySelectorAll p SCORE_BUTTONS)
                      ∧ In pattern PURCHASE_BUTTON_PATTERNS
                      ∧ test pattern (buttonText el) = true)
     → getButtonScore p = 0)
  ∧ getDomScore p =
      Z.min (10 * Z.b2z (hasPriceElement p) + 15 * Z.b2z (hasCardInput p)
             + 5 * Z.b2z (hasOrderSummary p)) 30
  ∧ 0 <= getUrlScore p <= 30
  ∧ 0 <= getButtonScore p <= 40
  ∧ 0 <= getDomScore p <= 30
  ∧ 0 <= totalScore p <= 100
  ∧ (urlMatches p = true → buttonMatches p = true → hasPriceElement p = true
     → hasCardInput p = true → hasOrderSummary p = true → totalScore p = 100)
  ∧ (urlMatches p = false → buttonMatches p = false → hasPriceElement p = false
     → hasCardInput p = false → hasOrderSummary p = false → totalScore p = 0).
Proof.
  pose proof (getUrlScore_cases p) as Hu.
  pose proof (getButtonScore_cases p) as Hb.
  pose proof (getDomScore_bounds p) as Hd.
  split; [reflexivity|].
  split. { intros H. apply urlMatches_spec in H. unfold getUrlScore. by rewrite H. }
  split. { intros H. unfold getUrlScore. destruct (urlMatches p) eqn:E; [|done].
           exfalso. apply H. by apply urlMatches_spec. }
  split. { intros H. apply buttonMatches_spec in H. unfold getButtonScore. by rewrite H. }
  split. { intros H. unfold getButtonScore. destruct (buttonMatches p) eqn:E; [|done].
           exfalso. apply H. by apply buttonMatches_spec. }
  split; [apply getDomScore_sum|].
  unfold totalScore.
  repeat split; try lia.
  - intros H1 H2 H3 H4 H5. rewrite getDomScore_sum.
    unfold getUrlScore, getButtonScore. rewrite H1, H2, H3, H4, H5. reflexivity.
  - intros H1 H2 H3 H4 H5. rewrite getDomScore_sum.
    unfold getUrlScore, getButtonScore. rewrite H1, H2, H3, H4, H5. reflexivity.
Qed.

(** The checkout page has every signal and scores 100. *)
Lemma C1_confidence_score_witness : totalScore Examples.checkoutPage = 100.
Proof.
  destruct (C1_confidence_score Examples.checkoutPage)
    as (_ & _ & _ & _ & _ & _ & _ & _ & _ & _ & Hall & _).
  apply Hall; vm_compute; reflexivity.
Defined.

Example plainPage_scores_0 : totalScore Examples.plainPage = 0.
Proof. vm_compute. reflexivity. Qed.

Example cartPage_scores_60 : totalScore Examples.cartPage = 60.
Proof. vm_compute. reflexivity. Qed.

Example thinCartPage_scores_55 : totalScore Examples.thinCartPage = 55.
Proof. vm_compute. reflexivity. Qed.

End Scoring.

(** ** Automatic detection *)

Section AutoDetection.
Import Detector.

(** An automatic detection that gets past the three guards sends exactly
    when the score reaches 60. *)
Lemma autoDetect_past_guards (t : Tab) :
  urlHandled t = false →
  isSuppressed t = false →
  AUTO_DETECT_DEBOUNCE_MS <= now t - lastAutoDetection t →
  sent (autoDetectPurchaseIntent t) =
    if 60 <=? totalScore (page t) then sent t ++ [autoMessage t] else sent t.
Proof.
  intros Hh Hs Hd. unfold autoDetectPurchaseIntent.
  rewrite Hh, Hs.
  destruct (now t - lastAutoDetection t <? AUTO_DETECT_DEBOUNCE_MS) eqn:E.
  { apply Z.ltb_lt in E. lia. }
  destruct (60 <=? totalScore (page t)); reflexivity.
Qed.

(** C2. An automatic detection attempt on a URL that is not handled, that
    is not suppressed and that falls outside the 2000 ms debounce window
    sends one PURCHASE_DETECTED message, carrying the score, when the score
    is at least 60 and sends nothing when it is below; so 59 sends nothing
    and 60 sends one message. *)
Theorem C2_auto_trigger_threshold (t : Tab) :
  urlHandled t = false →
  isSuppressed t = false →
  AUTO_DETECT_DEBOUNCE_MS <= now t - lastAutoDetection t →
  (60 <= totalScore (page t) ↔
     sent (autoDetectPurchaseIntent t) = sent t ++ [autoMessage t])
  ∧ (totalScore (page t) < 60 ↔ sent (autoDetectPurchaseIntent t) = sent t)
  ∧ (totalScore (page t) = 59 → sent (autoDetectPurchaseIntent t) = sent t)
  ∧ (totalScore (page t) = 60 →
       sent (autoDetectPurchaseIntent t) =
         sent t ++ [PURCHASE_DETECTED (extractProductInfo (page t))
                                      (hostname (page t)) 60]).
Proof.
  intros Hh Hs Hd.
  pose proof (autoDetect_past_guards t Hh Hs Hd) as H.
  assert (Hne : sent t ++ [autoMessage t] ≠ sent t).
  { intros E. apply (f_equal length) in E. rewrite length_app in E. simpl in E. lia. }
  destruct (60 <=? totalScore (page t)) eqn:E; rewrite H.
  - apply Z.leb_le in E. split; [|split; [|split]].
    + split; auto.
    + split; [lia|]. intros E'. by apply Hne in E'.
    + lia.
    + intros E'. unfold autoMessage. by rewrite E'.
  - apply Z.leb_gt in E. split; [|split; [|split]].
    + split; [lia|]. intros E'. symmetry in E'. by apply Hne in E'.
    + split; auto.
    + auto.
    + lia.
Qed.

(** The cart page scores 60; loaded five seconds after the epoch with no
    suppression, its automatic detection sends one message. *)
Lemma C2_auto_trigger_threshold_witness :
  sent (autoDetectPurchaseIntent (fresh Examples.cartPage 5000 None)) =
    [PURCHASE_DETECTED (extractProductInfo Examples.cartPage)
                       (str "www.amazon.com") 60].
Proof.
  destruct (C2_auto_trigger_threshold (fresh Examples.cartPage 5000 None))
    as (_ & _ & _ & H60); [reflexivity | reflexivity | vm_compute; discriminate |].
  apply H60. vm_compute. reflexivity.
Defined.

(** One signal less, at 55, and nothing is sent. *)
Example thinCartPage_sends_nothing :
  sent (autoDetectPurchaseIntent (fresh Examples.thinCartPage 5000 None)) = [].
Proof. vm_compute. reflexivity. Qed.

End AutoDetection.


(** ** The policy of the session coordinator *)

Section Policy.
Import Storage Background.





(** The proxy call leaves the purchase history alone. *)
Lemma callProxyAPI_history env st product partialContext :
  purchaseHistory (fst (Api.callProxyAPI env st product partialContext))
  = purchaseHistory st.
Proof.
  unfold Api.callProxyAPI.
  destruct (Api.fetch env) as [m | status hl hr hs body]; [reflexivity|].
  destruct (status =? 429); [destruct body; reflexivity|].
  destruct (negb (Api.isOk status)); destruct body; reflexivity.
Qed.




(** The window from 22 to 6 wraps: 23 and 3 are quiet, noon is not. *)
Example wraparound_quiet_hours :
  inQuietHours 23 (22, 6) = true ∧ inQuietHours 3 (22, 6) = true
  ∧ inQuietHours 12 (22, 6) = false ∧ inQuietHours 6 (22, 6) = false.
Proof. repeat split. Qed.

End Policy.

(** ** Shielding *)

Section Shielding.
Import Detector.


Lemma updateShieldPosition_placed k t shield :
  shieldedButtons t !! k = Some shield →
  updateShieldPosition k t =
    set_shieldedButtons (<[k := placedShield (page t) k shield]> (shieldedButtons t)) t.
Proof.
  intros H. unfold updateShieldPosition, placedShield. rewrite H.
  by destruct (zeroArea _).
Qed.


Lemma shieldButton_cases t b :
  (∃ shield, shieldedButtons t !! el_id b = Some shield
     ∧ shieldButton t b =
         set_shieldedButtons
           (<[el_id b := placedShield (page t) (el_id b) shield]> (shieldedButtons t)) t)
  ∨ (shieldedButtons t !! el_id b = None
     ∧ zeroArea (boundingRect (page t) (el_id b)) = true
     ∧ shieldButton t b = t)
  ∨ (shieldedButtons t !! el_id b = None
     ∧ zeroArea (boundingRect (page t) (el_id b)) = false
     ∧ shieldButton t b =
         set_shieldedButtons
           (<[el_id b := fst (createShield b t)]> (shieldedButtons t))
           (snd (createShield b t))).
Proof.
  unfold shieldButton.
  destruct (shieldedButtons t !! el_id b) as [shield|] eqn:E.
  - left. exists shield. split; [done|].
    rewrite bool_decide_eq_true_2 by eauto.
    by apply updateShieldPosition_placed.
  - rewrite bool_decide_eq_false_2 by (intros [? ?]; done).
    destruct (zeroArea _) eqn:Z; [right; left; done|].
    right; right. done.
Qed.

Lemma shieldButton_page t b : page (shieldButton t b) = page t.
Proof.
  destruct (shieldButton_cases t b) as [(s & _ & ->) | [(_ & _ & ->) | (_ & _ & ->)]];
    reflexivity.
Qed.












Lemma shieldButton_dom t b :
  dom (shieldedButtons (shieldButton t b)) =
  dom (shieldedButtons t)
  ∪ (if zeroArea (boundingRect (page t) (el_id b)) then ∅ else {[el_id b]}).
Proof.
  destruct (shieldButton_cases t b) as [(s & E & ->) | [(E & Z & ->) | (E & Z & ->)]];
    simpl.
  - rewrite dom_insert_L. apply (elem_of_dom_2 (D := gset nat)) in E.
    destruct (zeroArea _); set_solver.
  - rewrite Z. set_solver.
  - rewrite Z, dom_insert_L. set_solver.
Qed.

Lemma fold_dom l t :
  dom (shieldedButtons (fold_left shieldButton l t)) =
  dom (shieldedButtons t)
  ∪ list_to_set (el_id <$> filter (λ b, zeroArea (boundingRect (page t) (el_id b)) = false) l).
Proof.
  revert t. induction l as [|b l IH]; intros t; simpl.
  - set_solver.
  - rewrite IH, shieldButton_dom, shieldButton_page, filter_cons.
    destruct (zeroArea (boundingRect (page t) (el_id b))) eqn:Z.
    + rewrite decide_False by done. set_solver.
    + rewrite decide_True by done. set_solver.
Qed.







Example shopPage_shields :
  map fst (map_to_list (shieldedButtons (shieldPurchaseButtons
                                           (fresh Examples.shopPage 0 None)))) = [1%nat]
  ∧ elements (attached (shieldPurchaseButtons
                          (shieldPurchaseButtons (fresh Examples.shopPage 0 None)))) = [0%nat].
Proof. vm_compute. split; reflexivity. Qed.

End Shielding.

(** ** Suppression after an override *)

Section Suppression.
Import Detector.



Lemma autoDetect_handled t : urlHandled t = true → autoDetectPurchaseIntent t = t.
Proof. intros H. unfold autoDetectPurchaseIntent. by rewrite H. Qed.

Lemma shieldClick_guarded button t :
  overlayActive t || urlHandled t = true → shieldClick button t = t.
Proof. intros H. unfold shieldClick. by rewrite H. Qed.

(** The clock and the session storage under the callbacks: nothing but
    the passing of time moves the clock, nothing but an override writes the
    window. *)
Ltac unfold_callbacks :=
  unfold onMutation, onPoll, shieldPurchaseButtons, autoDetectPurchaseIntent,
    shieldClick, shieldReply, shieldFailure, autoReply, handleShieldClick,
    removeAllShields, send, click.

Ltac split_tests :=
  repeat match goal with
         | |- context [if ?b then _ else _] => destruct b
         | |- context [match ?o with Some _ => _ | None => _ end] => destruct o
         end.

Lemma fold_shield_clock l t :
  now (fold_left shieldButton l t) = now t
  ∧ proceedUntil (fold_left shieldButton l t) = proceedUntil t.
Proof.
  revert t. induction l as [|b l IH]; intros t; simpl; [done|].
  destruct (IH (shieldButton t b)) as [-> ->].
  destruct (shieldButton_cases t b) as [(s & _ & ->) | [(_ & _ & ->) | (_ & _ & ->)]];
    done.
Qed.

Lemma fold_update_clock l t :
  now (fold_left (λ t button, updateShieldPosition button t) l t) = now t
  ∧ proceedUntil (fold_left (λ t button, updateShieldPosition button t) l t)
    = proceedUntil t.
Proof.
  revert t. induction l as [|b l IH]; intros t; simpl; [done|].
  destruct (IH (updateShieldPosition b t)) as [-> ->].
  unfold updateShieldPosition. split_tests; done.
Qed.

Lemma step_clock (t : Tab) (e : Event) :
  now (step t e) = now t + elapsed [e]
  ∧ (e ≠ Incoming PROCEED_WITH_PURCHASE → proceedUntil (step t e) = proceedUntil t).
Proof.
  destruct e as [| | |b|b blocked|b|blocked|m|p|ms]; simpl; rewrite ?Z.add_0_r.
  - unfold_callbacks. split_tests; simpl;
      rewrite ?(proj1 (fold_shield_clock _ _)), ?(proj2 (fold_shield_clock _ _)); done.
  - unfold_callbacks. split_tests; simpl;
      rewrite ?(proj1 (fold_shield_clock _ _)), ?(proj2 (fold_shield_clock _ _)); done.
  - unfold onResize.
    by rewrite (proj1 (fold_update_clock _ _)), (proj2 (fold_update_clock _ _)).
  - unfold_callbacks. split_tests; done.
  - unfold_callbacks. split_tests; done.
  - unfold_callbacks. done.
  - unfold_callbacks. split_tests; done.
  - destruct m; simpl; unfold removeAllShields; split_tests; done.
  - done.
  - done.
Qed.





End Suppression.

(** ** One prompt at a time *)

Section OnePrompt.
Import Detector.

(** While the URL is the handled one, neither path sends. *)
Lemma handled_url_sends_nothing (t : Tab) (button : Element) :
  urlHandled t = true →
  sent (autoDetectPurchaseIntent t) = sent t ∧ sent (shieldClick button t) = sent t.
Proof.
  intros H. rewrite autoDetect_handled by done.
  rewrite shieldClick_guarded by (rewrite H; apply orb_true_r). done.
Qed.

(** While the overlay is active, a shield click sends nothing. *)
Lemma overlay_blocks_shield_click (t : Tab) (button : Element) :
  overlayActive t = true → sent (shieldClick button t) = sent t.
Proof. intros H. rewrite shieldClick_guarded by (by rewrite H). done. Qed.

(** C10, at the failing input. The checkout page is loaded at 5000 ms and
    its automatic detection sends; the prompt is shown and the reply marks
    the URL as handled.  Three seconds later the page has moved on to the
    cart URL and the poller notices: the overlay is still active, the
    handled URL is reset, and the automatic detection sends a second
    PURCHASE_DETECTED.  The coordinator then holds two pending events of this
    tab (after the one that was on record). *)
Theorem C10_second_detection_while_overlay_active :
  let t := run (load Examples.checkoutPage 5000 None)
               [Incoming SHOW_OVERLAY; AutoReply true; Elapses 3000;
                Shows Examples.cartPage] in
  overlayActive t = true
  ∧ sent t = [autoMessage (load Examples.checkoutPage 5000 None)]
  ∧ overlayActive (step t Poll) = true
  ∧ sent (step t Poll) = sent t ++ [autoMessage t]
  ∧ map (λ e, (Storage.id e, Storage.outcome e))
        (Storage.purchaseHistory
           (receive Examples.laterOutage (autoMessage t)
              (receive Examples.noonOutage
                 (autoMessage (load Examples.checkoutPage 5000 None))
                 Examples.installed)))
    = [ (Some (str "e-1"), Storage.pending);
        (Some (str "e-2"), Storage.pending);
        (Some (str "e-3"), Storage.pending) ].
Proof. vm_compute. repeat split. Qed.

(** The same happens without a URL change when the page mutates between
    the arrival of the prompt and that of the reply, the debounce window
    being over. *)
Example second_detection_before_reply :
  let t := run (load Examples.checkoutPage 5000 None)
               [Incoming SHOW_OVERLAY; Elapses 2500] in
  overlayActive t = true
  ∧ sent t = [autoMessage t]
  ∧ sent (step t Mutation) = [autoMessage t; autoMessage t].
Proof. vm_compute. repeat split. Qed.

End OnePrompt.

(** ** The reflection client falls back *)

Section Fallback.
Import Storage Api.

Lemma insertRandom_perm {A} (x : A) (l : list A) (rnd : list bool) :
  Permutation (fst (insertRandom x l rnd)) (x :: l).
Proof.
  revert rnd. induction l as [|y l IH]; intros rnd; simpl; [done|].
  destruct rnd as [|[|] rnd]; simpl; [done| |done].
  specialize (IH rnd). destruct (insertRandom x l rnd) as [r rnd'']. simpl in *.
  rewrite IH. apply perm_swap.
Qed.

(** Whatever the random signs, the shuffle is a permutation. *)
Lemma sortRandom_perm {A} (l : list A) (rnd : list bool) :
  Permutation (fst (sortRandom l rnd)) l.
Proof.
  induction l as [|x l IH]; simpl; [done|].
  destruct (sortRandom l rnd) as [s rnd']. simpl in IH.
  rewrite insertRandom_perm. by constructor.
Qed.

Lemma FALLBACK_QUESTIONS_distinct : NoDup FALLBACK_QUESTIONS.
Proof. apply (bool_decide_unpack _). vm_compute. exact I. Qed.

Lemma fallbackQuestions_spec (rnd : list bool) (count : nat) :
  (count <= 5)%nat →
  NoDup (getRandomFallbackQuestions rnd count)
  ∧ (∀ q, In q (getRandomFallbackQuestions rnd count) → In q FALLBACK_QUESTIONS)
  ∧ length (getRandomFallbackQuestions rnd count) = count.
Proof.
  intros Hc. unfold getRandomFallbackQuestions.
  pose proof (sortRandom_perm FALLBACK_QUESTIONS rnd) as Hp.
  set (shuffled := fst (sortRandom FALLBACK_QUESTIONS rnd)) in *.
  assert (Hnd : NoDup shuffled) by (rewrite Hp; apply FALLBACK_QUESTIONS_distinct).
  split; [|split].
  - rewrite <- (take_drop count shuffled) in Hnd.
    by apply NoDup_app in Hnd as (? & _ & _).
  - intros q Hq. apply (Permutation_in q Hp).
    rewrite <- (take_drop count shuffled). apply in_or_app. by left.
  - apply length_take_le. rewrite (Permutation_length Hp). exact Hc.
Qed.

Lemma createFallbackResponse_spec env product context goals reason :
  let response := createFallbackResponse env product context goals (Some reason) in
  isFallback response
  ∧ NoDup (questions response)
  ∧ (∀ q, In q (questions response) → In q FALLBACK_QUESTIONS)
  ∧ length (questions response) = if 4 <=? frictionLevel context then 3%nat else 2%nat.
Proof.
  simpl. split; [by eexists _, _|].
  destruct (4 <=? frictionLevel context); apply fallbackQuestions_spec; lia.
Qed.

(** C6. When the remote call fails (rejection, 429 or any status outside
    200 to 299) [callProxyAPI] returns a response: its meta says fallback
    and carries a reason, its questions are distinct questions of the pool
    of five, and there are 3 of them when the friction level of the context
    is at least 4 and 2 otherwise; without an override that level is the
    one of the user's settings. *)
Theorem C6_fallback_on_failure
    (env : Env) (st : Store) (product : Detector.ProductInfo)
    (partialContext : PartialContext) :
  failed (fetch env) →
  let response := fst (snd (callProxyAPI env st product partialContext)) in
  isFallback response
  ∧ NoDup (questions response)
  ∧ (∀ q, In q (questions response) → In q FALLBACK_QUESTIONS)
  ∧ length FALLBACK_QUESTIONS = 5%nat
  ∧ length (questions response) =
      (if 4 <=? frictionLevel (buildContext env st partialContext) then 3%nat else 2%nat)
  ∧ (p_frictionLevel partialContext = None →
     ∀ s, settings st = Some s →
          length (questions response) =
            if 4 <=? Storage.frictionLevel s then 3%nat else 2%nat).
Proof.
  intros Hf response.
  assert (H : ∃ reason, response =
    createFallbackResponse env product (buildContext env st partialContext)
                           (goals st) (Some reason)).
  { subst response. unfold callProxyAPI.
    destruct (fetch env) as [m | status hl hr hs body]; simpl in Hf; [by eexists|].
    destruct (status =? 429) eqn:E429.
    { destruct body; by eexists. }
    destruct (isOk status) eqn:Eok; simpl.
    - exfalso. unfold isOk in Eok. apply andb_true_iff in Eok as [H1 H2].
      apply Z.leb_le in H1, H2. apply Z.eqb_neq in E429. destruct Hf; lia.
    - destruct body; by eexists. }
  destruct H as (reason & ->).
  pose proof (createFallbackResponse_spec env product
                (buildContext env st partialContext) (goals st) reason)
    as (H1 & H2 & H3 & H4).
  repeat split; try done.
  intros Hp s Hs. rewrite H4. unfold buildContext. simpl. rewrite Hp, Hs. simpl.
  destruct (Storage.frictionLevel s =? 0) eqn:E0; [|done].
  apply Z.eqb_eq in E0. by rewrite E0.
Qed.

(** The proxy answers 503 at noon; the user's friction level is 3: two
    fallback questions. *)
Lemma C6_fallback_on_failure_witness :
  isFallback (fst (snd (callProxyAPI Examples.noonOutage Examples.installed
                                     Examples.espresso noPartial)))
  ∧ length (questions (fst (snd (callProxyAPI Examples.noonOutage Examples.installed
                                              Examples.espresso noPartial)))) = 2%nat.
Proof.
  destruct (C6_fallback_on_failure Examples.noonOutage Examples.installed
                                   Examples.espresso noPartial)
    as (H1 & _ & _ & _ & H5 & _).
  - right. simpl. lia.
  - split; [exact H1 | exact H5].
Defined.

Example outage_reason :
  (meta (fst (snd (callProxyAPI Examples.noonOutage Examples.installed
                                Examples.espresso noPartial))) ≫= error)
  = Some (str "api_error_503").
Proof. vm_compute. reflexivity. Qed.

End Fallback.

(** ** The two risk classifiers *)

Section Risk.
Import Storage.

(** Case analysis on every test of the goal. *)
Ltac case_ifs :=
  repeat match goal with
         | |- context [if ?b then _ else _] => destruct b
         end.

Lemma getTimeOfDay_same hour : Server.getTimeOfDay hour = Api.getTimeOfDay hour.
Proof. reflexivity. Qed.

(** The server computes the score of the specification. *)
Lemma server_score_spec (request : Server.ReflectionRequest) :
  Server.riskScore request =
    specRiskScore (Server.product_price request)
                  (Server.getTimeOfDay (Server.localHour request))
                  (Server.recentPurchaseCount request) (Server.frictionLevel request)
  ∧ Server.determineRiskLevel request = specRiskLevel (Server.riskScore request).
Proof.
  split; [|reflexivity].
  unfold Server.riskScore, specRiskScore.
  destruct (Server.getTimeOfDay _); case_ifs; reflexivity.
Qed.

(** The extension leaves the friction term out. *)
Lemma local_score_without_friction
    (product : Detector.ProductInfo) (context : Api.ReflectionContext) :
  Api.localRiskScore product context + (if 4 <=? Api.frictionLevel context then 1 else 0)
  = specRiskScore (Detector.price product) (Api.timeOfDay context)
                  (Api.recentPurchaseCount context) (Api.frictionLevel context).
Proof.
  unfold Api.localRiskScore, specRiskScore.
  destruct (Api.timeOfDay context); case_ifs; reflexivity.
Qed.

(** Below friction level 4 the two classifiers agree. *)
Lemma classifiers_agree_below_4
    (product : Detector.ProductInfo) (hour : Z) (context : Api.ReflectionContext) :
  Api.timeOfDay context = Api.getTimeOfDay hour →
  Api.frictionLevel context < 4 →
  Api.determineLocalRiskLevel product context
  = Server.determineRiskLevel (requestOf product hour context).
Proof.
  intros Ht Hf.
  pose proof (local_score_without_friction product context) as Hl.
  destruct (server_score_spec (requestOf product hour context)) as [Hs ->].
  unfold Api.determineLocalRiskLevel, specRiskLevel.
  rewrite Hs. simpl. rewrite getTimeOfDay_same, <- Ht, <- Hl.
  apply Z.leb_gt in Hf. rewrite Hf. by rewrite Z.add_0_r.
Qed.

(** C7, at the failing input. Price 60, ten in the morning, no recent
    purchase, friction level 4: the server scores 2 and answers medium, as
    the specification has it; the extension scores 1 and answers low. *)
Theorem C7_risk_classifiers_differ :
  Examples.headphonesRequest
    = requestOf Examples.headphones 10 Examples.headphonesContext
  ∧ Server.riskScore Examples.headphonesRequest = 2
  ∧ Server.determineRiskLevel Examples.headphonesRequest = medium
  ∧ specRiskLevel (specRiskScore 60 (Api.getTimeOfDay 10) 0 4) = medium
  ∧ Api.localRiskScore Examples.headphones Examples.headphonesContext = 1
  ∧ Api.determineLocalRiskLevel Examples.headphones Examples.headphonesContext = low.
Proof. repeat split. Qed.

(** The example of the specification: price 250, late night, 5 recent
    purchases, friction 5 scores 7 on the server, high; the extension
    scores 6, high as well. *)
Example spec_example_scores :
  specRiskScore 250 Api.late_night 5 5 = 7
  ∧ Api.localRiskScore Examples.espresso (Api.mkContext Api.late_night None 5 5) = 6.
Proof. repeat split. Qed.

End Risk.

(** ** Outcome resolution *)

Section Outcome.
Import Storage Background.

Lemma findIndex_lookup {A} (f : A → bool) (l : list A) (i : nat) :
  findIndex f l = Some i → ∃ x, l !! i = Some x ∧ f x = true.
Proof.
  revert i. induction l as [|a l IH]; intros i; simpl; [done|].
  destruct (f a) eqn:E.
  - intros [= <-]. eauto.
  - destruct (findIndex f l) as [j|]; simpl; [|done].
    intros [= <-]. destruct (IH j eq_refl) as (x & ? & ?). eauto.
Qed.

Lemma findIndex_insert {A} (f : A → bool) (l : list A) (i : nat) (y : A) :
  findIndex f l = Some i → f y = true → findIndex f (<[i := y]> l) = Some i.
Proof.
  revert i. induction l as [|a l IH]; intros i; simpl; [done|].
  destruct (f a) eqn:E.
  - intros [= <-] Hy. simpl. by rewrite Hy.
  - destruct (findIndex f l) as [j|] eqn:Ej; simpl; [|done].
    intros [= <-] Hy. simpl. rewrite E, (IH j) by done. done.
Qed.

Lemma findIndex_app_new {A} (f : A → bool) (l : list A) (y : A) :
  findIndex f l = None → f y = true → findIndex f (l ++ [y]) = Some (length l).
Proof.
  induction l as [|a l IH]; simpl; intros H Hy.
  - by rewrite Hy.
  - destruct (f a); [done|].
    destruct (findIndex f l); [done|]. by rewrite IH.
Qed.

Lemma outcome_found env st message i event :
  findIndex (sameEvent (eventId message)) (purchaseHistory st) = Some i →
  purchaseHistory st !! i = Some event →
  handlePurchaseOutcome env st message =
    (set_purchaseHistory (<[i := resolve message event]> (purchaseHistory st))
       (set_stats (credited (outcome message) (stats st) (priceOf event)) st),
     priceOf event).
Proof.
  intros Hi He. unfold handlePurchaseOutcome. rewrite Hi. simpl. rewrite He. simpl.
  reflexivity.
Qed.

Lemma outcome_orphan env st message :
  findIndex (sameEvent (eventId message)) (purchaseHistory st) = None →
  handlePurchaseOutcome env st message =
    (set_purchaseHistory (purchaseHistory st ++ [orphanEntry env message])
       (set_stats (credited (outcome message) (stats st) 0) st),
     0%Q).
Proof. intros Hi. unfold handlePurchaseOutcome. rewrite Hi. reflexivity. Qed.

Lemma resolve_idem message event :
  resolve message (resolve message event) = resolve message event.
Proof. reflexivity. Qed.

Lemma resolve_orphan env message :
  resolve message (orphanEntry env message) = orphanEntry env message.
Proof. reflexivity. Qed.

Lemma sameEvent_resolve eid message event :
  sameEvent eid (resolve message event) = sameEvent eid event.
Proof. reflexivity. Qed.

Lemma sameEvent_orphan env message :
  sameEvent (eventId message) (orphanEntry env message) = true.
Proof. unfold sameEvent. simpl. by rewrite bool_decide_eq_true_2. Qed.

(** The second processing of a message, after the first. *)
Lemma outcome_twice env1 env2 st message :
  ∃ history amount,
    handlePurchaseOutcome env1 st message =
      (set_purchaseHistory history
         (set_stats (credited (outcome message) (stats st) amount) st), amount)
    ∧ handlePurchaseOutcome env2
        (set_purchaseHistory history
           (set_stats (credited (outcome message) (stats st) amount) st)) message =
      (set_purchaseHistory history
         (set_stats (credited (outcome message)
                       (credited (outcome message) (stats st) amount) amount) st),
       amount)
    ∧ (∀ i event,
         findIndex (sameEvent (eventId message)) (purchaseHistory st) = Some i →
         purchaseHistory st !! i = Some event →
         amount = priceOf event
         ∧ history = <[i := resolve message event]> (purchaseHistory st))
    ∧ (findIndex (sameEvent (eventId message)) (purchaseHistory st) = None →
       amount = 0%Q ∧ history = purchaseHistory st ++ [orphanEntry env1 message]).
Proof.
  destruct (findIndex (sameEvent (eventId message)) (purchaseHistory st)) as [i|] eqn:Hi.
  - destruct (findIndex_lookup _ _ _ Hi) as (event & He & Hsame).
    exists (<[i := resolve message event]> (purchaseHistory st)), (priceOf event).
    split; [by apply outcome_found|]. split; [|split; [|done]].
    + rewrite (outcome_found env2 _ message i (resolve message event)); simpl.
      * by rewrite list_insert_insert_eq.
      * apply findIndex_insert; [done|]. by rewrite sameEvent_resolve.
      * apply list_lookup_insert_eq. by eapply lookup_lt_Some.
    + intros i' event' [= <-] He'. rewrite He in He'. by injection He' as <-.
  - exists (purchaseHistory st ++ [orphanEntry env1 message]), 0%Q.
    split; [by apply outcome_orphan|]. split; [|split; [done|done]].
    rewrite (outcome_found env2 _ message (length (purchaseHistory st))
               (orphanEntry env1 message)); simpl.
    + rewrite resolve_orphan, list_insert_id; [done|].
      rewrite lookup_app_r by lia. by rewrite Nat.sub_diag.
    + apply findIndex_app_new; [done | apply sameEvent_orphan].
    + rewrite lookup_app_r by lia. by rewrite Nat.sub_diag.
Qed.

(** C8 as it stands fails. The espresso machine, 250, is on record as
    pending; its outcome saved is processed twice: the total is 250 after
    the first processing and 500 after the second. *)
Lemma C8_second_resolution_credits_again :
  let first := fst (handlePurchaseOutcome Examples.noonOutage Examples.installed
                                          Examples.savedIt) in
  let second := fst (handlePurchaseOutcome Examples.laterOutage first
                                           Examples.savedIt) in
  (savedTotal (stats Examples.installed) == 0)%Q
  ∧ (savedTotal (stats first) == 250)%Q
  ∧ (savedTotal (stats second) == 500)%Q
  ∧ ¬ (savedTotal (stats second) == savedTotal (stats first))%Q
  ∧ ¬ (savedToday (stats second) == savedToday (stats first))%Q.
Proof.
  vm_compute. repeat split; discriminate.
Qed.

(** C8, amended. A second processing of the same PURCHASE_OUTCOME message
    leaves the purchase history as the first processing left it: the event
    found by its identifier, or else the orphan entry that the first
    processing appended, holds the outcome, and nothing is appended.  It
    answers the same saved amount, the price of the event found (0 for an
    orphan), and for saved and cooled_off it adds that amount to savedToday
    and savedTotal once more; for the other outcomes the stats stay as they
    were. *)
Theorem C8_outcome_resolution
    (env1 env2 : Api.Env) (st : Store) (message : PurchaseOutcomeMessage) :
  let first := handlePurchaseOutcome env1 st message in
  let second := handlePurchaseOutcome env2 (fst first) message in
  purchaseHistory (fst second) = purchaseHistory (fst first)
  ∧ snd second = snd first
  ∧ (∀ i event,
       findIndex (sameEvent (eventId message)) (purchaseHistory st) = Some i →
       purchaseHistory st !! i = Some event →
       snd first = priceOf event
       ∧ purchaseHistory (fst first) = <[i := resolve message event]> (purchaseHistory st))
  ∧ (findIndex (sameEvent (eventId message)) (purchaseHistory st) = None →
     snd first = 0%Q
     ∧ purchaseHistory (fst first) = purchaseHistory st ++ [orphanEntry env1 message])
  ∧ (creditsSavings (outcome message) = true →
     savedTotal (stats (fst first)) = (savedTotal (stats st) + snd first)%Q
     ∧ savedToday (stats (fst first)) = (savedToday (stats st) + snd first)%Q
     ∧ savedTotal (stats (fst second)) = (savedTotal (stats (fst first)) + snd first)%Q
     ∧ savedToday (stats (fst second)) = (savedToday (stats (fst first)) + snd first)%Q)
  ∧ (creditsSavings (outcome message) = false →
     stats (fst first) = stats st ∧ stats (fst second) = stats st).
Proof.
  destruct (outcome_twice env1 env2 st message)
    as (history & amount & H1 & H2 & Hfound & Horphan).
  simpl. rewrite H1. simpl. rewrite H2. simpl.
  split; [done|]. split; [done|]. split; [exact Hfound|]. split; [exact Horphan|].
  unfold credited. split; intros ->; simpl; done.
Qed.

(** The espresso machine saved twice: the history holds the one event,
    saved, and the total goes from 0 to 250 and then to 500. *)
Lemma C8_outcome_resolution_witness :
  let first := handlePurchaseOutcome Examples.noonOutage Examples.installed
                                     Examples.savedIt in
  let second := handlePurchaseOutcome Examples.laterOutage (fst first)
                                      Examples.savedIt in
  savedTotal (stats (fst first)) = (0 + 250)%Q
  ∧ savedTotal (stats (fst second)) = (0 + 250 + 250)%Q.
Proof.
  destruct (C8_outcome_resolution Examples.noonOutage Examples.laterOutage
                                  Examples.installed Examples.savedIt)
    as (_ & _ & _ & _ & H & _).
  destruct (H eq_refl) as (H1 & _ & H3 & _).
  split; [exact H1 | exact H3].
Defined.

End Outcome.

(** ** Product extraction *)

Section Extraction.
Import Detector.





Lemma findName_accepted (p : Page) (selectors : list string) :
  findName p selectors = [] ∨ nameAccepted (findName p selectors) = true.
Proof.
  induction selectors as [|s selectors IH]; simpl; [by left|].
  destruct (selectorText p s) as [t|]; [|done].
  destruct (nameAccepted t) eqn:E; [by right | done].
Qed.

Lemma Qpositive_spec (q : Q) : Qpositive q = true ↔ (0 < q)%Q.
Proof.
  unfold Qpositive. rewrite negb_true_iff. split.
  - intros H. apply Qnot_le_lt. intros Hle. apply Qle_bool_iff in Hle. congruence.
  - intros H. destruct (Qle_bool q 0) eqn:E; [|done].
    apply Qle_bool_iff in E. exfalso. by apply (Qlt_not_le _ _ H).
Qed.



Lemma findPrice_nonneg (p : Page) (selectors : list string) :
  (0 <= findPrice p selectors)%Q.
Proof.
  induction selectors as [|s selectors IH]; simpl; [done|].
  destruct (parsePrice _) as [t|]; [|done].
  destruct (Qpositive t) eqn:E; [|done].
  apply Qlt_le_weak. by apply Qpositive_spec.
Qed.

Lemma takeWhile_Forall {A} (f : A → bool) (l : list A) :
  Forall (λ x, f x = true) (takeWhile f l).
Proof.
  induction l as [|x l IH]; simpl; [constructor|].
  destruct (f x) eqn:E; by constructor.
Qed.

Lemma removeFirst_Forall (P : N → Prop) (c : N) (s : jsstring) :
  Forall P s → Forall P (removeFirst c s).
Proof.
  induction 1 as [|x l Hx Hl IH]; simpl; [constructor|].
  destruct (x =? c)%N; [done | by constructor].
Qed.

Lemma priceMatch_alphabet (s : jsstring) :
  Forall (λ c, isDigit c = true ∨ c = 44%N ∨ c = 46%N)
         (takeWhile isDigitOrComma s ++
          match dropWhile isDigitOrComma s with
          | c :: r => if (c =? 46)%N then c :: takeWhile isDigit r else []
          | [] => []
          end).
Proof.
  apply Forall_app. split.
  - eapply Forall_impl; [apply takeWhile_Forall|]. simpl. intros c Hc.
    unfold isDigitOrComma in Hc. apply orb_true_iff in Hc as [Hc|Hc]; [by left|].
    right; left. by apply N.eqb_eq.
  - destruct (dropWhile isDigitOrComma s) as [|c r]; [constructor|].
    destruct (c =? 46)%N eqn:Ec; [|constructor].
    constructor; [right; right; by apply N.eqb_eq|].
    eapply Forall_impl; [apply takeWhile_Forall|]. simpl. by left.
Qed.

(** What reaches [parseFloat] is made of digits, commas and dots. *)
Lemma parseFloat_argument (text m : jsstring) :
  priceMatch text = Some m →
  Forall (λ c, isDigit c = true ∨ c = 44%N ∨ c = 46%N) (removeFirst 44 m).
Proof.
  intros H. apply removeFirst_Forall. unfold priceMatch in H.
  destruct (dropWhile _ text) as [|x s]; [done|].
  injection H as <-. exact (priceMatch_alphabet (x :: s)).
Qed.

Lemma extractName_nonempty (p : Page) : extractName p ≠ [].
Proof.
  unfold extractName. destruct (findName p nameSelectors) eqn:E; [|done].
  unfold orElse. by destruct (trim (cleanTitle (title p))).
Qed.



(** The title fallback and the sentinel. *)
Example title_fallback :
  name (extractProductInfo Examples.cartPage) = str "Cart"
  ∧ cleanTitle (str "Espresso machine : Amazon.com") = str "Espresso machine"
  ∧ orElse (trim (cleanTitle (str " - Amazon.com"))) UNKNOWN_PRODUCT
    = str "Unknown Product".
Proof. vm_compute. repeat split. Qed.

Example parsePrice_examples :
  parsePrice (str "Order total: $1,299.99") = Some (129999 # 100)%Q
  ∧ parsePrice (str "$20") = Some (20 # 1)%Q
  ∧ parsePrice (str "Free, today") = None
  ∧ parsePrice (str "no price") = None.
Proof. vm_compute. repeat split. Qed.

End Extraction.

(** ** The shields of a tab over its whole life *)

Section ShieldRegistry.
Import Detector.

Lemma elem_of_shieldNodes (m : gmap nat Shield) (n : nat) :
  n ∈ shieldNodes m ↔ ∃ k shield, m !! k = Some shield ∧ sh_node shield = n.
Proof.
  unfold shieldNodes. rewrite elem_of_list_to_set, list_elem_of_In, in_map_iff. split.
  - intros ([k shield] & E & Hin). apply list_elem_of_In, elem_of_map_to_list in Hin.
    eauto.
  - intros (k & shield & Hk & E). exists (k, shield). split; [done|].
    by apply list_elem_of_In, elem_of_map_to_list.
Qed.

(** Only the registry, the divs and the identity counter matter. *)
Lemma shieldsInOrder_frame (t t' : Tab) :
  shieldedButtons t' = shieldedButtons t → attached t' = attached t →
  nextNode t' = nextNode t → shieldsInOrder t → shieldsInOrder t'.
Proof. unfold shieldsInOrder. intros -> -> ->. done. Qed.

Lemma shieldsInOrder_update (t : Tab) (k : nat) (shield shield' : Shield) :
  shieldedButtons t !! k = Some shield → sh_node shield' = sh_node shield →
  shieldsInOrder t →
  shieldsInOrder (set_shieldedButtons (<[k := shield']> (shieldedButtons t)) t).
Proof.
  intros Hk Hn (Hatt & Hinj & Hlt & Hsize). unfold shieldsInOrder. simpl.
  split; [|split; [|split]].
  - intros n. rewrite Hatt. split.
    + intros (k' & s' & Hk' & E). destruct (decide (k' = k)) as [->|Hne].
      * exists k, shield'. rewrite lookup_insert_eq. split; [done|]. congruence.
      * exists k', s'. by rewrite lookup_insert_ne.
    + intros (k' & s' & Hk' & E). destruct (decide (k' = k)) as [->|Hne].
      * rewrite lookup_insert_eq in Hk'. injection Hk' as <-.
        exists k, shield. split; [done | congruence].
      * rewrite lookup_insert_ne in Hk' by done. eauto.
  - intros k1 k2 s1 s2 H1 H2 E.
    destruct (decide (k1 = k)) as [->|N1], (decide (k2 = k)) as [->|N2]; [done| | |].
    + rewrite lookup_insert_eq in H1. rewrite lookup_insert_ne in H2 by done.
      injection H1 as <-. apply (Hinj k k2 shield s2); congruence.
    + rewrite lookup_insert_eq in H2. rewrite lookup_insert_ne in H1 by done.
      injection H2 as <-. apply (Hinj k1 k s1 shield); congruence.
    + rewrite lookup_insert_ne in H1, H2 by done. eauto.
  - done.
  - rewrite Hsize.
    rewrite <- (insert_id (shieldedButtons t) k shield) at 1 by done.
    rewrite !map_size_insert. by rewrite !Hk.
Qed.

Lemma shieldsInOrder_create (t : Tab) (b : Element) :
  shieldedButtons t !! el_id b = None → shieldsInOrder t →
  shieldsInOrder (set_shieldedButtons
                    (<[el_id b := fst (createShield b t)]> (shieldedButtons t))
                    (snd (createShield b t))).
Proof.
  intros Hk (Hatt & Hinj & Hlt & Hsize). unfold shieldsInOrder. simpl.
  assert (Hfresh : ∀ k s, shieldedButtons t !! k = Some s → sh_node s ≠ nextNode t).
  { intros k s Hs E. assert (sh_node s ∈ attached t) as Hin by (apply Hatt; eauto).
    apply Hlt in Hin. lia. }
  split; [|split; [|split]].
  - intros n. rewrite elem_of_union, elem_of_singleton, Hatt. split.
    + intros [-> | (k' & s' & Hk' & E)].
      * eexists (el_id b), _. by rewrite lookup_insert_eq.
      * exists k', s'. rewrite lookup_insert_ne by congruence. done.
    + intros (k' & s' & Hk' & E). destruct (decide (k' = el_id b)) as [->|Hne].
      * rewrite lookup_insert_eq in Hk'. injection Hk' as <-. by left.
      * rewrite lookup_insert_ne in Hk' by done. right. eauto.
  - intros k1 k2 s1 s2 H1 H2 E.
    destruct (decide (k1 = el_id b)) as [->|N1], (decide (k2 = el_id b)) as [->|N2];
      [done| | |].
    + rewrite lookup_insert_eq in H1. rewrite lookup_insert_ne in H2 by done.
      injection H1 as <-. simpl in E. symmetry in E. by apply (Hfresh k2 s2) in E.
    + rewrite lookup_insert_eq in H2. rewrite lookup_insert_ne in H1 by done.
      injection H2 as <-. simpl in E. by apply (Hfresh k1 s1) in E.
    + rewrite lookup_insert_ne in H1, H2 by done. eauto.
  - intros n Hn. apply elem_of_union in Hn as [Hn|Hn].
    + apply elem_of_singleton in Hn. lia.
    + apply Hlt in Hn. lia.
  - rewrite map_size_insert_None by done.
    rewrite size_union by (apply disjoint_singleton_l; intros Hin; apply Hlt in Hin; lia).
    rewrite size_singleton. lia.
Qed.

Lemma shieldsInOrder_remove (t : Tab) : shieldsInOrder t → shieldsInOrder (removeAllShields t).
Proof.
  intros (Hatt & _ & _ & _). unfold shieldsInOrder, removeAllShields. simpl.
  assert (E : attached t ∖ shieldNodes (shieldedButtons t) = ∅).
  { apply set_eq. intros n.
    rewrite elem_of_difference, elem_of_shieldNodes, Hatt. set_solver. }
  rewrite E. split; [|split; [|split]].
  - intros n. split; [set_solver|]. intros (k & s & Hk & _). by rewrite lookup_empty in Hk.
  - intros k1 k2 s1 s2 H1. by rewrite lookup_empty in H1.
  - set_solver.
  - by rewrite size_empty, map_size_empty.
Qed.

Lemma shieldsInOrder_shieldButton (t : Tab) (b : Element) :
  shieldsInOrder t → shieldsInOrder (shieldButton t b).
Proof.
  intros H.
  destruct (shieldButton_cases t b) as [(s & E & ->) | [(_ & _ & ->) | (E & _ & ->)]].
  - apply (shieldsInOrder_update t _ s); [done | | done].
    unfold placedShield. by destruct (zeroArea _).
  - done.
  - by apply shieldsInOrder_create.
Qed.

Lemma shieldsInOrder_shield (t : Tab) :
  shieldsInOrder t → shieldsInOrder (shieldPurchaseButtons t).
Proof.
  unfold shieldPurchaseButtons. destruct (urlHandled t); [done|].
  generalize (findPurchaseButtons (page t)). intros l. revert t.
  induction l as [|b l IH]; intros t H; simpl; [done|].
  by apply IH, shieldsInOrder_shieldButton.
Qed.

Lemma shieldsInOrder_reposition (t : Tab) (k : nat) :
  shieldsInOrder t → shieldsInOrder (updateShieldPosition k t).
Proof.
  intros H. destruct (shieldedButtons t !! k) as [s|] eqn:E.
  - rewrite (updateShieldPosition_placed k t s E).
    apply (shieldsInOrder_update t _ s); [done | | done].
    unfold placedShield. by destruct (zeroArea _).
  - unfold updateShieldPosition. by rewrite E.
Qed.

Lemma shieldsInOrder_resize (t : Tab) : shieldsInOrder t → shieldsInOrder (onResize t).
Proof.
  unfold onResize. generalize (map fst (map_to_list (shieldedButtons t))).
  intros l. revert t. induction l as [|k l IH]; intros t H; simpl; [done|].
  by apply IH, shieldsInOrder_reposition.
Qed.

Lemma shieldsInOrder_autoDetect (t : Tab) :
  shieldsInOrder t → shieldsInOrder (autoDetectPurchaseIntent t).
Proof.
  intros H. unfold autoDetectPurchaseIntent.
  repeat match goal with |- context [if ?b then _ else _] => destruct b end; exact H.
Qed.

Lemma shieldsInOrder_step (t : Tab) (e : Event) :
  shieldsInOrder t → shieldsInOrder (step t e).
Proof.
  intros H. destruct e as [| | |b|b blocked|b|blocked|m|p|ms]; simpl.
  - by apply shieldsInOrder_shield, shieldsInOrder_autoDetect.
  - unfold onPoll. destruct (bool_decide _); [done|].
    apply shieldsInOrder_shield, shieldsInOrder_autoDetect.
    by apply (shieldsInOrder_remove (set_handledUrl None (set_lastUrl _ t))).
  - by apply shieldsInOrder_resize.
  - destruct (clickable b t); [|done]. unfold shieldClick.
    destruct (overlayActive t || urlHandled t); [done|].
    destruct (isSuppressed t); [|exact H].
    by apply (shieldsInOrder_remove t).
  - unfold shieldReply. destruct blocked; [exact H|].
    by apply (shieldsInOrder_remove t).
  - by apply (shieldsInOrder_remove t).
  - unfold autoReply. by destruct blocked.
  - destruct m; simpl.
    + exact H.
    + destruct (pendingButton t);
        by apply (shieldsInOrder_remove (setSuppression (set_overlayActive false t))).
    + by apply (shieldsInOrder_remove (set_overlayActive false t)).
  - exact H.
  - exact H.
Qed.

(** X1. From the load of a page on, whatever happens, the shield divs in
    the document are exactly those of the registry, one for each shielded
    button: no div is left behind and none is shared. *)
Theorem shields_in_order_always
    (p : Page) (time : Z) (session : option Z) (events : list Event) :
  shieldsInOrder (run (load p time session) events).
Proof.
  assert (H0 : shieldsInOrder (load p time session)).
  { apply shieldsInOrder_shield, shieldsInOrder_autoDetect.
    unfold shieldsInOrder, fresh. simpl. split; [|split; [|split]].
    - intros n. split; [set_solver|]. intros (k & s & Hk & _). by rewrite lookup_empty in Hk.
    - intros k1 k2 s1 s2 H1. by rewrite lookup_empty in H1.
    - set_solver.
    - reflexivity. }
  unfold run. generalize (load p time session) H0. clear H0.
  induction events as [|e events IH]; intros t H; simpl; [done|].
  by apply IH, shieldsInOrder_step.
Qed.

End ShieldRegistry.

(** ** Resize, navigation and handled pages *)

Section Observers.
Import Detector.

Lemma apartFromShields_refl t : apartFromShields t t.
Proof. by repeat split. Qed.

Lemma apartFromShields_trans t1 t2 t3 :
  apartFromShields t1 t2 → apartFromShields t2 t3 → apartFromShields t1 t3.
Proof.
  unfold apartFromShields.
  intros (?&?&?&?&?&?&?&?&?&?) (?&?&?&?&?&?&?&?&?&?). repeat split; congruence.
Qed.

Lemma shieldButton_apart t b : apartFromShields t (shieldButton t b).
Proof.
  destruct (shieldButton_cases t b) as [(s & _ & ->) | [(_ & _ & ->) | (_ & _ & ->)]];
    by repeat split.
Qed.

Lemma shieldPurchaseButtons_apart t : apartFromShields t (shieldPurchaseButtons t).
Proof.
  unfold shieldPurchaseButtons. destruct (urlHandled t); [apply apartFromShields_refl|].
  generalize (findPurchaseButtons (page t)). intros l. revert t.
  induction l as [|b l IH]; intros t; simpl; [apply apartFromShields_refl|].
  eapply apartFromShields_trans; [apply shieldButton_apart | apply IH].
Qed.


Lemma updateShieldPosition_apart k t : apartFromShields t (updateShieldPosition k t).
Proof.
  unfold updateShieldPosition.
  destruct (shieldedButtons t !! k); [|apply apartFromShields_refl].
  destruct (zeroArea _); by repeat split.
Qed.

(** The automatic detection touches the debounce stamp and the outbox
    only. *)
Lemma autoDetect_frame t :
  handledUrl (autoDetectPurchaseIntent t) = handledUrl t
  ∧ page (autoDetectPurchaseIntent t) = page t
  ∧ shieldedButtons (autoDetectPurchaseIntent t) = shieldedButtons t
  ∧ attached (autoDetectPurchaseIntent t) = attached t
  ∧ lastUrl (autoDetectPurchaseIntent t) = lastUrl t
  ∧ clicked (autoDetectPurchaseIntent t) = clicked t
  ∧ overlayActive (autoDetectPurchaseIntent t) = overlayActive t
  ∧ pendingButton (autoDetectPurchaseIntent t) = pendingButton t.
Proof.
  unfold autoDetectPurchaseIntent.
  repeat match goal with |- context [if ?b then _ else _] => destruct b end;
    by repeat split.
Qed.

Lemma updateShieldPosition_lookup (k j : nat) (t : Tab) :
  shieldedButtons (updateShieldPosition k t) !! j =
    if decide (j = k) then placedShield (page t) k <$> shieldedButtons t !! k
    else shieldedButtons t !! j.
Proof.
  destruct (shieldedButtons t !! k) as [s|] eqn:E.
  - rewrite (updateShieldPosition_placed k t s E). simpl.
    destruct (decide (j = k)) as [->|Hne].
    + by rewrite lookup_insert_eq.
    + by rewrite lookup_insert_ne.
  - unfold updateShieldPosition. rewrite E.
    destruct (decide (j = k)) as [->|Hne]; [by rewrite E | done].
Qed.

Lemma reposition_all_lookup (l : list nat) (t : Tab) (j : nat) :
  NoDup l →
  shieldedButtons (fold_left (λ t k, updateShieldPosition k t) l t) !! j =
    if decide (j ∈ l) then placedShield (page t) j <$> shieldedButtons t !! j
    else shieldedButtons t !! j.
Proof.
  revert t. induction l as [|k l IH]; intros t Hnd; cbn [fold_left].
  - destruct (decide (j ∈ [])) as [Hin|]; [|done]. by apply elem_of_nil in Hin.
  - apply NoDup_cons in Hnd as [Hk Hl]. rewrite IH by done.
    destruct (updateShieldPosition_apart k t) as (_&_&_&_&_&Hp&_). rewrite Hp.
    rewrite updateShieldPosition_lookup.
    destruct (decide (j = k)) as [->|Hne].
    + destruct (decide (k ∈ l)); [done|].
      destruct (decide (k ∈ k :: l)) as [|Hn]; [done|].
      exfalso. apply Hn. by left.
    + destruct (decide (j ∈ l)) as [Hin|Hin], (decide (j ∈ k :: l)) as [Hin'|Hin'];
        try done.
      * exfalso. apply Hin'. by right.
      * exfalso. apply elem_of_cons in Hin' as [?|?]; done.
Qed.

Lemma reposition_all_apart (l : list nat) (t : Tab) :
  apartFromShields t (fold_left (λ t k, updateShieldPosition k t) l t)
  ∧ attached (fold_left (λ t k, updateShieldPosition k t) l t) = attached t.
Proof.
  revert t. induction l as [|k l IH]; intros t; simpl.
  - split; [apply apartFromShields_refl | done].
  - destruct (IH (updateShieldPosition k t)) as [Ha He]. split.
    + eapply apartFromShields_trans; [apply updateShieldPosition_apart | exact Ha].
    + rewrite He. unfold updateShieldPosition.
      destruct (shieldedButtons t !! k); [|done]. by destruct (zeroArea _).
Qed.

(** X2. On a resize every registered shield is put in place over its
    button, or hidden when the button has no area; no shield is removed or
    added, no div is touched, and nothing else in the tab changes. *)
Theorem resize_places_every_shield (t : Tab) :
  shieldedButtons (onResize t)
    = map_imap (λ k shield, Some (placedShield (page t) k shield)) (shieldedButtons t)
  ∧ dom (shieldedButtons (onResize t)) = dom (shieldedButtons t)
  ∧ attached (onResize t) = attached t
  ∧ apartFromShields t (onResize t).
Proof.
  assert (Hl : ∀ j, shieldedButtons (onResize t) !! j
                    = placedShield (page t) j <$> shieldedButtons t !! j).
  { intros j. unfold onResize.
    change (map fst (map_to_list (shieldedButtons t)))
      with ((map_to_list (shieldedButtons t)).*1).
    rewrite reposition_all_lookup by apply NoDup_fst_map_to_list.
    destruct (decide _) as [|Hn]; [done|].
    destruct (shieldedButtons t !! j) as [s|] eqn:E; [|done].
    exfalso. apply Hn. apply list_elem_of_fmap. exists (j, s).
    split; [done | by apply elem_of_map_to_list]. }
  split; [|split; [|split]].
  - apply map_eq. intros j. rewrite Hl, map_lookup_imap.
    by destruct (shieldedButtons t !! j).
  - apply set_eq. intros j. rewrite !elem_of_dom, Hl.
    destruct (shieldedButtons t !! j); simpl; split; intros [? ?]; eauto; done.
  - apply reposition_all_apart.
  - apply reposition_all_apart.
Qed.

(** X3. The poller does nothing while the URL is the one it knows.  After
    a URL change it forgets the handled URL and the registry holds a shield
    for exactly the visible purchase buttons of the new document, nothing of
    the old one. *)
Theorem poll_after_url_change (t : Tab) :
  (href (page t) = lastUrl t → onPoll t = t)
  ∧ (href (page t) ≠ lastUrl t →
     lastUrl (onPoll t) = href (page t)
     ∧ handledUrl (onPoll t) = None
     ∧ page (onPoll t) = page t
     ∧ dom (shieldedButtons (onPoll t)) = list_to_set (el_id <$> visibleButtons (page t))).
Proof.
  unfold onPoll. split.
  - intros E. by rewrite bool_decide_eq_true_2.
  - intros E. rewrite bool_decide_eq_false_2 by done.
    set (t0 := removeAllShields (set_handledUrl None (set_lastUrl (href (page t)) t))).
    destruct (autoDetect_frame t0) as (Hh & Hp & Hm & _ & Hl & _).
    destruct (shieldPurchaseButtons_apart (autoDetectPurchaseIntent t0))
      as (Hh' & _ & _ & _ & Hl' & Hp' & _).
    rewrite Hl', Hl, Hh', Hh, Hp', Hp. repeat split.
    assert (Hu : urlHandled (autoDetectPurchaseIntent t0) = false).
    { unfold urlHandled. rewrite Hh. by apply bool_decide_eq_false_2. }
    unfold shieldPurchaseButtons. rewrite Hu.
    rewrite fold_dom, Hm, Hp. subst t0. cbn [removeAllShields shieldedButtons
      set_shieldedButtons set_attached set_handledUrl set_lastUrl page].
    rewrite dom_empty_L. unfold visibleButtons. set_solver.
Qed.

(** On the checkout page reached from the product page, the poller
    shields the "Place your order" button of the new page. *)
Lemma poll_after_url_change_witness :
  dom (shieldedButtons
         (onPoll (set_page Examples.checkoutPage (load Examples.shopPage 0 None))))
  = list_to_set (el_id <$> visibleButtons Examples.checkoutPage).
Proof.
  destruct (poll_after_url_change
              (set_page Examples.checkoutPage (load Examples.shopPage 0 None)))
    as (_ & H).
  destruct H as (_ & _ & _ & H); [vm_compute; discriminate | exact H].
Defined.

End Observers.

(** ** Handled pages, the messages of a tab and the debounce *)

Section TabTraces.
Import Detector.

Lemma set_now_id (t : Tab) : set_now (now t) t = t.
Proof. by destruct t. Qed.

Lemma quiet_step (t : Tab) (e : Event) :
  urlHandled t = true → lastUrl t = href (page t) → shieldedButtons t = ∅ →
  onSamePage e → step t e = set_now (now t + elapsed [e]) t.
Proof.
  intros Hh Hl Hm He. destruct e as [| | |b|b blocked|b|blocked|m|p|ms]; try done;
    simpl; rewrite ?Z.add_0_r, ?set_now_id.
  - unfold onMutation. rewrite autoDetect_handled by done.
    unfold shieldPurchaseButtons. by rewrite Hh.
  - unfold onPoll. by rewrite bool_decide_eq_true_2.
  - unfold onResize. by rewrite Hm, map_to_list_empty.
  - unfold clickable. by rewrite Hm, lookup_empty.
  - done.
Qed.

Lemma quiet_run (events : list Event) (t : Tab) :
  urlHandled t = true → lastUrl t = href (page t) → shieldedButtons t = ∅ →
  Forall onSamePage events → run t events = set_now (now t + elapsed events) t.
Proof.
  unfold run. revert t.
  induction events as [|e events IH]; intros t Hh Hl Hm He; simpl.
  - by rewrite Z.add_0_r, set_now_id.
  - apply Forall_cons in He as [He Hes].
    rewrite (quiet_step t e) by done.
    rewrite IH by done.
    transitivity (set_now (now t + elapsed [e] + elapsed events) t); [reflexivity|].
    apply (f_equal (λ v, set_now v t)). simpl. destruct e; lia.
Qed.

(** X4. Once the user has answered the prompt (override or reset) on a
    page whose URL the poller knows, the page is left alone: mutations,
    polls, resizes, clicks and the passing of time change nothing but the
    clock; no message is sent, no button is clicked and no shield comes
    back, until the URL changes. *)
Theorem handled_page_left_alone (t : Tab) (m : TabMessage) (events : list Event) :
  m ≠ SHOW_OVERLAY →
  lastUrl t = href (page t) →
  Forall onSamePage events →
  run (onMessage m t) events
    = set_now (now (onMessage m t) + elapsed events) (onMessage m t)
  ∧ sent (run (onMessage m t) events) = sent (onMessage m t)
  ∧ clicked (run (onMessage m t) events) = clicked (onMessage m t)
  ∧ shieldedButtons (run (onMessage m t) events) = ∅.
Proof.
  intros Hm Hl He.
  assert (H : urlHandled (onMessage m t) = true ∧ lastUrl (onMessage m t) = href (page (onMessage m t))
              ∧ shieldedButtons (onMessage m t) = ∅).
  { destruct m; [done| |]; simpl.
    - destruct (pendingButton t); simpl; unfold urlHandled; simpl;
        by rewrite bool_decide_eq_true_2.
    - unfold urlHandled; simpl. by rewrite bool_decide_eq_true_2. }
  destruct H as (H1 & H2 & H3).
  rewrite (quiet_run events (onMessage m t)) by done. by repeat split.
Qed.

(** The user dismisses the prompt on the product page; the page then
    mutates, time passes, the button area is clicked, the poller and a
    resize fire: nothing is sent and nothing is clicked. *)
Lemma handled_page_left_alone_witness :
  sent (run (onMessage RESET_DETECTION (load Examples.shopPage 0 None))
            [Mutation; Elapses 5000; ShieldClick Examples.buyNow; Poll; Resize])
    = sent (onMessage RESET_DETECTION (load Examples.shopPage 0 None))
  ∧ clicked (run (onMessage RESET_DETECTION (load Examples.shopPage 0 None))
               [Mutation; Elapses 5000; ShieldClick Examples.buyNow; Poll; Resize])
    = clicked (onMessage RESET_DETECTION (load Examples.shopPage 0 None)).
Proof.
  destruct (handled_page_left_alone (load Examples.shopPage 0 None) RESET_DETECTION
              [Mutation; Elapses 5000; ShieldClick Examples.buyNow; Poll; Resize])
    as (_ & H1 & H2 & _).
  - discriminate.
  - vm_compute. reflexivity.
  - repeat constructor.
  - split; [exact H1 | exact H2].
Defined.

Lemma product_wellFormed (p : Page) (site : jsstring) (confidence : Z) :
  60 <= confidence <= 100 →
  wellFormed (PURCHASE_DETECTED (extractProductInfo p) site confidence).
Proof.
  intros Hc. unfold wellFormed, extractProductInfo. cbn [name price category].
  split; [done|]. split; [|split; [apply findPrice_nonneg | done]].
  pose proof (extractName_nonempty p) as Hn. unfold slice0. split.
  - destruct (extractName p); [done | simpl; lia].
  - apply firstn_le_length.
Qed.

Lemma totalScore_le_100 (p : Page) : totalScore p <= 100.
Proof.
  unfold totalScore.
  pose proof (getUrlScore_cases p). pose proof (getButtonScore_cases p).
  pose proof (getDomScore_bounds p). lia.
Qed.

Lemma autoDetect_sent (t : Tab) :
  (sent (autoDetectPurchaseIntent t) = sent t
   ∧ lastAutoDetection (autoDetectPurchaseIntent t) = lastAutoDetection t)
  ∨ (60 <= totalScore (page t)
     ∧ sent (autoDetectPurchaseIntent t) = sent t ++ [autoMessage t]
     ∧ lastAutoDetection (autoDetectPurchaseIntent t) = now t).
Proof.
  unfold autoDetectPurchaseIntent.
  destruct (urlHandled t); [by left|]. destruct (isSuppressed t); [by left|].
  destruct (_ <? AUTO_DETECT_DEBOUNCE_MS); [by left|].
  destruct (60 <=? totalScore (page t)) eqn:E; [|by left].
  right. apply Z.leb_le in E. done.
Qed.

Lemma autoDetect_wellFormed (t : Tab) :
  Forall wellFormed (sent t) → Forall wellFormed (sent (autoDetectPurchaseIntent t)).
Proof.
  intros H. destruct (autoDetect_sent t) as [[-> _] | (Hs & -> & _)]; [done|].
  apply Forall_app. split; [done|]. constructor; [|constructor].
  apply product_wellFormed. split; [done | apply totalScore_le_100].
Qed.

Lemma shield_sent (t : Tab) : sent (shieldPurchaseButtons t) = sent t.
Proof. by destruct (shieldPurchaseButtons_apart t) as (_&_&_&_&_&_&_&_&?&_). Qed.

Lemma onResize_sent (t : Tab) :
  sent (onResize t) = sent t ∧ lastAutoDetection (onResize t) = lastAutoDetection t.
Proof.
  unfold onResize.
  by destruct (reposition_all_apart (map fst (map_to_list (shieldedButtons t))) t)
    as [(_&_&_&?&_&_&_&_&?&_) _].
Qed.

Lemma step_wellFormed (t : Tab) (e : Event) :
  Forall wellFormed (sent t) → Forall wellFormed (sent (step t e)).
Proof.
  intros H. destruct e as [| | |b|b blocked|b|blocked|m|p|ms]; simpl.
  - unfold onMutation. rewrite shield_sent. by apply autoDetect_wellFormed.
  - unfold onPoll. destruct (bool_decide _); [done|].
    rewrite shield_sent. by apply autoDetect_wellFormed.
  - by rewrite (proj1 (onResize_sent t)).
  - destruct (clickable b t); [|done]. unfold shieldClick.
    destruct (overlayActive t || urlHandled t); [done|].
    destruct (isSuppressed t); [done|].
    unfold handleShieldClick, send. cbn [sent set_sent set_pendingButton page].
    apply Forall_app. split; [done|]. constructor; [|constructor].
    apply product_wellFormed. lia.
  - unfold shieldReply. by destruct blocked.
  - done.
  - unfold autoReply. by destruct blocked.
  - destruct m; simpl; [done| |done]. by destruct (pendingButton t).
  - done.
  - done.
Qed.

(** X5. Every detection that a tab ever sends carries a confidence between
    60 and 100, a product name of 1 to 200 characters, a price that is not
    negative and the category "general"; so the coordinator never refuses
    a detection of the script for low confidence. *)
Theorem script_detections_well_formed
    (p : Page) (time : Z) (session : option Z) (events : list Event) (m : Message) :
  m ∈ sent (run (load p time session) events) →
  wellFormed m
  ∧ ∀ env st,
      snd (Background.handlePurchaseDetected env st (toDetected m))
      ≠ Background.NotBlocked Background.low_confidence.
Proof.
  intros Hin.
  assert (H : Forall wellFormed (sent (run (load p time session) events))).
  { assert (H0 : Forall wellFormed (sent (load p time session))).
    { unfold load. rewrite shield_sent. apply autoDetect_wellFormed. constructor. }
    unfold run. generalize (load p time session) H0. clear.
    induction events as [|e events IH]; intros t H; simpl; [done|].
    by apply IH, step_wellFormed. }
  rewrite Forall_forall in H. specialize (H m Hin). split; [done|].
  intros env st. destruct m as [product site confidence]. destruct H as [Hc _].
  unfold Background.handlePurchaseDetected. cbn [toDetected Background.confidence].
  destruct (negb _); [done|]. destruct (Background.quiet env st); [done|].
  destruct (Background.siteRefused _ _); [done|].
  destruct (confidence <? 50) eqn:E; [apply Z.ltb_lt in E; lia|].
  by destruct (Api.callProxyAPI _ _ _ _) as [? [? ?]].
Qed.

(** The detection that the checkout page sends when it loads. *)
Lemma script_detections_well_formed_witness :
  wellFormed (autoMessage (load Examples.checkoutPage 5000 None)).
Proof.
  apply (script_detections_well_formed Examples.checkoutPage 5000 None []
           (autoMessage (load Examples.checkoutPage 5000 None))).
  vm_compute. left.
Defined.

Lemma elapsed_nonneg (events : list Event) : 0 <= elapsed events.
Proof. induction events as [|e events IH]; simpl; [done|]. destruct e; lia. Qed.

Lemma autoDetect_debounced (t : Tab) :
  now t - lastAutoDetection t < AUTO_DETECT_DEBOUNCE_MS → autoDetectPurchaseIntent t = t.
Proof.
  intros H. unfold autoDetectPurchaseIntent. apply Z.ltb_lt in H. rewrite H.
  by destruct (urlHandled t), (isSuppressed t).
Qed.

Lemma debounced_step (t : Tab) (e : Event) :
  noShieldClick e →
  now t - lastAutoDetection t + elapsed [e] < AUTO_DETECT_DEBOUNCE_MS →
  sent (step t e) = sent t ∧ lastAutoDetection (step t e) = lastAutoDetection t.
Proof.
  intros He Hd. pose proof (elapsed_nonneg [e]) as Hn.
  destruct e as [| | |b|b blocked|b|blocked|m|p|ms]; try done; simpl in *.
  - unfold onMutation. rewrite autoDetect_debounced by lia.
    by destruct (shieldPurchaseButtons_apart t) as (_&_&_&?&_&_&_&_&?&_).
  - unfold onPoll. destruct (bool_decide _); [done|].
    rewrite autoDetect_debounced by (simpl; lia).
    by destruct (shieldPurchaseButtons_apart
                   (removeAllShields (set_handledUrl None (set_lastUrl (href (page t)) t))))
      as (_&_&_&?&_&_&_&_&?&_).
  - apply onResize_sent.
  - unfold shieldReply. by destruct blocked.
  - unfold autoReply. by destruct blocked.
  - destruct m; simpl; [done| |done]. by destruct (pendingButton t).
Qed.

Lemma debounced_run (events : list Event) (t : Tab) :
  Forall noShieldClick events →
  now t - lastAutoDetection t + elapsed events < AUTO_DETECT_DEBOUNCE_MS →
  sent (run t events) = sent t.
Proof.
  unfold run. revert t.
  induction events as [|e events IH]; intros t He Hd; simpl; [done|].
  apply Forall_cons in He as [He Hes].
  pose proof (elapsed_nonneg events) as Hn.
  assert (He' : elapsed (e :: events) = elapsed [e] + elapsed events)
    by (simpl; destruct e; lia).
  destruct (debounced_step t e He) as [Hs Hl]; [lia|].
  rewrite IH; [done | done |].
  rewrite Hl. destruct (step_clock t e) as [-> _]. lia.
Qed.

(** X6. Debounce. After an automatic detection has sent, nothing but a
    click on a shield makes the script send again before 2000 ms have
    passed, whatever the observers, the replies and the messages do. *)
Theorem nothing_sent_within_debounce (t : Tab) (events : list Event) :
  sent (autoDetectPurchaseIntent t) ≠ sent t →
  Forall noShieldClick events →
  elapsed events < 2000 →
  sent (run (autoDetectPurchaseIntent t) events) = sent (autoDetectPurchaseIntent t).
Proof.
  intros Hs He Ht. apply debounced_run; [done|].
  destruct (autoDetect_sent t) as [[E _] | (_ & _ & ->)]; [done|].
  assert (now (autoDetectPurchaseIntent t) = now t) as ->.
  { unfold autoDetectPurchaseIntent.
    repeat match goal with |- context [if ?b then _ else _] => destruct b end; done. }
  unfold AUTO_DETECT_DEBOUNCE_MS. lia.
Qed.

(** The cart page has just sent its detection; it mutates, 1500 ms pass,
    the poller fires and the page has moved on to the checkout URL: no
    second detection yet. *)
Lemma nothing_sent_within_debounce_witness :
  sent (run (autoDetectPurchaseIntent (fresh Examples.cartPage 5000 None))
            [Mutation; Elapses 1500; Shows Examples.checkoutPage; Poll])
  = sent (autoDetectPurchaseIntent (fresh Examples.cartPage 5000 None)).
Proof.
  apply nothing_sent_within_debounce.
  - vm_compute. discriminate.
  - repeat constructor.
  - vm_compute. reflexivity.
Defined.

End TabTraces.

(** ** The title and the price text *)

Section Scraping.
Import Detector.

Lemma separator_not_space (c : N) : isTitleSeparator c = true → isSpace c = false.
Proof.
  unfold isTitleSeparator. rewrite !orb_true_iff, !N.eqb_eq.
  intros [[[[->| ->]| ->]| ->]| ->]; reflexivity.
Qed.

Lemma titleTailMatches_space (c : N) (s : jsstring) :
  isSpace c = true → titleTailMatches (c :: s) = titleTailMatches s.
Proof. intros H. unfold titleTailMatches. simpl. by rewrite H. Qed.

(** No match starts inside a stretch without separators that ends with a
    character other than white space. *)
Lemma no_match_inside (a rest : jsstring) :
  Forall (λ c, isTitleSeparator c = false) a →
  (∃ c, last a = Some c ∧ isSpace c = false) →
  titleTailMatches (a ++ rest) = false.
Proof.
  induction a as [|x a IH]; intros Hs (c & Hl & Hc); [done|].
  apply Forall_cons in Hs as [Hx Hs].
  destruct (isSpace x) eqn:Ex.
  - simpl. rewrite titleTailMatches_space by done.
    destruct a as [|y a]; [simpl in Hl; congruence|].
    apply IH; [done|]. exists c. split; [|done]. by rewrite last_cons_cons in Hl.
  - unfold titleTailMatches. simpl. by rewrite Ex, Hx.
Qed.

Lemma dropWhile_app_all {A} (f : A → bool) (a rest : list A) :
  Forall (λ c, f c = true) a → dropWhile f (a ++ rest) = dropWhile f rest.
Proof. induction 1 as [|x a Hx Ha IH]; simpl; [done|]. by rewrite Hx. Qed.


(** X7. The title is cut at its first separator (hyphen, bar, dash, colon),
    together with the white space before it: what is kept is the part
    before, provided that part does not end in white space and no line
    terminator follows the separator.  A title without a separator is kept
    whole, and what is kept is always a prefix of the title. *)
Theorem cleanTitle_cuts_at_first_separator :
  (∀ (before spaces after : jsstring) (separator : N),
     Forall (λ c, isTitleSeparator c = false) before →
     (∀ c, last before = Some c → isSpace c = false) →
     Forall (λ c, isSpace c = true) spaces →
     isTitleSeparator separator = true →
     Forall (λ c, isLineTerminator c = false) after →
     cleanTitle (before ++ spaces ++ separator :: after) = before)
  ∧ (∀ s, Forall (λ c, isTitleSeparator c = false) s → cleanTitle s = s)
  ∧ (∀ s, ∃ rest, s = cleanTitle s ++ rest).
Proof.
  split; [|split].
  - intros before spaces after separator Hb Hl Hs Hsep Ha.
    induction before as [|x before IH].
    + simpl. assert (titleTailMatches (spaces ++ separator :: after) = true) as Hm.
      { unfold titleTailMatches. rewrite dropWhile_app_all by done. simpl.
        rewrite (separator_not_space _ Hsep), Hsep. simpl.
        apply forallb_forall. intros d Hd. rewrite Forall_forall in Ha.
        apply list_elem_of_In in Hd. by rewrite (Ha d Hd). }
      destruct (spaces ++ separator :: after) eqn:E; [by destruct spaces|].
      cbn [cleanTitle]. by rewrite Hm.
    + apply Forall_cons in Hb as [Hx Hb].
      cbn [app cleanTitle].
      change (x :: before ++ spaces ++ separator :: after)
        with ((x :: before) ++ spaces ++ separator :: after).
      rewrite no_match_inside; [| by constructor |].
      * f_equal. apply IH; [done|].
        intros c Hc. apply Hl. destruct before; [done|]. by rewrite last_cons_cons.
      * destruct (last (x :: before)) as [c|] eqn:E; [eauto|].
        by apply last_None in E.
  - intros s Hs. induction Hs as [|x s Hx Hs IH]; [done|].
    cbn [cleanTitle].
    assert (titleTailMatches (x :: s) = false) as ->.
    { unfold titleTailMatches.
      assert (Forall (λ c, isTitleSeparator c = false) (dropWhile isSpace (x :: s))) as Hd.
      { generalize (Forall_cons_2 _ _ _ Hx Hs). generalize (x :: s). clear.
        induction 1 as [|y l Hy Hl IH]; simpl; [constructor|].
        destruct (isSpace y); [done | by constructor]. }
      destruct (dropWhile isSpace (x :: s)) as [|c r]; [done|].
      apply Forall_cons in Hd as [-> _]. done. }
    by rewrite IH.
  - intros s. induction s as [|x s (rest & IH)].
    + exists []. simpl. by destruct (titleTailMatches []).
    + cbn [cleanTitle]. destruct (titleTailMatches (x :: s)).
      * by exists (x :: s).
      * exists rest. simpl. by rewrite <- IH.
Qed.

(** "Espresso machine : Amazon.com" keeps "Espresso machine". *)
Lemma cleanTitle_cuts_at_first_separator_witness :
  cleanTitle (str "Espresso machine" ++ str " " ++ 58%N :: str " Amazon.com")
  = str "Espresso machine".
Proof.
  destruct cleanTitle_cuts_at_first_separator as (H & _).
  apply H.
  - apply Forall_forall. intros c Hc. apply list_elem_of_In in Hc.
    vm_compute in Hc. repeat (destruct Hc as [<-|Hc]; [reflexivity|]). done.
  - intros c Hc. vm_compute in Hc. injection Hc as <-. reflexivity.
  - repeat constructor.
  - reflexivity.
  - apply Forall_forall. intros c Hc. apply list_elem_of_In in Hc.
    vm_compute in Hc. repeat (destruct Hc as [<-|Hc]; [reflexivity|]). done.
Defined.









End Scraping.

(** ** Saving for later and the reminder *)

Section Reminder.
Import Storage Worker.

Lemma startsWith_app (p s : jsstring) : startsWith p (p ++ s) = true.
Proof. induction p as [|x p IH]; simpl; [done|]. by rewrite N.eqb_refl. Qed.

Lemma removeOccurrence_eq (p s : jsstring) :
  removeOccurrence p s
  = if startsWith p s then drop (length p) s
    else match s with [] => [] | x :: s' => x :: removeOccurrence p s' end.
Proof. by destruct s. Qed.

(** The name of an alarm gives back the identifier it was made from,
    whatever the identifier contains. *)
Lemma removeOccurrence_alarmName (id : jsstring) :
  removeOccurrence ALARM_PREFIX (alarmName id) = id.
Proof.
  unfold alarmName. rewrite removeOccurrence_eq, startsWith_app.
  by rewrite drop_app_length.
Qed.

Lemma find_fresh (id : jsstring) (items : list CoolingOffItem) (item : CoolingOffItem) :
  Forall (λ i, item_id i ≠ id) items →
  item_id item = id →
  find (λ i, bool_decide (item_id i = id)) (items ++ [item]) = Some item.
Proof.
  intros Hfresh Hid. induction Hfresh as [|x items Hx _ IH]; simpl.
  - by rewrite bool_decide_eq_true_2.
  - by rewrite bool_decide_eq_false_2.
Qed.

(** X9. An item saved for later under an identifier that no item of the
    list has yet: its alarm is scheduled 48 hours after the last reading of
    the clock, under a name from which the listener recovers the
    identifier; when that alarm fires, the user is reminded of this very
    product if notifications are on, and nothing happens if they are off.
    An alarm whose name does not start with the prefix does nothing. *)
Theorem saved_item_is_reminded
    (env : Api.Env) (clock : Readings) (st : Store) (b : Browser)
    (product : SavedProduct) :
  Forall (λ i, item_id i ≠ Api.randomUUID env) (coolingOffList b) →
  let b' := fst (handleSaveForLater env clock b product) in
  let item := snd (handleSaveForLater env clock b product) in
  coolingOffList b' = coolingOffList b ++ [item]
  ∧ item_product item = product
  ∧ expiresAt item = atExpiry clock + 172800000
  ∧ alarms b' !! alarmName (item_id item) = Some (atAlarm clock + 172800000)
  ∧ onAlarm st b' (alarmName (item_id item))
    = (if wantsNotifications st then notified (reminder item) b' else b')
  ∧ n_message (reminder item)
    = str "Your 48-hour cooling off period for " ++ [34%N] ++ sp_name product
      ++ [34%N] ++ str " has ended."
  ∧ ∀ name, startsWith ALARM_PREFIX name = false → onAlarm st b' name = b'.
Proof.
  intros Hfresh. cbn zeta. cbn [handleSaveForLater fst snd].
  repeat split.
  - cbn [alarms item_id]. by rewrite lookup_insert_eq.
  - unfold onAlarm. cbn [item_id coolingOffList].
    unfold alarmName at 1. rewrite startsWith_app, removeOccurrence_alarmName.
    rewrite find_fresh by done.
    unfold wantsNotifications, notified.
    destruct (settings st) as [s|]; [|done]. simpl. by destruct (Storage.notifications s).
  - intros name Hname. unfold onAlarm. by rewrite Hname.
Qed.

(** The espresso machine, saved at noon with notifications on. *)
Lemma saved_item_is_reminded_witness :
  notifications
    (onAlarm Examples.installed
       (fst (handleSaveForLater Examples.noonOutage Scenarios.threeReadings
               Scenarios.emptyBrowser Scenarios.savedEspresso))
       (alarmName (Api.randomUUID Examples.noonOutage)))
  = [reminder (snd (handleSaveForLater Examples.noonOutage Scenarios.threeReadings
                      Scenarios.emptyBrowser Scenarios.savedEspresso))].
Proof.
  destruct (saved_item_is_reminded Examples.noonOutage Scenarios.threeReadings
              Examples.installed Scenarios.emptyBrowser Scenarios.savedEspresso)
    as (_ & _ & _ & _ & H & _).
  - constructor.
  - cbn [handleSaveForLater snd item_id] in H. cbn [handleSaveForLater snd item_id].
    rewrite H. reflexivity.
Defined.

End Reminder.

(** ** A shield click and the answer of the worker *)

Section Handshake.
Import Storage Worker Detector.

Lemma detected_refused env st message :
  refuses env st (Background.site message) = true →
  ∃ reason, Background.handlePurchaseDetected env st message
            = (st, Background.NotBlocked reason).
Proof.
  unfold refuses, Background.handlePurchaseDetected. intros H.
  destruct (enabled st); simpl in *; [|eauto].
  destruct (Background.quiet env st); simpl in *; [eauto|].
  rewrite H. eauto.
Qed.

Lemma detected_blocked env st message :
  refuses env st (Background.site message) = false →
  50 <= Background.confidence message →
  ∃ st1 response rateLimit,
    Api.callProxyAPI env st (Background.product message) Api.noPartial
    = (st1, (response, rateLimit))
    ∧ Background.handlePurchaseDetected env st message
      = (set_purchaseHistory
           (purchaseHistory st ++ [Background.pendingEntry env message response]) st1,
         Background.Blocked (Api.randomUUID env) (Api.questions response)
           (Api.goalImpact response) (Api.riskLevel response) rateLimit).
Proof.
  unfold refuses, Background.handlePurchaseDetected. intros H Hc.
  destruct (enabled st); simpl in *; [|done].
  destruct (Background.quiet env st); simpl in *; [done|].
  rewrite H. destruct (Z.ltb_spec (Background.confidence message) 50); [lia|].
  pose proof (callProxyAPI_history env st (Background.product message) Api.noPartial) as Hh.
  destruct (Api.callProxyAPI env st (Background.product message) Api.noPartial)
    as [st1 [response rateLimit]].
  simpl in Hh. rewrite Hh. eauto.
Qed.

(** X10. A click on a shield, when no overlay is up, the URL is not handled
    and no override window is open, with the answer of the worker.  The
    tab sends one detection with confidence 100.  If the extension is
    disabled, the hour is quiet or the site is not enabled, the store stays
    as it was, the shields go and the button receives the click.
    Otherwise the confidence check cannot fail, the click reporting 100:
    the event is recorded as pending with the product of the page, the
    overlay is up, the URL is handled, and the button is not clicked: it is
    clicked once the user proceeds, and not at all when the user resets. *)
Theorem shield_click_answered
    (env : Api.Env) (clock : Readings) (st : Store) (b : Browser) (tab : Z)
    (button : Element) (t : Tab) :
  overlayActive t = false → urlHandled t = false → isSuppressed t = false →
  tab ≠ 0 →
  let w' := fst (clickAnswered env clock (st, b) tab button t) in
  let t' := snd (clickAnswered env clock (st, b) tab button t) in
  snd w' = b
  ∧ sent t' = sent t ++ [clickMessage t]
  ∧ if refuses env st (hostname (page t)) then
      fst w' = st
      ∧ clicked t' = clicked t ++ [el_id button]
      ∧ shieldedButtons t' = ∅
      ∧ pendingButton t' = None
      ∧ overlayActive t' = false
      ∧ handledUrl t' = handledUrl t
    else
      (∃ entry,
         purchaseHistory (fst w') = purchaseHistory st ++ [entry]
         ∧ Storage.eventId entry = Some (Api.randomUUID env)
         ∧ Storage.product entry = Some (extractProductInfo (page t))
         ∧ Storage.outcome entry = pending)
      ∧ clicked t' = clicked t
      ∧ shieldedButtons t' = shieldedButtons t
      ∧ pendingButton t' = Some (el_id button)
      ∧ overlayActive t' = true
      ∧ handledUrl t' = Some (href (page t))
      ∧ clicked (onMessage PROCEED_WITH_PURCHASE t') = clicked t ++ [el_id button]
      ∧ clicked (onMessage RESET_DETECTION t') = clicked t.
Proof.
  intros Ho Hu Hs Htab. cbn zeta.
  unfold clickAnswered, shieldClick. rewrite Ho, Hu, Hs. cbn [orb].
  unfold handleShieldClick, send.
  cbn [sent set_sent set_pendingButton page].
  rewrite drop_app_length.
  fold (clickMessage t).
  set (message := toDetected (clickMessage t)).
  unfold listener, handleMessage.
  destruct (refuses env st (hostname (page t))) eqn:Hr.
  - destruct (detected_refused env st message Hr) as (reason & ->).
    cbn [fold_left saysBlocked Background.blocked shieldReply fst snd].
    unfold removeAllShields, click.
    cbn [sent clicked shieldedButtons pendingButton overlayActive handledUrl
         set_pendingButton set_clicked set_shieldedButtons set_attached set_sent].
    by rewrite Ho.
  - destruct (detected_blocked env st message Hr) as (st1 & response & rl & _ & ->);
      [simpl; lia|].
    destruct (Z.eqb_spec tab 0) as [|_]; [done|].
    cbn [fold_left saysBlocked Background.blocked shieldReply onMessage fst snd].
    cbn [sent clicked shieldedButtons pendingButton overlayActive handledUrl page
         set_handledUrl set_overlayActive set_sent set_pendingButton].
    repeat split.
    exists (Background.pendingEntry env message response). by simpl.
Qed.

(** On the checkout page of the examples, with the store as installed at
    noon: the order button is not clicked until the user proceeds. *)
Lemma shield_click_answered_witness :
  clicked (snd (clickAnswered Examples.noonOutage Scenarios.threeReadings
                  (Examples.installed, Scenarios.emptyBrowser) 7
                  (Examples.element 1 " Place your order ")
                  (fresh Examples.checkoutPage 5000 None)))
  = [].
Proof.
  pose proof (shield_click_answered Examples.noonOutage Scenarios.threeReadings
                Examples.installed Scenarios.emptyBrowser 7
                (Examples.element 1 " Place your order ")
                (fresh Examples.checkoutPage 5000 None)) as H.
  cbn zeta in H.
  change (refuses Examples.noonOutage Examples.installed
            (hostname (page (fresh Examples.checkoutPage 5000 None))))
    with (refuses Examples.noonOutage Examples.installed (str "www.amazon.com")) in H.
  assert (refuses Examples.noonOutage Examples.installed (str "www.amazon.com") = false)
    as Hr by (by vm_compute).
  rewrite Hr in H.
  apply H; done.
Defined.

End Handshake.

(** ** The rate limit status of the client *)

Section RateLimitStatus.
Import Storage Api RateStatus.




End RateLimitStatus.

(** ** The rate limiter of the server *)

Section SlidingWindow.
Import RateLimiter.

Lemma command_up {A} (f : Kv → A * Kv) (kv : Kv) :
  command f (mkConn kv None) = (Some (f kv).1, mkConn (f kv).2 None).
Proof. reflexivity. Qed.

(** The limiter while the store is available. *)
Lemma checkRateLimit_up (now : Z) (suffix clientId : jsstring) (kv : Kv) :
  checkRateLimit now suffix clientId (mkConn kv None)
  = let key := getRateLimitKey clientId in
    let kv1 := (zremrangebyscore now key 0 (now - WINDOW_MS) kv).2 in
    let count := (zcard now key kv1).1 in
    if DAILY_LIMIT <=? count then
      (mkResult false 0 (resetOf now (zrangeFirst now key kv1).1) DAILY_LIMIT,
       mkConn kv1 None)
    else
      let kv3 := (expire now key (WINDOW_MS / 1000 + 60)
                    (zadd now key now (requestId now suffix) kv1).2).2 in
      (mkResult true (DAILY_LIMIT - (count + 1)) (resetOf now (zrangeFirst now key kv3).1)
                DAILY_LIMIT,
       mkConn kv3 None).
Proof.
  unfold checkRateLimit, attempt, bind. rewrite !command_up. cbn [fst snd].
  cbn zeta. destruct (DAILY_LIMIT <=? _); reflexivity.
Qed.

Lemma getRateLimitStatus_up (now : Z) (clientId : jsstring) (kv : Kv) :
  getRateLimitStatus now clientId (mkConn kv None)
  = let key := getRateLimitKey clientId in
    let kv1 := (zremrangebyscore now key 0 (now - WINDOW_MS) kv).2 in
    let count := (zcard now key kv1).1 in
    (mkResult (count <? DAILY_LIMIT) (Z.max 0 (DAILY_LIMIT - count))
              (resetOf now (zrangeFirst now key kv1).1) DAILY_LIMIT,
     mkConn kv1 None).
Proof. reflexivity. Qed.

Lemma filter_ext_Forall {A} (P Q : A → Prop) `{∀ x, Decision (P x)} `{∀ x, Decision (Q x)}
    (l : list A) :
  Forall (λ x, P x ↔ Q x) l → filter P l = filter Q l.
Proof.
  induction 1 as [|x l Hx _ IH]; [done|].
  rewrite !filter_cons, IH. destruct (decide (P x)), (decide (Q x)); tauto.
Qed.

Lemma filter_none {A} (P : A → Prop) `{∀ x, Decision (P x)} (l : list A) :
  Forall (λ x, ¬ P x) l → filter P l = [].
Proof.
  induction 1 as [|x l Hx _ IH]; [done|].
  rewrite filter_cons, IH. by destruct (decide (P x)).
Qed.

Lemma filter_all {A} (P : A → Prop) `{∀ x, Decision (P x)} (l : list A) :
  Forall P l → filter P l = l.
Proof.
  induction 1 as [|x l Hx _ IH]; [done|].
  rewrite filter_cons, IH. by destruct (decide (P x)).
Qed.

Lemma Forall_filter {A} (P Q : A → Prop) `{∀ x, Decision (Q x)} (l : list A) :
  Forall P l → Forall P (filter Q l).
Proof.
  rewrite !Forall_forall. intros HP x Hx.
  apply list_elem_of_filter in Hx as [_ Hx]. by apply HP.
Qed.

Lemma window_moves (t now : Z) (log : list (jsstring * Z)) :
  t <= now → filter (inWindow now) (filter (inWindow t) log) = filter (inWindow now) log.
Proof.
  intros Ht. apply list_filter_filter_l. unfold inWindow. intros p. lia.
Qed.

Lemma zrem_view (key : jsstring) (kv : Kv) (log : list (jsstring * Z)) (t now : Z) :
  limiterInv key kv log t → t <= now →
  viewAt now key (zremrangebyscore now key 0 (now - WINDOW_MS) kv).2
         (filter (inWindow now) log).
Proof.
  intros (Hlog & _ & Hkey) Ht. unfold viewAt, zremrangebyscore, live.
  rewrite <- (window_moves t now) by done.
  destruct (kv !! key) as [s|] eqn:Es.
  - destruct Hkey as (Hm & Hne & x & Hx & Hold). rewrite Hx.
    destruct (Z.leb_spec x now) as [Hexp|Hlive]; cbn [snd].
    + rewrite lookup_delete_eq. rewrite <- Hm.
      apply filter_none. eapply Forall_impl; [exact Hold|].
      unfold inWindow. intros p Hp. lia.
    + assert (filter (λ p : jsstring * Z, ¬ 0 <= p.2 <= now - WINDOW_MS) (members s)
              = filter (inWindow now) (members s)) as ->.
      { apply filter_ext_Forall. rewrite Hm. apply Forall_filter.
        eapply Forall_impl; [exact Hlog|]. unfold inWindow, WINDOW_MS.
        intros p Hp. lia. }
      rewrite <- Hm. unfold put. cbn [members].
      destruct (filter (inWindow now) (members s)) as [|p l] eqn:Ef.
      * by rewrite lookup_delete_eq.
      * rewrite lookup_insert_eq. cbn [members expiry]. split; [done|]. split; [done|].
        exists x. split; [done|]. split; [done|].
        rewrite <- Ef. by apply Forall_filter.
  - cbn [snd]. rewrite lookup_delete_eq. rewrite Hkey. done.
Qed.

Lemma zrem_other (now : Z) (key k : jsstring) (lo hi : Z) (kv : Kv) :
  k ≠ key → (zremrangebyscore now key lo hi kv).2 !! k = kv !! k.
Proof.
  intros Hk. unfold zremrangebyscore, put.
  destruct (live now kv key) as [s|]; cbn [snd members].
  - destruct (filter _ (members s)).
    + by rewrite lookup_delete_ne.
    + by rewrite lookup_insert_ne.
  - by rewrite lookup_delete_ne.
Qed.

Lemma view_live (now : Z) (key : jsstring) (kv : Kv) (recent : list (jsstring * Z)) :
  viewAt now key kv recent →
  members <$> live now kv key = (if recent is [] then None else Some recent).
Proof.
  unfold viewAt, live. destruct (kv !! key) as [s|]; [|by intros ->].
  intros (Hm & Hne & x & -> & Hx & _).
  destruct (Z.leb_spec x now); [lia|]. simpl. rewrite Hm. by destruct recent.
Qed.

Lemma minScore_In (l : list (jsstring * Z)) :
  l ≠ [] → ∃ p, p ∈ l ∧ minScore l = Some p.2.
Proof.
  destruct l as [|p l]; [done|]. intros _. unfold minScore.
  assert (∀ (scores : list Z) (a : Z),
            fold_left Z.min scores a = a ∨ fold_left Z.min scores a ∈ scores) as H.
  { induction scores as [|s scores IH]; intros a; [by left|]. simpl.
    destruct (IH (Z.min a s)) as [E|E].
    - rewrite E. destruct (Z.min_spec a s) as [[_ ->]|[_ ->]]; [by left|].
      right. constructor.
    - right. by constructor. }
  destruct (H (map snd l) p.2) as [E|E].
  - exists p. rewrite E. split; [constructor|done].
  - change (map snd l) with (snd <$> l) in E.
    apply list_elem_of_fmap in E as (q & Eq & Hq). exists q.
    split; [by constructor|]. f_equal. exact Eq.
Qed.

Lemma zcard_view (now : Z) (key : jsstring) (kv : Kv) (recent : list (jsstring * Z)) :
  viewAt now key kv recent → (zcard now key kv).1 = Z.of_nat (length recent).
Proof.
  intros Hv. apply view_live in Hv. unfold zcard. cbn [fst].
  destruct (live now kv key) as [s|], recent; simpl in Hv; try done.
  by injection Hv as ->.
Qed.

Lemma zrangeFirst_view (now : Z) (key : jsstring) (kv : Kv) (recent : list (jsstring * Z)) :
  viewAt now key kv recent → (zrangeFirst now key kv).1 = minScore recent.
Proof.
  intros Hv. apply view_live in Hv. unfold zrangeFirst. cbn [fst].
  destruct (live now kv key) as [s|], recent; simpl in Hv; try done.
  injection Hv as Hv. cbn [mbind option_bind]. by rewrite Hv.
Qed.

(** The store after a request is recorded and the key is given its time
    to live. *)
Lemma record_view (now : Z) (key member : jsstring) (kv : Kv)
    (recent : list (jsstring * Z)) :
  viewAt now key kv recent →
  Forall (λ p, p.1 ≠ member) recent →
  Forall (λ p, p.2 <= now) recent →
  viewAt now key
    (expire now key (WINDOW_MS / 1000 + 60) (zadd now key now member kv).2).2
    (recent ++ [(member, now)]).
Proof.
  intros Hv Hfresh Hold.
  change (WINDOW_MS / 1000 + 60) with 86460.
  assert (∃ s2, (zadd now key now member kv).2 !! key = Some s2
                ∧ members s2 = recent ++ [(member, now)]
                ∧ live now (zadd now key now member kv).2 key = Some s2)
    as (s2 & Hs2 & Hm2 & Hl2).
  { pose proof (view_live _ _ _ _ Hv) as Hl. unfold zadd. cbn [snd].
    unfold viewAt in Hv. unfold live in *.
    destruct (kv !! key) as [s|] eqn:Es.
    - destruct Hv as (Hm & Hne & x & Hx & Hnow & _). rewrite Hx in *.
      destruct (Z.leb_spec x now); [lia|].
      eexists. rewrite lookup_insert_eq. split; [done|]. cbn [members expiry].
      rewrite Hm, Hx, filter_all by done.
      destruct (Z.leb_spec x now); [lia|]. done.
    - eexists. rewrite lookup_insert_eq. split; [done|]. cbn [members expiry].
      by rewrite Hv. }
  unfold viewAt, expire. cbn [snd]. rewrite Hl2, lookup_insert_eq. cbn [members expiry].
  split; [done|]. split; [by destruct recent|].
  exists (now + 86460 * 1000). split; [done|]. split; [lia|].
  apply Forall_app. split.
  - eapply Forall_impl; [exact Hold|]. simpl. intros p Hp. lia.
  - repeat constructor. simpl. lia.
Qed.

Lemma record_other (now : Z) (key k member : jsstring) (seconds score : Z) (kv : Kv) :
  k ≠ key →
  (expire now key seconds (zadd now key score member kv).2).2 !! k = kv !! k.
Proof.
  intros Hk. unfold expire, zadd. cbn [snd].
  destruct (live now _ key); destruct (live now kv key);
    by rewrite ?lookup_insert_ne by done.
Qed.

(** One call, from a store that holds the requests of the window. *)
Lemma check_step (clientId : jsstring) (kv : Kv) (log : list (jsstring * Z))
    (t now : Z) (suffix : jsstring) :
  limiterInv (getRateLimitKey clientId) kv log t →
  t <= now → 0 <= now →
  requestId now suffix ∉ map fst log →
  let res := checkRateLimit now suffix clientId (mkConn kv None) in
  let recent := filter (inWindow now) log in
  outage res.2 = None
  ∧ (length recent <= 100)%nat
  ∧ allowed res.1 = bool_decide (length recent < 100)%nat
  ∧ limit res.1 = 100
  ∧ remaining res.1 = (if allowed res.1 then 100 - Z.of_nat (length recent) - 1 else 0)
  ∧ now < resetAt res.1 <= now + 86400000
  ∧ limiterInv (getRateLimitKey clientId) (store res.2)
      (if allowed res.1 then log ++ [(requestId now suffix, now)] else log) now.
Proof.
  intros Hinv Ht Hnow Hfresh. cbn zeta.
  pose proof (zrem_view _ _ _ _ _ Hinv Ht) as Hv.
  destruct Hinv as (Hlog & Hlen & _).
  assert (length (filter (inWindow now) log) <= 100)%nat as Hlen'.
  { rewrite <- (window_moves t now) by done.
    etrans; [apply length_filter|done]. }
  assert (Forall (λ p : jsstring * Z, 0 <= p.2 <= now) log) as Hlog'.
  { eapply Forall_impl; [exact Hlog|]. simpl. intros p Hp. lia. }
  assert (Forall (λ p : jsstring * Z, now - 86400000 < p.2 <= now)
                 (filter (inWindow now) log)) as Hrecent.
  { apply Forall_forall. intros p Hp. apply list_elem_of_filter in Hp as [Hw Hp].
    rewrite Forall_forall in Hlog'. specialize (Hlog' p Hp). unfold inWindow in Hw. lia. }
  rewrite checkRateLimit_up. cbn zeta.
  set (key := getRateLimitKey clientId) in *.
  set (kv1 := (zremrangebyscore now key 0 (now - WINDOW_MS) kv).2) in *.
  set (recent := filter (inWindow now) log) in *.
  rewrite (zcard_view _ _ _ _ Hv).
  unfold DAILY_LIMIT.
  destruct (Z.leb_spec 100 (Z.of_nat (length recent))) as [Hfull|Hroom]; cbn [fst snd].
  - cbn [outage allowed limit remaining resetAt store].
    rewrite bool_decide_eq_false_2 by lia.
    rewrite (zrangeFirst_view _ _ _ _ Hv).
    destruct (minScore_In recent) as (p & Hp & ->); [by destruct recent|].
    rewrite Forall_forall in Hrecent. specialize (Hrecent p Hp).
    unfold resetOf, WINDOW_MS.
    repeat split; try done; try lia.
    unfold viewAt in Hv. fold recent. destruct (kv1 !! key) as [s|]; [|done].
    destruct Hv as (Hm & Hne & x & Hx & _ & Hold).
    rewrite Hm. split; [done|]. split; [done|]. by exists x.
  - cbn [outage allowed limit remaining resetAt store].
    rewrite bool_decide_eq_true_2 by lia.
    assert (Forall (λ p : jsstring * Z, p.1 ≠ requestId now suffix) recent) as Hnew.
    { apply Forall_forall. intros p Hp Heq. apply Hfresh.
      apply list_elem_of_filter in Hp as [_ Hp].
      rewrite <- Heq. change (map fst log) with (fst <$> log).
      by apply list_elem_of_fmap_2. }
    pose proof (record_view now key (requestId now suffix) kv1 recent Hv Hnew) as Hv3.
    assert (Forall (λ p : jsstring * Z, p.2 <= now) recent) as Hle.
    { eapply Forall_impl; [exact Hrecent|]. simpl. intros p Hp. lia. }
    specialize (Hv3 Hle).
    rewrite (zrangeFirst_view _ _ _ _ Hv3).
    destruct (minScore_In (recent ++ [(requestId now suffix, now)])) as (p & Hp & ->);
      [by destruct recent|].
    assert (now - 86400000 < p.2 <= now) as Hp2.
    { apply elem_of_app in Hp as [Hp|Hp].
      - rewrite Forall_forall in Hrecent. by apply Hrecent.
      - apply list_elem_of_singleton in Hp as ->. simpl. lia. }
    unfold resetOf, WINDOW_MS.
    assert (filter (inWindow now) (log ++ [(requestId now suffix, now)])
            = recent ++ [(requestId now suffix, now)]) as Hf.
    { rewrite filter_app. f_equal. rewrite filter_cons, filter_nil.
      destruct (decide (inWindow now (requestId now suffix, now))) as [|Hn]; [done|].
      exfalso. apply Hn. unfold inWindow. simpl. lia. }
    repeat split; try done; try lia.
    + apply Forall_app. split; [done|]. repeat constructor; simpl; lia.
    + rewrite Hf, length_app. simpl. lia.
    + rewrite Hf. unfold viewAt in Hv3.
      destruct (_ !! key) as [s|]; [|by destruct recent].
      destruct Hv3 as (Hm & Hne & x & Hx & _ & Hold).
      rewrite Hm. split; [done|]. split; [done|]. by exists x.
Qed.

Lemma serve_snoc (clientId : jsstring) (history : list (Z * jsstring))
    (call : Z * jsstring) (c : Conn) :
  serve clientId (history ++ [call]) c
  = let e := serve clientId history c in
    let r := checkRateLimit call.1 call.2 clientId e.2 in
    (e.1 ++ [r.1], r.2).
Proof.
  revert c. induction history as [|x history IH]; intros c; [done|].
  cbn [serve app]. rewrite IH. reflexivity.
Qed.

Lemma ascending_last (start : Z) (times : list Z) :
  ascending start times → start <= default start (last times).
Proof.
  revert start. induction times as [|t times IH]; intros start; simpl; [lia|].
  intros [Ht Hts]. specialize (IH t Hts).
  destruct times as [|t' times]; [simpl; lia|].
  rewrite last_cons_cons.
  destruct (last (t' :: times)) eqn:E; [simpl in *; lia|]. by apply last_None in E.
Qed.

Lemma ascending_snoc (start : Z) (times : list Z) (t : Z) :
  ascending start (times ++ [t]) →
  ascending start times ∧ default start (last times) <= t.
Proof.
  revert start. induction times as [|t' times IH]; intros start; simpl.
  - intros [? _]. done.
  - intros [Ht Hts]. destruct (IH t' Hts) as [H1 H2]. split; [done|].
    destruct times as [|t'' times]; [done|].
    rewrite last_cons_cons.
    destruct (last (t'' :: times)) eqn:E; [done|]. by apply last_None in E.
Qed.

Lemma admitted_snoc (history : list (Z * jsstring)) (results : list RateLimitResult)
    (call : Z * jsstring) (r : RateLimitResult) :
  length results = length history →
  admitted (history ++ [call]) (results ++ [r])
  = admitted history results
    ++ (if allowed r then [(requestId call.1 call.2, call.1)] else []).
Proof.
  intros Hlen. unfold admitted. rewrite zip_with_app by (by symmetry).
  rewrite omap_app. f_equal. simpl. by destruct (allowed r).
Qed.

Lemma admitted_ids (history : list (Z * jsstring)) (results : list RateLimitResult)
    (p : jsstring * Z) :
  p ∈ admitted history results →
  p.1 ∈ map (λ c : Z * jsstring, requestId c.1 c.2) history.
Proof.
  unfold admitted. intros Hp. apply list_elem_of_omap in Hp as ([c r] & Hcr & Hf).
  simpl in Hf. destruct (allowed r); [|done]. injection Hf as <-. simpl.
  apply elem_of_zip_l in Hcr.
  change (requestId c.1 c.2 ∈ (λ c : Z * jsstring, requestId c.1 c.2) <$> history).
  by apply (list_elem_of_fmap_2 (λ c : Z * jsstring, requestId c.1 c.2)).
Qed.

(** After any history of calls of the client, in order and with distinct
    request identifiers, the store holds the admitted requests of the
    window. *)
Lemma serve_inv (clientId : jsstring) (kv : Kv) (history : list (Z * jsstring)) :
  kv !! getRateLimitKey clientId = None →
  ascending 0 (map fst history) →
  NoDup (map (λ c : Z * jsstring, requestId c.1 c.2) history) →
  let e := serve clientId history (mkConn kv None) in
  outage e.2 = None
  ∧ length e.1 = length history
  ∧ limiterInv (getRateLimitKey clientId) (store e.2) (admitted history e.1)
               (lastTime history).
Proof.
  intros Hkv. induction history as [|call history IH] using rev_ind; intros Hasc Hids.
  - cbn [serve fst snd outage store]. split; [done|]. split; [done|].
    change (admitted [] []) with (@nil (jsstring * Z)).
    unfold limiterInv. rewrite Hkv.
    split; [constructor|]. split; [simpl; lia|done].
  - rewrite map_app in Hasc, Hids. simpl in Hasc, Hids.
    apply ascending_snoc in Hasc as [Hasc Hlast].
    pose proof (ascending_last _ _ Hasc) as H0.
    apply NoDup_app in Hids as (Hids & Hnew & _).
    destruct (IH Hasc Hids) as (Hup & Hlen & Hinv). clear IH.
    cbn zeta. rewrite serve_snoc. cbn zeta.
    destruct (serve clientId history (mkConn kv None)) as [results [kv' o]].
    cbn [fst snd outage store] in *. subst o.
    assert (requestId call.1 call.2 ∉ map fst (admitted history results)) as Hfresh.
    { intros Hin. change (map fst (admitted history results))
        with (fst <$> admitted history results) in Hin.
      apply list_elem_of_fmap in Hin as (p & Hp1 & Hp).
      apply admitted_ids in Hp. rewrite <- Hp1 in Hp.
      apply (Hnew _ Hp). constructor. }
    destruct (check_step clientId kv' (admitted history results) (lastTime history)
                call.1 call.2 Hinv) as (Hup' & _ & _ & _ & _ & _ & Hinv');
      [done | unfold lastTime in *; lia | done |].
    split; [done|]. split; [rewrite !length_app; simpl; lia|].
    rewrite admitted_snoc by done.
    assert (lastTime (history ++ [call]) = call.1) as ->.
    { unfold lastTime. rewrite map_app. cbn [map]. by rewrite last_snoc. }
    destruct (allowed _); [done|]. by rewrite app_nil_r.
Qed.

(** X12. The sliding window.  A client whose key is not in the store calls
    at instants that do not decrease, with request identifiers that are
    all distinct, and the store stays available.  Then the next call is
    allowed exactly when fewer than 100 of the calls admitted so far lie
    within the 24 hours before it; never more than 100 do.  An allowed call
    reports what is left after it, a refused one reports 0, and the reset
    instant lies after now and at most 24 hours ahead. *)
Theorem sliding_window
    (clientId : jsstring) (kv : Kv) (history : list (Z * jsstring))
    (now : Z) (suffix : jsstring) :
  kv !! getRateLimitKey clientId = None →
  ascending 0 (map fst history ++ [now]) →
  NoDup (map (λ c : Z * jsstring, requestId c.1 c.2) (history ++ [(now, suffix)])) →
  let earlier := serve clientId history (mkConn kv None) in
  let recent := filter (inWindow now) (admitted history earlier.1) in
  let r := (checkRateLimit now suffix clientId earlier.2).1 in
  (length recent <= 100)%nat
  ∧ allowed r = bool_decide (length recent < 100)%nat
  ∧ limit r = 100
  ∧ remaining r = (if allowed r then 100 - Z.of_nat (length recent) - 1 else 0)
  ∧ now < resetAt r <= now + 86400000.
Proof.
  intros Hkv Hasc Hids. cbn zeta.
  apply ascending_snoc in Hasc as [Hasc Hlast].
  pose proof (ascending_last _ _ Hasc) as H0.
  rewrite map_app in Hids. apply NoDup_app in Hids as (Hids & Hnew & _).
  destruct (serve_inv clientId kv history Hkv Hasc Hids) as (Hup & Hlen & Hinv).
  destruct (serve clientId history (mkConn kv None)) as [results [kv' o]].
  cbn [fst snd outage store] in *. subst o.
  assert (requestId now suffix ∉ map fst (admitted history results)) as Hfresh.
  { intros Hin. change (map fst (admitted history results))
      with (fst <$> admitted history results) in Hin.
    apply list_elem_of_fmap in Hin as (p & Hp1 & Hp).
    apply admitted_ids in Hp. rewrite <- Hp1 in Hp.
    apply (Hnew _ Hp). constructor. }
  destruct (check_step clientId kv' (admitted history results) (lastTime history)
              now suffix Hinv) as (_ & H1 & H2 & H3 & H4 & H5 & _);
    [unfold lastTime in *; lia | unfold lastTime in *; lia | done |].
  done.
Qed.

(** A call one second after the first of the client. *)
Lemma sliding_window_witness :
  allowed (checkRateLimit 2000 (str "b") (str "ext:abc")
             (serve (str "ext:abc") [(1000, str "a")] (mkConn ∅ None)).2).1
  = true.
Proof.
  destruct (sliding_window (str "ext:abc") ∅ [(1000, str "a")] 2000 (str "b"))
    as (_ & H & _).
  - reflexivity.
  - simpl. lia.
  - apply (bool_decide_unpack _). by vm_compute.
  - rewrite H. by vm_compute.
Defined.

End SlidingWindow.

(** ** The status, outages and the separation of clients *)

Section LimiterEdges.
Import RateLimiter.

Lemma zrem_key (now : Z) (key : jsstring) (lo hi : Z) (kv : Kv) :
  (zremrangebyscore now key lo hi kv).2 !! key
  = live now kv key ≫= λ s,
      match filter (λ p : jsstring * Z, ¬ lo <= p.2 <= hi) (members s) with
      | [] => None
      | m => Some (mkSortedSet m (expiry s))
      end.
Proof.
  unfold zremrangebyscore, put. destruct (live now kv key) as [s|]; cbn.
  - destruct (filter _ (members s)); [by rewrite lookup_delete_eq|].
    by rewrite lookup_insert_eq.
  - by rewrite lookup_delete_eq.
Qed.

(** Removing what has left the window at [now] and then what has left it
    at [later] is removing the latter. *)
Lemma zrem_twice (now later : Z) (key : jsstring) (kv : Kv) :
  now <= later →
  (zremrangebyscore later key 0 (later - WINDOW_MS)
     (zremrangebyscore now key 0 (now - WINDOW_MS) kv).2).2
  = (zremrangebyscore later key 0 (later - WINDOW_MS) kv).2.
Proof.
  intros Hle. apply map_eq. intros k. destruct (decide (k = key)) as [->|Hk].
  - rewrite !zrem_key.
    assert (∀ l : list (jsstring * Z),
              filter (λ p : jsstring * Z, ¬ 0 <= p.2 <= later - WINDOW_MS)
                     (filter (λ p : jsstring * Z, ¬ 0 <= p.2 <= now - WINDOW_MS) l)
              = filter (λ p : jsstring * Z, ¬ 0 <= p.2 <= later - WINDOW_MS) l) as Hff.
    { intros l. apply list_filter_filter_l. intros p. lia. }
    unfold live at 1. rewrite zrem_key. unfold live.
    destruct (kv !! key) as [s|]; [|done].
    pose proof (Hff (members s)) as Hf.
    destruct (expiry s) as [x|] eqn:Ex.
    + destruct (Z.leb_spec x now) as [H1|H1]; cbn [mbind option_bind].
      * destruct (Z.leb_spec x later); [done|lia].
      * destruct (filter (λ p : jsstring * Z, ¬ 0 <= p.2 <= now - WINDOW_MS) (members s))
          as [|p m]; cbn [mbind option_bind members expiry].
        -- rewrite filter_nil in Hf.
           destruct (Z.leb_spec x later); cbn [mbind option_bind]; [done|].
           by rewrite <- Hf.
        -- rewrite Ex. destruct (Z.leb_spec x later); [done|].
           cbn [mbind option_bind members expiry]. by rewrite Hf, Ex.
    + cbn [mbind option_bind].
      destruct (filter (λ p : jsstring * Z, ¬ 0 <= p.2 <= now - WINDOW_MS) (members s))
        as [|p m]; cbn [mbind option_bind members expiry].
      * rewrite filter_nil in Hf. by rewrite <- Hf.
      * rewrite Ex. cbn [mbind option_bind members expiry]. by rewrite Hf.
  - by rewrite !zrem_other.
Qed.

(** X13. Asking for the status costs nothing: a call that follows it, at
    the same instant or later, gets the answer and leaves the store that it
    would have without the question.  The status says whether a call at
    that instant would be allowed, and reports one more remaining than the
    allowed call would, because the call counts itself. *)
Theorem status_is_free
    (now later : Z) (suffix clientId : jsstring) (kv : Kv) :
  now <= later →
  let status := getRateLimitStatus now clientId (mkConn kv None) in
  let call := checkRateLimit now suffix clientId (mkConn kv None) in
  checkRateLimit later suffix clientId status.2
  = checkRateLimit later suffix clientId (mkConn kv None)
  ∧ allowed status.1 = allowed call.1
  ∧ remaining status.1 = remaining call.1 + (if allowed call.1 then 1 else 0)
  ∧ limit status.1 = limit call.1.
Proof.
  intros Hle. cbn zeta. rewrite getRateLimitStatus_up. cbn zeta. cbn [fst snd].
  rewrite !checkRateLimit_up. cbn zeta. rewrite zrem_twice by done.
  split; [done|]. unfold DAILY_LIMIT.
  set (count := (zcard now _ _).1).
  assert (0 <= count) as Hc.
  { unfold count, zcard. cbn [fst]. destruct (live _ _ _); lia. }
  clearbody count.
  destruct (Z.leb_spec 100 count), (Z.ltb_spec count 100);
    cbn [allowed remaining limit fst snd]; try lia.
  all: repeat split; lia.
Qed.

Lemma status_is_free_witness :
  checkRateLimit 3000 (str "b") (str "ext:abc")
    (getRateLimitStatus 2000 (str "ext:abc") (mkConn ∅ None)).2
  = checkRateLimit 3000 (str "b") (str "ext:abc") (mkConn ∅ None).
Proof.
  apply (status_is_free 2000 3000 (str "b") (str "ext:abc") ∅). lia.
Defined.

(** X14. An outage lets everyone through.  When the store fails at one of
    the first three commands of a call, the answer is allowed with 100
    remaining, whatever the client has used, and so is the status; when it
    fails at the first, the store is left as it was.  An outage that
    begins after the fifth command does not show in the answer. *)
Theorem outage_fails_open
    (now : Z) (suffix clientId : jsstring) (kv : Kv) (n : nat) :
  ((n < 3)%nat →
   (checkRateLimit now suffix clientId (mkConn kv (Some n))).1 = failOpen now
   ∧ (getRateLimitStatus now clientId (mkConn kv (Some n))).1 = failOpen now)
  ∧ (checkRateLimit now suffix clientId (mkConn kv (Some 0%nat))).2
    = mkConn kv (Some 0%nat)
  ∧ ((5 <= n)%nat →
     (checkRateLimit now suffix clientId (mkConn kv (Some n))).1
     = (checkRateLimit now suffix clientId (mkConn kv None)).1)
  ∧ allowed (failOpen now) = true
  ∧ remaining (failOpen now) = 100.
Proof.
  split; [|split; [done|split; [|done]]].
  - intros Hn. destruct n as [|[|[|n]]]; [done|done| |lia].
    unfold checkRateLimit, getRateLimitStatus, attempt, bind, command.
    cbn [outage store fst snd]. split; [|done].
    by destruct (DAILY_LIMIT <=? _).
  - intros Hn. destruct n as [|[|[|[|[|n]]]]]; try lia.
    unfold checkRateLimit, attempt, bind, command.
    cbn [outage store fst snd]. by destruct (DAILY_LIMIT <=? _).
Qed.

Lemma outage_fails_open_witness :
  (checkRateLimit 2000 (str "b") (str "ext:abc") (mkConn ∅ (Some 2%nat))).1
  = failOpen 2000.
Proof.
  destruct (outage_fails_open 2000 (str "b") (str "ext:abc") ∅ 2) as (H & _).
  apply H. lia.
Defined.

Lemma getRateLimitKey_inj (c1 c2 : jsstring) :
  getRateLimitKey c1 = getRateLimitKey c2 → c1 = c2.
Proof. unfold getRateLimitKey. apply app_inv_head. Qed.

Lemma check_other (now : Z) (suffix clientId k : jsstring) (kv : Kv) :
  k ≠ getRateLimitKey clientId →
  store (checkRateLimit now suffix clientId (mkConn kv None)).2 !! k = kv !! k.
Proof.
  intros Hk. rewrite checkRateLimit_up. cbn zeta.
  destruct (DAILY_LIMIT <=? _); cbn [snd store].
  - by rewrite zrem_other.
  - by rewrite record_other, zrem_other.
Qed.

(** The answer of a call depends on the store through the key of the
    client only. *)
Lemma check_local (now : Z) (suffix clientId : jsstring) (kv kv' : Kv) :
  kv !! getRateLimitKey clientId = kv' !! getRateLimitKey clientId →
  (checkRateLimit now suffix clientId (mkConn kv None)).1
  = (checkRateLimit now suffix clientId (mkConn kv' None)).1.
Proof.
  intros Hk. rewrite !checkRateLimit_up. cbn zeta.
  set (key := getRateLimitKey clientId) in *.
  assert (∀ a b : Kv, a !! key = b !! key → live now a key = live now b key) as Hlive.
  { intros a b E. unfold live. by rewrite E. }
  assert ((zremrangebyscore now key 0 (now - WINDOW_MS) kv).2 !! key
          = (zremrangebyscore now key 0 (now - WINDOW_MS) kv').2 !! key) as H1.
  { rewrite !zrem_key. by rewrite (Hlive _ _ Hk). }
  set (kv1 := (zremrangebyscore now key 0 (now - WINDOW_MS) kv).2) in *.
  set (kv1' := (zremrangebyscore now key 0 (now - WINDOW_MS) kv').2) in *.
  clearbody kv1 kv1'.
  assert ((zcard now key kv1).1 = (zcard now key kv1').1) as ->.
  { unfold zcard. cbn [fst]. by rewrite (Hlive _ _ H1). }
  destruct (DAILY_LIMIT <=? _); cbn [fst].
  - unfold zrangeFirst. cbn [fst]. by rewrite (Hlive _ _ H1).
  - assert ((zadd now key now (requestId now suffix) kv1).2 !! key
            = (zadd now key now (requestId now suffix) kv1').2 !! key) as H2.
    { unfold zadd. cbn [snd]. rewrite (Hlive _ _ H1).
      destruct (live now kv1' key); by rewrite !lookup_insert_eq. }
    set (kv2 := (zadd now key now (requestId now suffix) kv1).2) in *.
    set (kv2' := (zadd now key now (requestId now suffix) kv1').2) in *.
    clearbody kv2 kv2'.
    assert ((expire now key (WINDOW_MS / 1000 + 60) kv2).2 !! key
            = (expire now key (WINDOW_MS / 1000 + 60) kv2').2 !! key) as H3.
    { unfold expire. cbn [snd]. rewrite (Hlive _ _ H2).
      destruct (live now kv2' key); [by rewrite !lookup_insert_eq|done]. }
    unfold zrangeFirst. cbn [fst]. by rewrite (Hlive _ _ H3).
Qed.

Lemma getClientId_identify (e1 ip1 e2 ip2 : option jsstring) :
  getClientId e1 ip1 = getClientId e2 ip2 ↔ identify e1 ip1 = identify e2 ip2.
Proof.
  destruct e1 as [[|x1 e1]|], ip1 as [[|y1 i1]|], e2 as [[|x2 e2]|], ip2 as [[|y2 i2]|];
    cbn [getClientId identify]; split; intros H; try done;
    try (vm_compute in H; congruence); try (injection H as -> ->; done).
Qed.

(** X15. Who shares a limit.  Two requests are counted under the same
    client identifier exactly when they carry the same non-empty extension
    identifier or, both lacking one, the same non-empty address, or both
    lack both; an extension identifier never collides with an address.  A
    call of one client changes neither the answer that a client with
    another identity gets nor what the store holds for it. *)
Theorem clients_are_separate
    (e1 ip1 e2 ip2 : option jsstring) (now later : Z) (s1 s2 : jsstring) (kv : Kv) :
  (getClientId e1 ip1 = getClientId e2 ip2 ↔ identify e1 ip1 = identify e2 ip2)
  ∧ (identify e1 ip1 ≠ identify e2 ip2 →
     let after := (checkRateLimit now s1 (getClientId e1 ip1) (mkConn kv None)).2 in
     outage after = None
     ∧ store after !! getRateLimitKey (getClientId e2 ip2)
       = kv !! getRateLimitKey (getClientId e2 ip2)
     ∧ (checkRateLimit later s2 (getClientId e2 ip2) after).1
       = (checkRateLimit later s2 (getClientId e2 ip2) (mkConn kv None)).1).
Proof.
  split; [apply getClientId_identify|].
  intros Hid. cbn zeta.
  assert (getRateLimitKey (getClientId e2 ip2) ≠ getRateLimitKey (getClientId e1 ip1))
    as Hk.
  { intros E. apply getRateLimitKey_inj in E. apply Hid.
    symmetry. by apply getClientId_identify. }
  pose proof (check_other now s1 (getClientId e1 ip1) _ kv Hk) as Hother.
  destruct (checkRateLimit now s1 (getClientId e1 ip1) (mkConn kv None)) as [r [kv' o]] eqn:E.
  assert (o = None) as ->.
  { rewrite checkRateLimit_up in E. cbn zeta in E.
    destruct (DAILY_LIMIT <=? _); by injection E as _ _ <-. }
  cbn [snd store outage] in *.
  split; [done|]. split; [done|]. by apply check_local.
Qed.

(** The extension "abc" and the address "abc" do not share a limit. *)
Lemma clients_are_separate_witness :
  (checkRateLimit 3000 (str "b") (getClientId None (Some (str "abc")))
     (checkRateLimit 2000 (str "a") (getClientId (Some (str "abc")) None)
        (mkConn ∅ None)).2).1
  = (checkRateLimit 3000 (str "b") (getClientId None (Some (str "abc")))
       (mkConn ∅ None)).1.
Proof.
  destruct (clients_are_separate (Some (str "abc")) None None (Some (str "abc"))
              2000 3000 (str "a") (str "b") ∅) as (_ & H).
  apply H. by vm_compute.
Defined.

End LimiterEdges.

(** ** Retries of the language model call *)

Section Retries.
Import Llm.

Lemma retryLoop_spec (generate : nat → Outcome) (iterations attempt : nat)
    (lastError : option jsstring) :
  let res := retryLoop generate attempt iterations lastError in
  (attempt <= res.2 <= attempt + iterations)%nat
  ∧ (∀ k, (attempt <= k)%nat → (S k < res.2)%nat →
          ∃ m, generate k = Throws m ∧ noRetry m = false)
  ∧ ((res.2 = attempt ∧ iterations = 0%nat
      ∧ res.1 = Throws (default (str "All retry attempts failed") lastError))
     ∨ (∃ k, res.2 = S k ∧ (attempt <= k)%nat ∧ res.1 = generate k
             ∧ match generate k with
               | Resolves _ => True
               | Throws m => noRetry m = true ∨ res.2 = (attempt + iterations)%nat
               end)).
Proof.
  revert attempt lastError.
  induction iterations as [|n IH]; intros attempt lastError; cbn zeta.
  - cbn [retryLoop fst snd]. split; [lia|]. split; [intros; lia|]. by left.
  - cbn [retryLoop]. destruct (generate attempt) as [r|m] eqn:E.
    + cbn [fst snd]. split; [lia|]. split; [intros; lia|].
      right. exists attempt. rewrite E. done.
    + destruct (noRetry m) eqn:Em.
      * cbn [fst snd]. split; [lia|]. split; [intros; lia|].
        right. exists attempt. rewrite E. split; [done|]. split; [done|]. split; [done|].
        by left.
      * specialize (IH (S attempt) (Some m)). cbn zeta in IH.
        destruct IH as (Hb & Hk & Hend).
        split; [lia|]. split.
        -- intros k Hk1 Hk2. destruct (decide (k = attempt)) as [->|Hne].
           ++ by exists m.
           ++ apply Hk; lia.
        -- right. destruct Hend as [(Hc & Hn & Hr)|(k & Hc & Hk' & Hr & Hm)].
           ++ exists attempt. rewrite Hc, Hr, E. subst n.
              split; [done|]. split; [done|]. split; [done|]. right. lia.
           ++ exists k. split; [done|]. split; [lia|]. split; [done|].
              destruct (generate k); [done|]. destruct Hm as [?|Hm]; [by left|].
              right. lia.
Qed.

(** X16. [generateWithRetry] calls the model at most [maxRetries + 1]
    times, and not at all when [maxRetries] is negative: it then throws its
    own error.  Every call but the last one made has thrown an error that
    allows a retry.  The result is the outcome of the last call made: the
    first success, or an error that is either one of the two kinds that
    are not retried or that of the last attempt allowed. *)
Theorem generateWithRetry_spec (generate : nat → Outcome) (maxRetries : Z) :
  let res := generateWithRetry generate maxRetries in
  (res.2 <= Z.to_nat (maxRetries + 1))%nat
  ∧ (∀ k, (S k < res.2)%nat → ∃ m, generate k = Throws m ∧ noRetry m = false)
  ∧ ((res.2 = 0%nat ∧ maxRetries < 0
      ∧ res.1 = Throws (str "All retry attempts failed"))
     ∨ (∃ k, res.2 = S k ∧ res.1 = generate k
             ∧ match generate k with
               | Resolves _ => True
               | Throws m => noRetry m = true ∨ Z.of_nat k = maxRetries
               end)).
Proof.
  cbn zeta. unfold generateWithRetry.
  pose proof (retryLoop_spec generate (Z.to_nat (maxRetries + 1)) 0 None) as H.
  cbn zeta in H. destruct H as (Hb & Hk & Hend).
  split; [lia|]. split; [intros k Hlt; apply Hk; lia|].
  destruct Hend as [(Hc & Hn & Hr)|(k & Hc & _ & Hr & Hm)].
  - left. split; [done|]. split; [lia|]. done.
  - right. exists k. split; [done|]. split; [done|].
    destruct (generate k); [done|]. destruct Hm as [?|Hm]; [by left|]. right. lia.
Qed.

(** One timeout, then an answer: two calls, the first of which threw an
    error that allows a retry. *)
Lemma generateWithRetry_spec_witness :
  ∃ m, Scenarios.timeoutOnce 0%nat = Throws m ∧ noRetry m = false.
Proof.
  destruct (generateWithRetry_spec Scenarios.timeoutOnce 1) as (_ & H & _).
  apply H. vm_compute. lia.
Defined.

End Retries.

(** ** The selection of the goal impact *)

Section Selection.
Import GoalImpactCalc.












End Selection.

(** ** The goal impact of the development server *)

Section ServerImpact.
Import DevServer.

Lemma ceiling_fifty (price : Q) :
  (inject_Z (50 * (Qceiling (price / 50) - 1)) < price)%Q
  ∧ (price <= inject_Z (50 * Qceiling (price / 50)))%Q.
Proof.
  pose proof (Qle_ceiling (price / 50)) as Hle.
  pose proof (Qceiling_lt (price / 50)) as Hlt.
  set (d := Qceiling (price / 50)) in *. clearbody d.
  rewrite !inject_Z_mult. unfold Z.sub in *. rewrite inject_Z_plus in *.
  change (inject_Z 50) with 50%Q. change (inject_Z (- (1))) with (- (1))%Q in *.
  assert (price == price / 50 * 50)%Q as E by (field).
  split; rewrite E at 2 || rewrite E; lra.
Qed.




End ServerImpact.

(** ** The risk classifiers are monotone *)

Section RiskOrder.
Import Storage.

Lemma Qgt_bool_spec (p c : Q) : Api.Qgt_bool p c = true ↔ (c < p)%Q.
Proof.
  unfold Api.Qgt_bool. rewrite negb_true_iff, <- not_true_iff_false, Qle_bool_iff.
  split; [apply Qnot_le_lt | apply Qlt_not_le].
Qed.

Lemma priceTerm_mono (p p' : Q) :
  (p <= p')%Q → 0 <= priceTerm p <= priceTerm p' ∧ priceTerm p' <= 2.
Proof.
  intros Hle. unfold priceTerm.
  destruct (Api.Qgt_bool p 200) eqn:E1, (Api.Qgt_bool p 50) eqn:E2,
    (Api.Qgt_bool p' 200) eqn:E3, (Api.Qgt_bool p' 50) eqn:E4; try lia.
  all: exfalso.
  all: repeat match goal with
              | E : Api.Qgt_bool _ _ = true |- _ => apply Qgt_bool_spec in E
              | E : Api.Qgt_bool _ _ = false |- _ =>
                  apply not_true_iff_false in E; rewrite Qgt_bool_spec in E
              end.
  all: lra.
Qed.

Lemma countTerm_mono (c c' : Z) :
  c <= c' → 0 <= countTerm c <= countTerm c' ∧ countTerm c' <= 2.
Proof.
  intros Hle. unfold countTerm.
  destruct (Z.ltb_spec 3 c), (Z.ltb_spec 1 c), (Z.ltb_spec 3 c'), (Z.ltb_spec 1 c'); lia.
Qed.

Lemma frictionTerm_mono (f f' : Z) :
  f <= f' → 0 <= frictionTerm f <= frictionTerm f' ∧ frictionTerm f' <= 1.
Proof.
  intros Hle. unfold frictionTerm.
  destruct (Z.leb_spec 4 f), (Z.leb_spec 4 f'); lia.
Qed.

Lemma timeTerm_bounds (t : Api.TimeOfDay) : 0 <= timeTerm t <= 2.
Proof. destruct t; simpl; lia. Qed.

Lemma localRiskScore_sum product context :
  Api.localRiskScore product context
  = timeTerm (Api.timeOfDay context) + countTerm (Api.recentPurchaseCount context)
    + priceTerm (Detector.price product).
Proof.
  unfold Api.localRiskScore, timeTerm, countTerm, priceTerm.
  destruct (Api.timeOfDay context), (3 <? Api.recentPurchaseCount context),
    (1 <? Api.recentPurchaseCount context), (Api.Qgt_bool (Detector.price product) 200),
    (Api.Qgt_bool (Detector.price product) 50); reflexivity.
Qed.

Lemma riskScore_sum request :
  Server.riskScore request
  = timeTerm (Server.getTimeOfDay (Server.localHour request))
    + countTerm (Server.recentPurchaseCount request)
    + frictionTerm (Server.frictionLevel request)
    + priceTerm (Server.product_price request).
Proof.
  unfold Server.riskScore, timeTerm, countTerm, frictionTerm, priceTerm.
  destruct (Server.getTimeOfDay (Server.localHour request)),
    (3 <? Server.recentPurchaseCount request), (1 <? Server.recentPurchaseCount request),
    (4 <=? Server.frictionLevel request),
    (Api.Qgt_bool (Server.product_price request) 200),
    (Api.Qgt_bool (Server.product_price request) 50); reflexivity.
Qed.

Lemma level_of_score_mono (s s' : Z) :
  s <= s' →
  rank (if 4 <=? s then high else if 2 <=? s then medium else low)
  <= rank (if 4 <=? s' then high else if 2 <=? s' then medium else low).
Proof.
  intros Hle.
  destruct (Z.leb_spec 4 s), (Z.leb_spec 2 s), (Z.leb_spec 4 s'), (Z.leb_spec 2 s');
    simpl; lia.
Qed.

(** X19. Both risk classifiers are monotone: at the same time of day, a
    higher price or more recent purchases (and, on the server, a higher
    friction level) never lower the score or the level.  The score of the
    extension lies between 0 and 6, that of the server between 0 and 7.  On
    the same purchase the server scores what the extension scores or one
    more, so its level is the same or the next one up, never lower. *)
Theorem risk_never_drops :
  (∀ product product' context context',
     Api.timeOfDay context = Api.timeOfDay context' →
     (Detector.price product <= Detector.price product')%Q →
     Api.recentPurchaseCount context <= Api.recentPurchaseCount context' →
     0 <= Api.localRiskScore product context
     ∧ Api.localRiskScore product context <= Api.localRiskScore product' context'
     ∧ Api.localRiskScore product' context' <= 6
     ∧ rank (Api.determineLocalRiskLevel product context)
       <= rank (Api.determineLocalRiskLevel product' context'))
  ∧ (∀ request request',
       Server.localHour request = Server.localHour request' →
       (Server.product_price request <= Server.product_price request')%Q →
       Server.recentPurchaseCount request <= Server.recentPurchaseCount request' →
       Server.frictionLevel request <= Server.frictionLevel request' →
       0 <= Server.riskScore request
       ∧ Server.riskScore request <= Server.riskScore request'
       ∧ Server.riskScore request' <= 7
       ∧ rank (Server.determineRiskLevel request)
         <= rank (Server.determineRiskLevel request'))
  ∧ (∀ product context request,
       Server.product_price request = Detector.price product →
       Server.recentPurchaseCount request = Api.recentPurchaseCount context →
       Server.getTimeOfDay (Server.localHour request) = Api.timeOfDay context →
       Api.localRiskScore product context <= Server.riskScore request
       ∧ Server.riskScore request <= Api.localRiskScore product context + 1
       ∧ rank (Api.determineLocalRiskLevel product context)
         <= rank (Server.determineRiskLevel request)
       ∧ rank (Server.determineRiskLevel request)
         <= rank (Api.determineLocalRiskLevel product context) + 1).
Proof.
  split; [|split].
  - intros product product' context context' Ht Hp Hc.
    assert (0 <= Api.localRiskScore product context
            ∧ Api.localRiskScore product context <= Api.localRiskScore product' context'
            ∧ Api.localRiskScore product' context' <= 6) as (H0 & H1 & H2).
    { rewrite !localRiskScore_sum, <- Ht.
      pose proof (priceTerm_mono _ _ Hp). pose proof (countTerm_mono _ _ Hc).
      pose proof (timeTerm_bounds (Api.timeOfDay context)). lia. }
    split; [done|]. split; [done|]. split; [done|].
    by apply level_of_score_mono.
  - intros request request' Ht Hp Hc Hf.
    assert (0 <= Server.riskScore request
            ∧ Server.riskScore request <= Server.riskScore request'
            ∧ Server.riskScore request' <= 7) as (H0 & H1 & H2).
    { rewrite !riskScore_sum, <- Ht.
      pose proof (priceTerm_mono _ _ Hp). pose proof (countTerm_mono _ _ Hc).
      pose proof (frictionTerm_mono _ _ Hf).
      pose proof (timeTerm_bounds (Server.getTimeOfDay (Server.localHour request))). lia. }
    split; [done|]. split; [done|]. split; [done|].
    by apply level_of_score_mono.
  - intros product context request Hp Hc Ht.
    assert (Api.localRiskScore product context <= Server.riskScore request
            ∧ Server.riskScore request <= Api.localRiskScore product context + 1)
      as (H1 & H2).
    { rewrite localRiskScore_sum, riskScore_sum, Hp, Hc, Ht.
      pose proof (frictionTerm_mono _ _ (Z.le_refl (Server.frictionLevel request))). lia. }
    split; [done|]. split; [done|]. split.
    + by apply level_of_score_mono.
    + unfold Api.determineLocalRiskLevel, Server.determineRiskLevel. cbn zeta.
      destruct (Z.leb_spec 4 (Server.riskScore request)),
        (Z.leb_spec 2 (Server.riskScore request)),
        (Z.leb_spec 4 (Api.localRiskScore product context)),
        (Z.leb_spec 2 (Api.localRiskScore product context)); simpl; lia.
Qed.

(** The espresso machine at 250 against the headphones at 60, at the same
    time of day with the same history. *)
Lemma risk_never_drops_witness :
  rank (Api.determineLocalRiskLevel Examples.headphones Examples.headphonesContext)
  <= rank (Api.determineLocalRiskLevel Examples.espresso Examples.headphonesContext).
Proof.
  destruct risk_never_drops as (H & _).
  apply (H Examples.headphones Examples.espresso Examples.headphonesContext
           Examples.headphonesContext); [done | by vm_compute | lia].
Defined.

End RiskOrder.

(** ** Reading the answer of the model *)

Section Answers.
Import Llm.

Lemma dropWhile_start {A} (f : A → bool) (l : list A) :
  match dropWhile f l with [] => True | x :: _ => f x = false end.
Proof.
  induction l as [|x l IH]; [done|]. simpl. by destruct (f x) eqn:E.
Qed.

Lemma dropWhile_fixed {A} (f : A → bool) (l : list A) :
  match l with [] => True | x :: _ => f x = false end → dropWhile f l = l.
Proof. destruct l as [|x l]; [done|]. simpl. by intros ->. Qed.

Lemma dropWhile_app {A} (f : A → bool) (a b : list A) :
  dropWhile f (a ++ b)
  = match dropWhile f a with [] => dropWhile f b | r => r ++ b end.
Proof.
  induction a as [|x a IH]; simpl; [done|]. by destruct (f x).
Qed.

Lemma last_rev {A} (l : list A) : last (rev l) = head l.
Proof. destruct l as [|x l]; [done|]. simpl. by rewrite last_snoc. Qed.

Lemma head_rev {A} (l : list A) : head (rev l) = last l.
Proof. by rewrite <- last_rev, rev_involutive. Qed.

(** The last character of a trimmed string is the last character of the
    string that is not white space. *)
Lemma last_trim (s : jsstring) : last (trim s) = head (dropWhile isSpace (rev s)).
Proof.
  unfold trim, trimEnd, trimStart. rewrite last_rev.
  induction s as [|x s IH]; [done|]. cbn [dropWhile].
  destruct (isSpace x) eqn:Ex; [|done].
  rewrite IH. cbn [rev]. rewrite dropWhile_app.
  destruct (dropWhile isSpace (rev s)); [|done]. simpl. by rewrite Ex.
Qed.

Lemma trim_trim (s : jsstring) : trim (trim s) = trim s.
Proof.
  unfold trim, trimEnd, trimStart.
  set (u := dropWhile isSpace (rev (dropWhile isSpace s))).
  assert (dropWhile isSpace (rev u) = rev u) as ->.
  { apply dropWhile_fixed. destruct (rev u) as [|x r] eqn:E; [done|].
    assert (head (rev u) = Some x) as Hx by (by rewrite E).
    rewrite head_rev in Hx. pose proof (last_trim s) as Hl.
    pose proof (dropWhile_start isSpace s) as Hs.
    unfold trim, trimEnd, trimStart in Hl. fold u in Hl. rewrite last_rev in Hl.
    destruct (dropWhile isSpace s) as [|y t] eqn:Et.
    - subst u. by simpl in E.
    - assert (last u = Some y) as Hy.
      { subst u. cbn [rev]. rewrite dropWhile_app.
        destruct (dropWhile isSpace (rev t)) as [|z r'].
        - simpl. rewrite Hs. done.
        - by rewrite last_snoc. }
      rewrite Hy in Hx. by injection Hx as <-. }
  rewrite rev_involutive. f_equal. apply dropWhile_fixed.
  apply (dropWhile_start isSpace (rev (dropWhile isSpace s))).
Qed.

Lemma endsWith_trim (c : N) (s : jsstring) :
  endsWith c (trim s) = true ↔ head (dropWhile isSpace (rev s)) = Some c.
Proof.
  unfold endsWith. rewrite last_trim.
  destruct (head _) as [x|]; [|done]. rewrite N.eqb_eq. split; congruence.
Qed.

Lemma bullet_facts (c : N) : isBullet c = true → isSpace c = false ∧ c ≠ 63%N.
Proof.
  unfold isBullet, isDigit. rewrite !orb_true_iff, andb_true_iff, !N.eqb_eq, !N.leb_le.
  intros H. split.
  - unfold isSpace.
    repeat (apply orb_false_iff; split); try (apply andb_false_iff);
      rewrite ?N.eqb_neq, ?N.leb_gt; lia.
  - lia.
Qed.

(** A line that ends in a question mark still does without its bullet. *)
Lemma stripBullet_question (line : jsstring) :
  endsWith 63 (trim line) = true → endsWith 63 (trim (stripBullet line)) = true.
Proof.
  rewrite !endsWith_trim. destruct line as [|c rest]; [done|].
  cbn [stripBullet]. destruct (isBullet c) eqn:Ec; [|done].
  destruct (bullet_facts c Ec) as [Hs Hq].
  cbn [rev]. rewrite dropWhile_app.
  pose proof (last_trim rest) as H1. pose proof (last_trim (dropWhile isSpace rest)) as H2.
  assert (trim (dropWhile isSpace rest) = trim rest) as E.
  { unfold trim, trimStart. f_equal. apply dropWhile_fixed, dropWhile_start. }
  rewrite E, H1 in H2. rewrite <- H2.
  destruct (dropWhile isSpace (rev rest)) as [|z r]; [|done].
  simpl. rewrite Hs. simpl. congruence.
Qed.

Lemma mapM_trim (l : list (option jsstring)) (qs : list jsstring) :
  mapM (fmap trim) l = Some qs →
  length qs = length l ∧ Forall (λ q, trim q = q) qs.
Proof.
  revert qs. induction l as [|x l IH]; intros qs; simpl.
  - intros [= <-]. done.
  - destruct x as [x|]; simpl; [|done].
    destruct (mapM (fmap trim) l) as [qs'|]; simpl; [|done].
    intros [= <-]. destruct (IH qs' eq_refl) as [Hlen Hall].
    split; [simpl; lia|]. constructor; [apply trim_trim|done].
Qed.

(** X20. What [parseResponse] returns: between one and three questions,
    each of them trimmed.  When the answer holds no usable JSON, the
    questions are the first lines whose text ends in a question mark, at
    most three, each without one leading digit, dot, hyphen or star and
    still ending in a question mark; the function throws exactly when
    there is no such line.  Only one character goes: of a line numbered
    with a digit and a dot, the dot stays. *)
Theorem parseResponse_questions
    (questionsIn : jsstring → option (list (option jsstring))) (content : jsstring) :
  (∀ digit rest, isDigit digit = true →
     stripBullet (digit :: 46%N :: rest) = 46%N :: rest)
  ∧
  match parseResponse questionsIn content with
  | Resolves r =>
      (1 <= length (questions r) <= 3)%nat
      ∧ Forall (λ q, trim q = q) (questions r)
      ∧ (fromJson questionsIn content = None →
         questions r = map (λ l, trim (stripBullet l)) (fromText content)
         ∧ Forall (λ q, endsWith 63 q = true) (questions r))
  | Throws message =>
      message = str "Could not parse LLM response"
      ∧ fromJson questionsIn content = None
      ∧ Forall (λ line, endsWith 63 (trim line) = false) (split 10 content)
  end.
Proof.
  split.
  { intros digit rest Hd. cbn [stripBullet]. unfold isBullet. by rewrite Hd. }
  unfold parseResponse. destruct (fromJson questionsIn content) as [qs|] eqn:Ej.
  - cbn [questions]. unfold fromJson in Ej.
    destruct (jsonMatch content ≫= questionsIn) as [[|q l]|]; try done.
    apply mapM_trim in Ej as [Hlen Hall]. rewrite Hlen, length_take.
    split; [cbn [length]; lia|]. split; [done|]. done.
  - assert (length (fromText content) <= 3)%nat as Hlen.
    { unfold fromText. rewrite length_take. lia. }
    assert (Forall (λ line, endsWith 63 (trim line) = true) (fromText content)) as Hq.
    { unfold fromText. apply Forall_forall. intros line Hl.
      apply elem_of_take in Hl as (i & Hl & _). apply list_elem_of_lookup_2 in Hl.
      by apply list_elem_of_filter in Hl as [Hl _]. }
    destruct (fromText content) as [|line lines] eqn:Et.
    + split; [done|]. split; [done|].
      unfold fromText in Et.
      apply Forall_forall. intros line Hl.
      destruct (endsWith 63 (trim line)) eqn:E; [|done]. exfalso.
      assert (line ∈ filter (λ line, endsWith 63 (trim line) = true) (split 10 content))
        as Hin by (by apply list_elem_of_filter).
      destruct (filter _ (split 10 content)); [by apply elem_of_nil in Hin|done].
    + cbn [questions]. rewrite length_map.
      split; [simpl in *; lia|]. split.
      * apply Forall_forall. intros q Hq'. apply list_elem_of_In, in_map_iff in Hq'.
        destruct Hq' as (l & <- & _). apply trim_trim.
      * intros _. split; [done|].
        apply Forall_forall. intros q Hq'. apply list_elem_of_In, in_map_iff in Hq'.
        destruct Hq' as (l & <- & Hl). apply stripBullet_question.
        rewrite Forall_forall in Hq. apply Hq. by apply list_elem_of_In.
Qed.

(** A numbered question followed by a remark: the digit goes, the dot
    stays. *)
Lemma parseResponse_questions_witness :
  Forall (λ q, endsWith 63 q = true) [str ". Do you need it?"].
Proof.
  destruct (parseResponse_questions (λ _, None)
              (str "1. Do you need it?" ++ [10%N] ++ str "Take your time."))
    as (_ & H).
  change (parseResponse _ _)
    with (Resolves (mkLLMResponse [str ". Do you need it?"])) in H.
  destruct H as (_ & _ & H). by apply H.
Defined.

End Answers.

(** ** From the detection to the decision of the user *)

Section Decisions.
Import Storage Worker OverlayScript.

Lemma findIndex_fresh {A} (f : A → bool) (l : list A) :
  Forall (λ x, f x = false) l → Background.findIndex f l = None.
Proof.
  induction 1 as [|x l Hx _ IH]; [done|]. simpl. by rewrite Hx, IH.
Qed.

(** The outcome of the event that was recorded last. *)
Lemma outcome_of_last (env : Api.Env) (st : Store) (history : list HistoryEntry)
    (entry : HistoryEntry) (message : Background.PurchaseOutcomeMessage) :
  purchaseHistory st = history ++ [entry] →
  Forall (λ e, Background.sameEvent (Background.eventId message) e = false) history →
  Background.sameEvent (Background.eventId message) entry = true →
  Background.handlePurchaseOutcome env st message
  = (set_purchaseHistory (history ++ [Background.resolve message entry])
       (set_stats
          (if Background.creditsSavings (Background.outcome message)
           then mkStats (savedToday (stats st) + Background.priceOf entry)
                        (savedTotal (stats st) + Background.priceOf entry)
                        (streak (stats st))
           else stats st) st),
     Background.priceOf entry).
Proof.
  intros Hh Hfresh Hsame. unfold Background.handlePurchaseOutcome. rewrite Hh.
  rewrite (findIndex_app_new _ _ _ (findIndex_fresh _ _ Hfresh) Hsame).
  cbn [mbind option_bind]. rewrite lookup_app_r by lia. rewrite Nat.sub_diag.
  cbn [lookup list_lookup fmap option_fmap option_map].
  rewrite insert_app_r_alt by lia. rewrite Nat.sub_diag. reflexivity.
Qed.

(** X21. From the detection to the decision.  A detection that the
    coordinator blocks, in a tab, under an event identifier that no earlier
    entry carries: the overlay shows the product of the detection under
    that identifier.  When the user saves for later, the pending entry
    becomes saved with the seconds of reflection, the price of the product
    is added once to both savings counters, and the product is put on the
    cooling-off list.  When the user proceeds, the entry becomes bought and
    the counters stay.  When the user dismisses, nothing is recorded: the
    entry stays pending. *)
Theorem overlay_decisions
    (env later : Api.Env) (clock clock' : Readings) (st : Store) (b : Browser)
    (message : Background.PurchaseDetectedMessage) (tab shownAt decidedAt : Z) :
  refuses env st (Background.site message) = false →
  50 <= Background.confidence message →
  tab ≠ 0 →
  Api.randomUUID env ≠ [] →
  Forall (λ e, Background.sameEvent (Api.randomUUID env) e = false) (purchaseHistory st) →
  let detection := listener env clock (st, b) (PurchaseDetected message) (Some tab) in
  let w1 := detection.1.1 in
  ∃ overlay incoming d entry,
    detection.1.2 = [(tab, overlay)]
    ∧ shown overlay = Some incoming
    ∧ purchaseHistory w1.1 = purchaseHistory st ++ [entry]
    ∧ Storage.outcome entry = pending
    ∧ stats w1.1 = stats st
    ∧ let s1 := handleMessage shownAt incoming initial in
      visible s1 = true
      ∧ data s1 = Some d
      ∧ eventId d = Api.randomUUID env
      ∧ product d = Background.product message
      ∧ (let w2 := deliver later clock' tab w1 (handleSaveForLater decidedAt s1).1 in
         purchaseHistory w2.1
         = purchaseHistory st
           ++ [Background.resolve
                 (Background.mkOutcome (Api.randomUUID env) saved
                    ((decidedAt - shownAt) / 1000)) entry]
         ∧ stats w2.1
           = mkStats (savedToday (stats st) + Detector.price (Background.product message))
                     (savedTotal (stats st) + Detector.price (Background.product message))
                     (streak (stats st))
         ∧ item_product <$> coolingOffList w2.2
           = (item_product <$> coolingOffList b) ++ [toSaved (Background.product message)])
      ∧ (let w2 := deliver later clock' tab w1 (handleProceed decidedAt s1).1 in
         purchaseHistory w2.1
         = purchaseHistory st
           ++ [Background.resolve
                 (Background.mkOutcome (Api.randomUUID env) bought
                    ((decidedAt - shownAt) / 1000)) entry]
         ∧ stats w2.1 = stats st
         ∧ w2.2 = b)
      ∧ deliver later clock' tab w1 (handleDismiss s1).1 = w1.
Proof.
  intros Hr Hc Htab Hid Hfresh. cbn zeta.
  destruct (detected_blocked env st message Hr Hc) as (st1 & response & rl & Hcall & Hd).
  set (entry := Background.pendingEntry env message response) in *.
  assert (listener env clock (st, b) (PurchaseDetected message) (Some tab)
          = ((set_purchaseHistory (purchaseHistory st ++ [entry]) st1, b),
             [(tab, mkOverlay (Api.randomUUID env) (Some (Background.product message))
                      (Api.questions response) (Api.goalImpact response)
                      (Api.riskLevel response))],
             Decided (Background.Blocked (Api.randomUUID env) (Api.questions response)
                        (Api.goalImpact response) (Api.riskLevel response) rl)))
    as ->.
  { unfold listener, Worker.handleMessage. rewrite Hd.
    by destruct (Z.eqb_spec tab 0). }
  cbn [fst snd].
  assert (purchaseHistory st1 = purchaseHistory st) as Hh.
  { pose proof (callProxyAPI_history env st (Background.product message) Api.noPartial) as H.
    by rewrite Hcall in H. }
  assert (stats st1 = stats st) as Hs.
  { clear -Hcall. unfold Api.callProxyAPI in Hcall.
    destruct (Api.fetch env) as [m | status hl hr hs body]; [by injection Hcall as <-|].
    destruct (status =? 429); [destruct body; by injection Hcall as <-|].
    destruct (negb (Api.isOk status)); destruct body; by injection Hcall as <-. }
  destruct (Api.randomUUID env) as [|x uuid] eqn:Eid; [done|].
  eexists _, _, _, entry.
  split; [reflexivity|]. split; [reflexivity|].
  split; [done|]. split; [done|]. split; [done|].
  cbn [handleMessage visible data eventId product ov_eventId ov_product ov_questions
       ov_goalImpact ov_riskLevel].
  split; [done|]. split; [reflexivity|]. split; [done|]. split; [done|].
  set (st2 := set_purchaseHistory (purchaseHistory st ++ [entry]) st1).
  assert (Background.sameEvent (x :: uuid) entry = true) as Hsame.
  { unfold Background.sameEvent, entry. cbn [Background.pendingEntry Storage.eventId].
    rewrite Eid. by rewrite bool_decide_eq_true_2. }
  split; [|split].
  - unfold handleSaveForLater, deliver, reflectionTime.
    cbn [data fst fold_left toRequest reflectionStartTime product eventId].
    unfold listener, Worker.handleMessage. cbn [fst snd Worker.handleSaveForLater].
    rewrite (outcome_of_last later _ (purchaseHistory st) entry); [| done | done | done].
    cbn [fst snd purchaseHistory stats set_purchaseHistory set_stats
         Background.outcome Background.creditsSavings coolingOffList].
    split; [done|]. split.
    + subst st2. cbn [stats set_purchaseHistory]. rewrite Hs. done.
    + by rewrite fmap_app.
  - unfold handleProceed, deliver, reflectionTime.
    cbn [data fst fold_left toRequest reflectionStartTime product eventId].
    unfold listener, Worker.handleMessage. cbn [fst snd].
    rewrite (outcome_of_last later _ (purchaseHistory st) entry); [| done | done | done].
    cbn [fst snd purchaseHistory stats set_purchaseHistory set_stats
         Background.outcome Background.creditsSavings].
    split; [done|]. split; [|done]. subst st2. cbn [stats set_purchaseHistory]. done.
  - reflexivity.
Qed.

(** The espresso machine at noon, saved for later after twelve seconds:
    250 on both counters. *)
Lemma overlay_decisions_witness :
  ∃ incoming,
    stats (deliver Examples.laterOutage Scenarios.threeReadings 7
             (listener Examples.noonOutage Scenarios.threeReadings
                (Examples.installed, Scenarios.emptyBrowser)
                (PurchaseDetected Examples.detected) (Some 7)).1.1
             (handleSaveForLater 17000 (handleMessage 5000 incoming initial)).1).1
    = mkStats (0 + 250) (0 + 250) 0.
Proof.
  destruct (overlay_decisions Examples.noonOutage Examples.laterOutage
              Scenarios.threeReadings Scenarios.threeReadings Examples.installed
              Scenarios.emptyBrowser Examples.detected 7 5000 17000)
    as (overlay & incoming & d & entry & _ & _ & _ & _ & _ & H).
  - by vm_compute.
  - by vm_compute.
  - done.
  - done.
  - repeat constructor.
  - exists incoming. cbn zeta in H.
    destruct H as (_ & _ & _ & _ & (_ & Hstats & _) & _). exact Hstats.
Defined.

End Decisions.

(** ** The script never clicks on its own *)

Section OwnClicks.
Import Detector.











End OwnClicks.

(** ** What the worker never changes *)

Section Configuration.
Import Storage Worker.








End Configuration.

(** ** What the decision depends on *)

Section Dependence.
Import Storage.

Lemma buildContext_depends env st st' partialContext :
  settings st' = settings st → goals st' = goals st →
  purchaseHistory st' = purchaseHistory st →
  Api.buildContext env st' partialContext = Api.buildContext env st partialContext.
Proof. intros Hs Hg Hh. unfold Api.buildContext. by rewrite Hs, Hg, Hh. Qed.

Lemma callProxyAPI_depends env st st' product partialContext :
  settings st' = settings st → goals st' = goals st →
  purchaseHistory st' = purchaseHistory st →
  (Api.callProxyAPI env st' product partialContext).2
  = (Api.callProxyAPI env st product partialContext).2.
Proof.
  intros Hs Hg Hh. unfold Api.callProxyAPI.
  rewrite (buildContext_depends env st st') by done. rewrite Hg.
  destruct (Api.fetch env) as [m | status hl hr hs body]; [done|].
  destruct (status =? 429); [by destruct body|].
  destruct (negb (Api.isOk status)); by destruct body.
Qed.

(** X24. The answer to a detection depends on the store through the
    switch, the settings, the goals and the purchase history only.  The
    rate limit information is written and never read: a client that counts
    as rate limited is answered as any other, from a new call of the
    proxy. *)
Theorem decision_ignores_rate_limit
    (env : Api.Env) (st st' : Store) (message : Background.PurchaseDetectedMessage) :
  enabled st' = enabled st → settings st' = settings st → goals st' = goals st →
  purchaseHistory st' = purchaseHistory st →
  (Background.handlePurchaseDetected env st' message).2
  = (Background.handlePurchaseDetected env st message).2
  ∧ purchaseHistory (Background.handlePurchaseDetected env st' message).1
    = purchaseHistory (Background.handlePurchaseDetected env st message).1
  ∧ ∀ info,
      (Background.handlePurchaseDetected env (set_rateLimitInfo info st) message).2
      = (Background.handlePurchaseDetected env st message).2.
Proof.
  assert (∀ st', enabled st' = enabled st → settings st' = settings st →
                 goals st' = goals st → purchaseHistory st' = purchaseHistory st →
    (Background.handlePurchaseDetected env st' message).2
    = (Background.handlePurchaseDetected env st message).2
    ∧ purchaseHistory (Background.handlePurchaseDetected env st' message).1
      = purchaseHistory (Background.handlePurchaseDetected env st message).1) as H.
  { clear st'. intros st' He Hs Hg Hh. unfold Background.handlePurchaseDetected.
    unfold Background.quiet, Background.siteRefused. rewrite He, Hs.
    destruct (negb (enabled st)); [done|].
    destruct (match settings st ≫= quietHours with Some _ => _ | None => _ end); [done|].
    destruct (match settings st with Some _ => _ | None => _ end); [done|].
    destruct (Background.confidence message <? 50); [done|].
    pose proof (callProxyAPI_depends env st st' (Background.product message) Api.noPartial
                  Hs Hg Hh) as Hr.
    pose proof (callProxyAPI_history env st (Background.product message) Api.noPartial) as H1.
    pose proof (callProxyAPI_history env st' (Background.product message) Api.noPartial) as H2.
    destruct (Api.callProxyAPI env st (Background.product message) Api.noPartial)
      as [st1 [response rateLimit]].
    destruct (Api.callProxyAPI env st' (Background.product message) Api.noPartial)
      as [st1' [response' rateLimit']].
    cbn [fst snd] in *. injection Hr as -> ->.
    cbn [purchaseHistory set_purchaseHistory]. by rewrite H1, H2, Hh. }
  intros He Hs Hg Hh. destruct (H st' He Hs Hg Hh) as [H1 H2].
  split; [done|]. split; [done|].
  intros info. by apply H.
Qed.

(** The client of the examples, limited at noon until 90000, detects
    again at 7500: it counts as limited, and the answer is the one it would
    get without the limit. *)
Lemma decision_ignores_rate_limit_witness :
  (RateStatus.isRateLimited Examples.laterOutage
     (set_rateLimitInfo (mkRateLimitState true None 90000) Examples.installed)).2 = true
  ∧ (Background.handlePurchaseDetected Examples.laterOutage
       (set_rateLimitInfo (mkRateLimitState true None 90000) Examples.installed)
       Examples.detected).2
    = (Background.handlePurchaseDetected Examples.laterOutage Examples.installed
         Examples.detected).2.
Proof.
  split; [reflexivity|].
  apply (decision_ignores_rate_limit Examples.laterOutage Examples.installed
           (set_rateLimitInfo (mkRateLimitState true None 90000) Examples.installed)
           Examples.detected); reflexivity.
Defined.

End Dependence.

(** ** The image of the product *)

Section Image.
Import Detector.

Lemma findImage_first (p : Page) (before after : list string) (selector : string)
    (source : jsstring) :
  Forall (sourceless p) before →
  querySelector p selector ≫= src = Some source → source ≠ [] →
  findImage p (before ++ selector :: after) = Some source.
Proof.
  intros Hb Hs Hne. induction Hb as [|s before Hs' _ IH]; cbn [app findImage].
  - rewrite Hs. by destruct source.
  - unfold sourceless in Hs'.
    destruct (querySelector p s) as [el|]; [|exact IH]. cbn in Hs' |- *.
    by destruct (src el) as [[|c r]|].
Qed.

Lemma findImage_none (p : Page) (selectors : list string) :
  findImage p selectors = None ↔ Forall (sourceless p) selectors.
Proof.
  induction selectors as [|s selectors IH]; cbn [findImage]; [by split|].
  rewrite Forall_cons. unfold sourceless at 1.
  destruct (querySelector p s) as [el|]; [|cbn; tauto]. cbn.
  destruct (src el) as [[|c r]|]; [tauto | | tauto].
  split; [done | by intros [[] _]].
Qed.

Lemma findImage_nonempty (p : Page) (selectors : list string) :
  findImage p selectors ≠ Some [].
Proof.
  induction selectors as [|s selectors IH]; cbn [findImage]; [done|].
  destruct (querySelector p s) as [el|]; [|exact IH]. cbn.
  by destruct (src el) as [[|c r]|].
Qed.

(** X25. The image of the product is the source of the first element of
    the first selector, in the order of the list, whose first element has
    a source that is not empty; the other elements that a selector matches
    are not looked at.  There is no image exactly when no selector gives
    one, and the image is never the empty string.  The URL is that of the
    page and the category is always general. *)
Theorem image_is_first_source (p : Page) :
  (∀ before selector after source,
     imageSelectors = before ++ selector :: after →
     Forall (sourceless p) before →
     querySelector p selector ≫= src = Some source → source ≠ [] →
     image (extractProductInfo p) = Some source)
  ∧ (image (extractProductInfo p) = None ↔ Forall (sourceless p) imageSelectors)
  ∧ image (extractProductInfo p) ≠ Some []
  ∧ url (extractProductInfo p) = href p
  ∧ category (extractProductInfo p) = str "general".
Proof.
  unfold extractProductInfo. cbn [image url category].
  split; [|split; [apply findImage_none | split; [apply findImage_nonempty | done]]].
  intros before selector after source -> Hb Hs Hne. by apply findImage_first.
Qed.

(** On the gallery page the main image has an empty source, so the first
    picture of the second slot is taken. *)
Lemma image_is_first_source_witness :
  image (extractProductInfo Scenarios.galleryPage)
  = Some (str "https://img.example/front.jpg").
Proof.
  apply (proj1 (image_is_first_source Scenarios.galleryPage)
           ["#landingImage"%string] "#icImg"%string
           (drop 2 imageSelectors) _ eq_refl).
  - constructor; [exact I | constructor].
  - reflexivity.
  - discriminate.
Defined.

End Image.
